(** * A shallow embedding of the RAG agent (app/rag.py, app/agent.py)

    The development follows the two Python modules of the repository:

    - [Py]     : the fragment of the Python runtime the code relies on
                 (strings as code-point sequences, slicing, [rfind], [strip],
                 [replace], exceptions as an outcome type);
    - [Rag]    : [DocumentProcessor], [EmbeddingGenerator],
                 [FAISSVectorStore] and [RAGSystem], with faiss's flat index
                 at its interface;
    - [Agent]  : [AgentMemory], [AgentTools] and [AIAgent];
    - [Json]   : a reference [json.loads], to run the model on concrete text;
    - [Reach], [Sample], [Stated] : reachable states, small concrete worlds,
                 and the statements the code is checked against;
    - [RagTheory], [AgentTheory] : the lemmas and theorems.

    What lies outside the repository (the chat and embedding endpoints, the
    file system, the clock, [json.loads], [eval], the arithmetic of
    distances) is a field of a class [World]: every theorem holds for
    whatever these return. Loops that may run forever take a fuel and return
    [None] when it is spent; printing and logging are left out. *)

From Stdlib Require Import ZArith NArith List String Ascii DecimalString Lia Sorted.
From stdpp Require Import base option list gmap.
Import ListNotations.

Local Open Scope Z_scope.
Set Warnings "-register-all".

(* ===================================================================== *)
(** * The Python runtime fragment *)
(* ===================================================================== *)

Module Py.

(** A Python [str] is a sequence of Unicode code points. *)
Abbreviation str := (list N).

(** String literals of the source, as code points. *)
Definition lit (s : string) : str := map N_of_ascii (list_ascii_of_string s).

Definition str_eqb (a b : str) : bool := bool_decide (a = b).

(** ** Exceptions and outcomes *)

(** The exceptions the code raises or meets, each with the text [str(e)]
    gives. [OtherError] stands for any other subclass of [Exception] raised by
    a library (provider faults, I/O errors, ...). *)
Inductive exn : Type :=
| ValueError (msg : str)
| TypeError (msg : str)
| AttributeError (msg : str)
| IndexError (msg : str)
| KeyError (msg : str)
| OtherError (msg : str).

Definition exn_str (e : exn) : str :=
  match e with
  | ValueError m | TypeError m | AttributeError m | IndexError m
  | KeyError m | OtherError m => m
  end.

(** The [AssertionError] of an [assert] without a message: [str(e)] is the
    empty string. *)
Definition assertion_error : exn := OtherError [].

(** The outcome of a call: a value, or a raised exception. *)
Inductive outcome (A : Type) : Type :=
| Ok (a : A)
| Raise (e : exn).
Arguments Ok {A} a.
Arguments Raise {A} e.

Definition bind {A B} (m : outcome A) (k : A -> outcome B) : outcome B :=
  match m with
  | Ok a => k a
  | Raise e => Raise e
  end.

(** [try: m  except Exception as e: h e] *)
Definition try_except {A} (m : outcome A) (h : exn -> outcome A) : outcome A :=
  match m with
  | Ok a => Ok a
  | Raise e => h e
  end.

(** ** Sequences: [len], slicing *)

Definition len {A} (l : list A) : Z := Z.of_nat (length l).

(** How CPython adjusts one bound of a slice to a sequence of length [n]:
    a negative bound counts from the end, and both are clamped to [0..n]. *)
Definition adjust_index (n i : Z) : Z :=
  if i <? 0 then Z.max 0 (i + n) else Z.min i n.

(** [l[lo:hi]] *)
Definition slice {A} (l : list A) (lo hi : Z) : list A :=
  let lo' := adjust_index (len l) lo in
  let hi' := adjust_index (len l) hi in
  take (Z.to_nat (hi' - lo')) (drop (Z.to_nat lo') l).

(** [l[lo:]] *)
Definition slice_from {A} (l : list A) (lo : Z) : list A :=
  drop (Z.to_nat (adjust_index (len l) lo)) l.

(** [l[:hi]] *)
Definition slice_to {A} (l : list A) (hi : Z) : list A :=
  take (Z.to_nat (adjust_index (len l) hi)) l.

(** ** String methods *)

(** [s.rfind(c)] for a one-character [c]: the highest index of [c] in [s],
    or -1. *)
Fixpoint rfind_from (i : Z) (s : str) (c : N) : Z :=
  match s with
  | [] => -1
  | x :: s' =>
      let r := rfind_from (i + 1) s' c in
      if 0 <=? r then r else if N.eqb x c then i else -1
  end.

Definition rfind (s : str) (c : N) : Z := rfind_from 0 s c.

(** The code points [str.isspace] accepts; [str.strip()] removes them. *)
Definition isspace (c : N) : bool :=
  ((9 <=? c) && (c <=? 13) || (28 <=? c) && (c <=? 32)
   || (c =? 133) || (c =? 160) || (c =? 5760)
   || (8192 <=? c) && (c <=? 8202) || (c =? 8232) || (c =? 8233)
   || (c =? 8239) || (c =? 8287) || (c =? 12288))%N.

Fixpoint lstrip (s : str) : str :=
  match s with
  | [] => []
  | c :: s' => if isspace c then lstrip s' else s
  end.

Definition rstrip (s : str) : str := rev (lstrip (rev s)).

Definition strip (s : str) : str := rstrip (lstrip s).

(** [pat] is a prefix of [s]. *)
Fixpoint startswith (s pat : str) : bool :=
  match pat, s with
  | [], _ => true
  | p :: pat', c :: s' => N.eqb p c && startswith s' pat'
  | _ :: _, [] => false
  end.

(** [pat in s] for strings. *)
Fixpoint contains (s pat : str) : bool :=
  startswith s pat ||
  match s with
  | [] => false
  | _ :: s' => contains s' pat
  end.

(** [s.replace(pat, rep)] for a non-empty [pat]: occurrences are replaced
    from the left and do not overlap. [skip] counts the characters of an
    occurrence still to be dropped. *)
Fixpoint replace_go (pat rep : str) (skip : nat) (s : str) : str :=
  match s with
  | [] => []
  | c :: s' =>
      match skip with
      | S k => replace_go pat rep k s'
      | O =>
          if startswith s pat
          then rep ++ replace_go pat rep (length pat - 1) s'
          else c :: replace_go pat rep 0 s'
      end
  end.

Definition replace (s pat rep : str) : str := replace_go pat rep 0 s.

(** [sep.join(parts)] *)
Fixpoint join (sep : str) (parts : list str) : str :=
  match parts with
  | [] => []
  | [p] => p
  | p :: ps => p ++ sep ++ join sep ps
  end.

(** [str(n)] for a non-negative integer. *)
Definition str_of_nat (n : nat) : str :=
  lit (NilEmpty.string_of_uint (Nat.to_uint n)).

End Py.

(* ===================================================================== *)
(** * app/rag.py *)
(* ===================================================================== *)

Module Rag.
Import Py.

(** ** Documents, settings and the outside world *)

Record Metadata := {
  file_path : str;
  chunk_index : Z;
  total_chunks : Z
}.

(** A chunk document: the dict [process_document] builds. *)
Record Document := {
  content : str;
  source : str;
  chunk_id : Z;
  metadata : Metadata
}.

(** The fields of [app.config.settings] this module reads. *)
Record Settings := {
  chunk_size : Z;
  chunk_overlap : Z;
  top_k_results : Z
}.

(** The [input] of one [client.embeddings.create] request. *)
Inductive embed_input : Type :=
| InputText (text : str)
| InputBatch (texts : list str).

(** What lies outside the repository: numbers and the distance faiss
    computes on them, the embedding endpoint, the file system and
    [pathlib]. A call to the outside returns a value or raises. *)
Class World := {
  (** a float of an embedding or of a distance *)
  Scalar : Type;
  (** the squared Euclidean distance [IndexFlatL2] reports *)
  l2_distance : list Scalar -> list Scalar -> Scalar;
  (** the order of distances *)
  score_le : Scalar -> Scalar -> bool;
  (** the distance faiss reports in a slot it could not fill *)
  pad_score : Scalar;
  (** [client.embeddings.create(model=..., input=...)]: the embeddings of
      [response.data], in order *)
  embeddings_create : embed_input -> outcome (list (list Scalar));
  (** what numpy adds to "setting an array element with a sequence." when
      it refuses rows of unequal length *)
  array_error_detail : list (list Scalar) -> str;
  (** [open(path, 'r', encoding='utf-8').read()] *)
  read_file : str -> outcome str;
  (** [PdfReader(path)]: the pages, each with what [extract_text()] gives *)
  pdf_reader : str -> outcome (list (outcome str));
  (** [s.lower()] *)
  str_lower : str -> str;
  (** [Path(p).suffix], [Path(p).name] and [str(Path(p))] *)
  path_suffix : str -> str;
  path_name : str -> str;
  path_str : str -> str;
  (** [os.path.join(base, name)] and [os.path.exists(path)] *)
  path_join : str -> str -> str;
  path_exists : str -> bool;
  (** [faiss.read_index(path)]: the dimension and the vectors stored *)
  read_index : str -> outcome (Z * list (list Scalar));
  (** [pickle.load] of the documents file *)
  read_documents : str -> outcome (list Document);
  (** [app.config.settings] *)
  settings : Settings
}.

Abbreviation Vector := (list Scalar).

(** [x or y] for an optional integer: [None] and [0] are falsy. *)
Definition int_or (x : option Z) (y : Z) : Z :=
  match x with
  | Some v => if v =? 0 then y else v
  | None => y
  end.

Definition is_empty {A} (l : list A) : bool :=
  match l with [] => true | _ => false end.

(** A call made to the embedding endpoint is recorded with its input, so
    that a theorem can say that none was made. The functions that reach the
    endpoint return the requests they issued beside their outcome. *)
Definition traced (A : Type) : Type := list embed_input * outcome A.

(* --------------------------------------------------------------------- *)
(** ** class DocumentProcessor *)
(* --------------------------------------------------------------------- *)

Module DocumentProcessor.

(** One iteration of the [while] loop of [chunk_text] at position [start]:
    the chunk that is appended and the next value of [start]. The test
    [break_point > chunk_size * 0.5] compares an integer with a float; for
    every [chunk_size] a float holds exactly it is
    [chunk_size < 2 * break_point]. *)
Definition chunk_step (text : str) (chunk_size chunk_overlap start : Z)
  : str * Z :=
  let text_length := len text in
  let end_ := start + chunk_size in
  let chunk := slice text start end_ in
  let '(chunk, end_) :=
    if end_ <? text_length then
      let last_period := rfind chunk 46%N in
      let last_newline := rfind chunk 10%N in
      let break_point := Z.max last_period last_newline in
      if chunk_size <? 2 * break_point
      then (slice_to chunk (break_point + 1), start + break_point + 1)
      else (chunk, end_)
    else (chunk, end_) in
  (strip chunk, end_ - chunk_overlap).

(** The loop [while start < text_length], run for at most [fuel]
    iterations; [None] when the fuel is spent and the loop still runs. *)
Fixpoint chunk_loop (fuel : nat) (text : str) (chunk_size chunk_overlap : Z)
  (start : Z) (chunks : list str) : option (list str) :=
  if start <? len text then
    match fuel with
    | O => None
    | S fuel' =>
        let '(chunk, start') := chunk_step text chunk_size chunk_overlap start in
        chunk_loop fuel' text chunk_size chunk_overlap start' (chunks ++ [chunk])
    end
  else Some chunks.

Definition nonempty (c : str) : bool := negb (is_empty c).

Definition chunk_text (fuel : nat) (text : str)
  (chunk_size chunk_overlap : Z) : option (list str) :=
  match text with
  | [] => Some []
  | _ =>
      match chunk_loop fuel text chunk_size chunk_overlap 0 [] with
      | Some chunks => Some (List.filter nonempty chunks)
      | None => None
      end
  end.

Section WithWorld.
Context `{World}.

Fixpoint concat_pages (pages : list (outcome str)) (text : str) : outcome str :=
  match pages with
  | [] => Ok text
  | Ok t :: pages' => concat_pages pages' (text ++ t ++ [10%N])
  | Raise e :: _ => Raise e
  end.

Definition load_pdf (file_path : str) : outcome str :=
  try_except
    (bind (pdf_reader file_path) (fun pages => concat_pages pages []))
    (fun e => Raise (ValueError
       (lit "Error reading PDF " ++ file_path ++ lit ": " ++ exn_str e))).

Definition load_text (file_path : str) : outcome str :=
  try_except (read_file file_path)
    (fun e => Raise (ValueError
       (lit "Error reading text file " ++ file_path ++ lit ": " ++ exn_str e))).

(** [documents] of [process_document]: the chunks numbered from [i]. *)
Fixpoint make_documents (file_path : str) (total : Z) (i : Z)
  (chunks : list str) : list Document :=
  match chunks with
  | [] => []
  | chunk :: rest =>
      {| content := chunk;
         source := path_name file_path;
         chunk_id := i;
         metadata := {| file_path := path_str file_path;
                        chunk_index := i;
                        total_chunks := total |} |}
      :: make_documents file_path total (i + 1) rest
  end.

(** [None]: the chunking loop is still running after [fuel] iterations. *)
Definition process_document (fuel : nat) (file_path : str)
  (chunk_size chunk_overlap : option Z) : option (outcome (list Document)) :=
  let chunk_size := int_or chunk_size (Rag.chunk_size settings) in
  let chunk_overlap := int_or chunk_overlap (Rag.chunk_overlap settings) in
  let suffix := str_lower (path_suffix file_path) in
  let text :=
    if str_eqb suffix (lit ".pdf") then load_pdf (path_str file_path)
    else if str_eqb suffix (lit ".txt") || str_eqb suffix (lit ".md")
         then load_text (path_str file_path)
         else Raise (ValueError (lit "Unsupported file type: " ++ path_suffix file_path)) in
  match text with
  | Raise e => Some (Raise e)
  | Ok text =>
      match chunk_text fuel text chunk_size chunk_overlap with
      | None => None
      | Some chunks => Some (Ok (make_documents file_path (len chunks) 0 chunks))
      end
  end.

End WithWorld.
End DocumentProcessor.

(* --------------------------------------------------------------------- *)
(** ** class EmbeddingGenerator *)
(* --------------------------------------------------------------------- *)

Module EmbeddingGenerator.
Section WithWorld.
Context `{World}.

(** [response.data[0].embedding] *)
Definition first_embedding (data : list Vector) : outcome Vector :=
  match data with
  | v :: _ => Ok v
  | [] => Raise (IndexError (lit "list index out of range"))
  end.

Definition generate_embedding (text : str) : traced Vector :=
  ([InputText text],
   try_except (bind (embeddings_create (InputText text)) first_embedding)
     (fun e => Raise (ValueError (lit "Error generating embedding: " ++ exn_str e)))).

(** The loop [for i in range(0, len(texts), batch_size)], with [rest] the
    texts from offset [i] on; it runs at most [n] times. *)
Fixpoint generate_batches (n : nat) (i : nat) (rest : list str)
  (embeddings : list Vector) : traced (list Vector) :=
  match n, rest with
  | S n', _ :: _ =>
      let batch := take 100 rest in
      match embeddings_create (InputBatch batch) with
      | Ok batch_embeddings =>
          let '(calls, r) :=
            generate_batches n' (i + 100) (drop 100 rest)
              (embeddings ++ batch_embeddings) in
          (InputBatch batch :: calls, r)
      | Raise e =>
          ([InputBatch batch],
           Raise (ValueError
             (lit "Error generating embeddings for batch " ++ str_of_nat i
              ++ lit ": " ++ exn_str e)))
      end
  | _, _ => ([], Ok embeddings)
  end.

Definition generate_embeddings (texts : list str) : traced (list Vector) :=
  generate_batches (length texts) 0 texts [].

End WithWorld.
End EmbeddingGenerator.

(* --------------------------------------------------------------------- *)
(** ** faiss.IndexFlatL2, at its interface

    The index keeps the vectors it was given, in order ([xb], [ntotal] of
    them, each of dimension [d]). [add] and [search] refuse an array whose
    width is not [d], and [search] refuses [k <= 0]; [search] returns for
    each of the [k] slots a distance and a position, nearest first, and
    fills the slots beyond [ntotal] with position -1. *)
(* --------------------------------------------------------------------- *)

Module IndexFlatL2.
Section WithWorld.
Context `{World}.

Record t := {
  d : Z;
  xb : list Vector
}.

Definition ntotal (index : t) : Z := len (xb index).

Definition has_width (w : Z) (v : Vector) : bool := len v =? w.

Definition add (index : t) (vectors : list Vector) : outcome t :=
  if forallb (has_width (d index)) vectors
  then Ok {| d := d index; xb := xb index ++ vectors |}
  else Raise assertion_error.

(** Insertion of a (distance, position) pair into a list in ascending
    order of distance; among equal distances the earlier position stays
    first. *)
Fixpoint insert_by_score (x : Scalar * Z) (l : list (Scalar * Z))
  : list (Scalar * Z) :=
  match l with
  | [] => [x]
  | y :: l' =>
      if score_le (fst x) (fst y) then x :: l
      else y :: insert_by_score x l'
  end.

Fixpoint ranked_from (i : Z) (query : Vector) (vectors : list Vector)
  : list (Scalar * Z) :=
  match vectors with
  | [] => []
  | v :: vectors' =>
      insert_by_score (l2_distance query v, i) (ranked_from (i + 1) query vectors')
  end.

Definition search (index : t) (query : Vector) (k : Z)
  : outcome (list (Scalar * Z)) :=
  if negb (has_width (d index) query) then Raise assertion_error
  else if k <=? 0 then Raise assertion_error
  else
    let ranked := ranked_from 0 query (xb index) in
    Ok (take (Z.to_nat k) ranked
        ++ replicate (Z.to_nat (k - ntotal index)) (pad_score, -1)).

End WithWorld.
End IndexFlatL2.

(* --------------------------------------------------------------------- *)
(** ** class FAISSVectorStore *)
(* --------------------------------------------------------------------- *)

Module FAISSVectorStore.
Section WithWorld.
Context `{World}.

Record t := {
  dimension : Z;
  index : IndexFlatL2.t;
  documents : list Document
}.

(** [FAISSVectorStore(dimension)] *)
Definition init (dimension : Z) : t :=
  {| dimension := dimension;
     index := {| IndexFlatL2.d := dimension; IndexFlatL2.xb := [] |};
     documents := [] |}.

(** [np.array(rows, dtype=np.float32)]: the matrix of the rows, which
    must have one length. *)
Definition np_array (rows : list Vector) : outcome (list Vector) :=
  match rows with
  | [] => Ok []
  | row :: rest =>
      if forallb (fun r => len r =? len row) rest then Ok rows
      else Raise (ValueError
                    (lit "setting an array element with a sequence."
                     ++ array_error_detail rows))
  end.

(** [add_documents]: the store afterwards, or the exception raised (the
    store is then as before). *)
Definition add_documents (self : t)
  (docs : list Document) (embeddings : list Vector) : outcome t :=
  if is_empty docs || is_empty embeddings then Ok self
  else if negb (len docs =? len embeddings)
  then Raise (ValueError (lit "Number of documents must match number of embeddings"))
  else
    bind (np_array embeddings) (fun embeddings_array =>
    bind (IndexFlatL2.add (index self) embeddings_array) (fun index' =>
    Ok {| dimension := dimension self;
          index := index';
          documents := documents self ++ docs |})).

(** A search result: the copied document with its ['score']. *)
Record SearchResult := {
  document : Document;
  score : Scalar
}.

(** [l[idx]] for a list: a negative index counts from the end. *)
Definition getitem {A} (l : list A) (idx : Z) : outcome A :=
  let i := if idx <? 0 then idx + len l else idx in
  if i <? 0 then Raise (IndexError (lit "list index out of range"))
  else match l !! Z.to_nat i with
       | Some a => Ok a
       | None => Raise (IndexError (lit "list index out of range"))
       end.

(** The loop [for i, idx in enumerate(indices[0])] over the pairs
    [(distances[0][i], idx)]. *)
Fixpoint collect_results (docs : list Document) (found : list (Scalar * Z))
  (results : list SearchResult) : outcome (list SearchResult) :=
  match found with
  | [] => Ok results
  | (distance, idx) :: found' =>
      if idx <? len docs then
        bind (getitem docs idx) (fun doc =>
        collect_results docs found'
          (results ++ [{| document := doc; score := distance |}]))
      else collect_results docs found' results
  end.

Definition search (self : t) (query_embedding : Vector) (top_k : Z)
  : outcome (list SearchResult) :=
  if IndexFlatL2.ntotal (index self) =? 0 then Ok []
  else
    bind (IndexFlatL2.search (index self) query_embedding
            (Z.min top_k (IndexFlatL2.ntotal (index self)))) (fun found =>
    collect_results (documents self) found []).

(** [load]: [True] with the stored index and documents when both files
    exist, [False] otherwise. The index is replaced before the documents
    are read. *)
Definition load (self : t) (index_path documents_path : str)
  : t * outcome bool :=
  if path_exists index_path && path_exists documents_path then
    match read_index index_path with
    | Raise e => (self, Raise e)
    | Ok (dim, vectors) =>
        let index' := {| IndexFlatL2.d := dim; IndexFlatL2.xb := vectors |} in
        match read_documents documents_path with
        | Raise e =>
            ({| dimension := dimension self; index := index';
                documents := documents self |}, Raise e)
        | Ok docs =>
            ({| dimension := dimension self; index := index';
                documents := docs |}, Ok true)
        end
    end
  else (self, Ok false).

End WithWorld.
End FAISSVectorStore.

(* --------------------------------------------------------------------- *)
(** ** class RAGSystem *)
(* --------------------------------------------------------------------- *)

Module RAGSystem.
Section WithWorld.
Context `{World}.

Record t := {
  vector_store : FAISSVectorStore.t;
  is_initialized : bool
}.

(** [RAGSystem()] *)
Definition init : t :=
  {| vector_store := FAISSVectorStore.init 1536; is_initialized := false |}.

Record IngestResult := {
  total_documents : Z;
  total_chunks : Z;
  status : str
}.

(** The loop [for doc_path in document_paths]: a path whose processing
    raises is skipped. [None] when a chunking loop outlives the fuel. *)
Fixpoint process_all (fuel : nat) (document_paths : list str)
  (all_documents : list Document) : option (list Document) :=
  match document_paths with
  | [] => Some all_documents
  | doc_path :: rest =>
      match DocumentProcessor.process_document fuel doc_path None None with
      | None => None
      | Some (Ok chunks) => process_all fuel rest (all_documents ++ chunks)
      | Some (Raise _) => process_all fuel rest all_documents
      end
  end.

(** [ingest_documents]: the system afterwards, the embedding requests
    issued, and the result or the exception. *)
Definition ingest_documents (fuel : nat) (self : t) (document_paths : list str)
  : option (t * traced IngestResult) :=
  match process_all fuel document_paths [] with
  | None => None
  | Some all_documents =>
      Some
        (if is_empty all_documents then
           (self, ([], Raise (ValueError (lit "No documents were successfully processed"))))
         else
           let texts := map content all_documents in
           let '(calls, r) := EmbeddingGenerator.generate_embeddings texts in
           match r with
           | Raise e => (self, (calls, Raise e))
           | Ok embeddings =>
               match FAISSVectorStore.add_documents (vector_store self)
                       all_documents embeddings with
               | Raise e => (self, (calls, Raise e))
               | Ok store' =>
                   ({| vector_store := store'; is_initialized := true |},
                    (calls,
                     Ok {| total_documents := len document_paths;
                           total_chunks := len all_documents;
                           status := lit "success" |}))
               end
           end)
  end.

Definition search (self : t) (query : str) (top_k : option Z)
  : traced (list FAISSVectorStore.SearchResult) :=
  if negb (is_initialized self) then ([], Ok [])
  else
    let top_k := int_or top_k (top_k_results settings) in
    let '(calls, r) := EmbeddingGenerator.generate_embedding query in
    (calls,
     bind r (fun query_embedding =>
     FAISSVectorStore.search (vector_store self) query_embedding top_k)).

Definition load_index (self : t) (base_path : str) : t * outcome bool :=
  let index_path := path_join base_path (lit "faiss.index") in
  let documents_path := path_join base_path (lit "documents.pkl") in
  match FAISSVectorStore.load (vector_store self) index_path documents_path with
  | (store', Ok true) =>
      ({| vector_store := store'; is_initialized := true |}, Ok true)
  | (store', Ok false) =>
      ({| vector_store := store'; is_initialized := is_initialized self |}, Ok false)
  | (store', Raise e) =>
      ({| vector_store := store'; is_initialized := is_initialized self |}, Raise e)
  end.

End WithWorld.
End RAGSystem.

End Rag.

(* ===================================================================== *)
(** * app/agent.py *)
(* ===================================================================== *)

Module Agent.
Import Py.

(** ** Python values

    What [json.loads] returns and what the tools receive as arguments. A
    float keeps the text it was read from; a dict is the list of its items
    in insertion order, keys distinct. *)
Inductive value : Type :=
| VNone
| VBool (b : bool)
| VInt (z : Z)
| VFloat (text : str)
| VStr (s : str)
| VList (items : list value)
| VDict (items : list (str * value)).

(** [type(v).__name__] *)
Definition type_name (v : value) : str :=
  match v with
  | VNone => lit "NoneType"
  | VBool _ => lit "bool"
  | VInt _ => lit "int"
  | VFloat _ => lit "float"
  | VStr _ => lit "str"
  | VList _ => lit "list"
  | VDict _ => lit "dict"
  end.

Fixpoint lookup_item (items : list (str * value)) (key : str) : option value :=
  match items with
  | [] => None
  | (k, v) :: rest => if str_eqb k key then Some v else lookup_item rest key
  end.

(** [v == s] for a string [s] *)
Definition equals_str (v : value) (s : str) : bool :=
  match v with
  | VStr s' => str_eqb s' s
  | _ => false
  end.

Definition quoted (s : str) : str := lit "'" ++ s ++ lit "'".

(** [key in v] *)
Definition py_in (key : str) (v : value) : outcome bool :=
  match v with
  | VDict items => Ok (bool_decide (is_Some (lookup_item items key)))
  | VList items => Ok (existsb (fun x => equals_str x key) items)
  | VStr s => Ok (contains s key)
  | _ => Raise (TypeError
           (lit "argument of type " ++ quoted (type_name v) ++ lit " is not iterable"))
  end.

(** [v[key]] for a string [key] *)
Definition py_getitem (v : value) (key : str) : outcome value :=
  match v with
  | VDict items =>
      match lookup_item items key with
      | Some x => Ok x
      | None => Raise (KeyError (quoted key))
      end
  | VList _ => Raise (TypeError (lit "list indices must be integers or slices, not str"))
  | VStr _ => Raise (TypeError (lit "string indices must be integers, not 'str'"))
  | _ => Raise (TypeError (quoted (type_name v) ++ lit " object is not subscriptable"))
  end.

(** [v[0]] *)
Definition py_first (v : value) : outcome value :=
  match v with
  | VList (x :: _) => Ok x
  | VList [] => Raise (IndexError (lit "list index out of range"))
  | VStr (c :: _) => Ok (VStr [c])
  | VStr [] => Raise (IndexError (lit "string index out of range"))
  | VDict _ => Raise (KeyError (lit "0"))
  | _ => Raise (TypeError (quoted (type_name v) ++ lit " object is not subscriptable"))
  end.

(** [v.get(key, default)] *)
Definition py_get (v : value) (key : str) (default : value) : outcome value :=
  match v with
  | VDict items =>
      Ok (match lookup_item items key with Some x => x | None => default end)
  | _ => Raise (AttributeError
           (quoted (type_name v) ++ lit " object has no attribute 'get'"))
  end.

Definition is_list (v : value) : bool :=
  match v with VList _ => true | _ => false end.

(** ** Messages, requests and the outside world *)

(** A record of [tool_calls_made]. *)
Record ToolCallRecord := {
  tool : str;
  arguments : value;
  result : str
}.

(** The [metadata] dict of a stored message: empty, the provenance of an
    answer, or the error flag. *)
Inductive Metadata : Type :=
| MetaEmpty
| MetaAnswer (tool_calls : list ToolCallRecord) (sources : list str)
| MetaError.

(** A message of a session. *)
Record Message := {
  role : str;
  content : option str;
  timestamp : str;
  metadata : Metadata
}.

(** A structured tool call of a model response. *)
Record ToolCall := {
  call_id : str;
  function_name : str;
  function_arguments : str
}.

(** [response.choices[0].message] *)
Record ChatResponse := {
  response_content : option str;
  response_tool_calls : list ToolCall
}.

(** A message of a completion request. *)
Inductive ChatMessage : Type :=
| Plain (role : str) (content : option str)
| AssistantCalls (content : option str) (tool_calls : list ToolCall)
| ToolResult (tool_call_id : str) (content : str).

(** What a query does to the outside, in order. *)
Inductive event : Type :=
| Completion (messages : list ChatMessage) (tools : bool)
| Evaluated (expression : value)
| ToolRun (tool_name : str) (arguments : value) (result : str).

(** What lies outside the repository: the clock, [eval], [json.loads],
    [str()], [str.lower], the chat endpoint, and the object passed as
    [rag_system] with its [search] method. *)
Class World := {
  (** the [n]-th reading of [datetime.utcnow()], as [isoformat()] and as
      [strftime("%Y-%m-%d %H:%M:%S UTC")] *)
  utcnow_isoformat : nat -> str;
  utcnow_strftime : nat -> str;
  (** [str(eval(expression, {"__builtins__": {}}, {}))] *)
  eval_str : str -> outcome str;
  json_loads : str -> outcome value;
  (** [str(v)], as an f-string formats a value *)
  format_value : value -> str;
  str_lower : str -> str;
  (** [client.chat.completions.create(...).choices[0].message]; the flag
      says whether [TOOL_DEFINITIONS] were passed *)
  chat_completions_create : list ChatMessage -> bool -> outcome ChatResponse;
  (** [rag_system.search(query)] *)
  rag_search : value -> outcome (list Rag.Document)
}.

(* --------------------------------------------------------------------- *)
(** ** class AgentMemory *)
(* --------------------------------------------------------------------- *)

Module AgentMemory.

(** [self.sessions] *)
Abbreviation t := (gmap str (list Message)).

Definition init : t := ∅.

(** [add_message]; [now] is [datetime.utcnow().isoformat()] at the call. *)
Definition add_message (sessions : t) (session_id role : str)
  (content : option str) (now : str) (metadata : option Metadata) : t :=
  let sessions :=
    match sessions !! session_id with
    | Some _ => sessions
    | None => <[session_id := []]> sessions
    end in
  let message :=
    {| role := role;
       content := content;
       timestamp := now;
       metadata := match metadata with Some m => m | None => MetaEmpty end |} in
  <[session_id := default [] (sessions !! session_id) ++ [message]]> sessions.

Definition get_history (sessions : t) (session_id : str) (limit : option Z)
  : list Message :=
  let history := default [] (sessions !! session_id) in
  match limit with
  | Some n => if n =? 0 then history else slice_from history (- n)
  | None => history
  end.

Definition clear_session (sessions : t) (session_id : str) : t :=
  match sessions !! session_id with
  | Some _ => delete session_id sessions
  | None => sessions
  end.

Definition get_context_messages (sessions : t) (session_id : str) (limit : Z)
  : list ChatMessage :=
  map (fun msg => Plain (role msg) (content msg))
      (get_history sessions session_id (Some limit)).

End AgentMemory.

(* --------------------------------------------------------------------- *)
(** ** class AgentTools *)
(* --------------------------------------------------------------------- *)

Module AgentTools.
Section WithWorld.
Context `{World}.

Definition get_current_time (tick : nat) : str := utcnow_strftime tick.

Definition allowed_chars : str := lit "0123456789+-*/.() ".

Definition allowed (c : N) : bool := bool_decide (c ∈ allowed_chars).

(** [c in allowed_chars] for an element [c] of a list or a key of a dict:
    a list or a dict cannot be hashed. *)
Definition allowed_item (c : value) : outcome bool :=
  match c with
  | VStr [ch] => Ok (allowed ch)
  | VList _ | VDict _ =>
      Raise (TypeError (lit "unhashable type: " ++ quoted (type_name c)))
  | _ => Ok false
  end.

(** [all(c in allowed_chars for c in items)] *)
Fixpoint all_allowed (items : list value) : outcome bool :=
  match items with
  | [] => Ok true
  | c :: rest =>
      bind (allowed_item c) (fun ok =>
      if ok then all_allowed rest else Ok false)
  end.

Definition invalid_characters : str := lit "Error: Invalid characters in expression".

Definition not_a_string : exn :=
  TypeError (lit "eval() arg 1 must be a string, bytes or code object").

(** The body of the [try] of [calculate]: the arguments handed to [eval],
    and the outcome. *)
Definition calculate_body (expression : value) : list value * outcome str :=
  match expression with
  | VStr s =>
      if negb (forallb allowed s) then ([], Ok invalid_characters)
      else ([expression], eval_str s)
  | VList items =>
      match all_allowed items with
      | Ok true => ([expression], Raise not_a_string)
      | Ok false => ([], Ok invalid_characters)
      | Raise e => ([], Raise e)
      end
  | VDict items =>
      match all_allowed (map (fun kv => VStr (fst kv)) items) with
      | Ok true => ([expression], Raise not_a_string)
      | Ok false => ([], Ok invalid_characters)
      | Raise e => ([], Raise e)
      end
  | _ =>
      ([], Raise (TypeError (quoted (type_name expression) ++ lit " object is not iterable")))
  end.

Definition calculate (expression : value) : list value * outcome str :=
  let '(evaluated, r) := calculate_body expression in
  (evaluated, try_except r (fun e => Ok (lit "Error: " ++ exn_str e))).

(** One line of [formatted_results], for the [i]-th result. *)
Definition format_result (i : nat) (r : Rag.Document) : str :=
  str_of_nat i ++ lit ". " ++ slice_to (Rag.content r) 200
  ++ lit "... (Source: " ++ Rag.source r ++ lit ")".

Definition search_documents (query : value) : outcome str :=
  try_except
    (bind (rag_search query) (fun results =>
     if Rag.is_empty results then Ok (lit "No relevant documents found.")
     else Ok (join [10%N; 10%N] (imap (fun i r => format_result (S i) r) results))))
    (fun e => Ok (lit "Error searching documents: " ++ exn_str e)).

End WithWorld.
End AgentTools.

(* --------------------------------------------------------------------- *)
(** ** class AIAgent *)
(* --------------------------------------------------------------------- *)

Module AIAgent.
Section WithWorld.
Context `{World}.

(** The state a query runs in: the memory of the agent, the number of
    clock readings so far, the events so far, and the local variables
    [messages], [sources] and [tool_calls_made] of [process_query], which
    keep what was appended to them when an exception is caught. *)
Record state := {
  memory : AgentMemory.t;
  ticks : nat;
  events : list event;
  messages : list ChatMessage;
  sources : list str;
  tool_calls_made : list ToolCallRecord
}.

(** A step of a query: the state afterwards, and a value or an exception. *)
Definition M (A : Type) : Type := state -> state * outcome A.

Definition ret {A} (a : A) : M A := fun s => (s, Ok a).

Definition lift {A} (r : outcome A) : M A := fun s => (s, r).

Definition mbind {A B} (m : M A) (k : A -> M B) : M B :=
  fun s =>
    match m s with
    | (s', Ok a) => k a s'
    | (s', Raise e) => (s', Raise e)
    end.

(** [try: m  except Exception as e: h e] *)
Definition mtry {A} (m : M A) (h : exn -> M A) : M A :=
  fun s =>
    match m s with
    | (s', Ok a) => (s', Ok a)
    | (s', Raise e) => h e s'
    end.

Notation "x <- m ;; k" := (mbind m (fun x => k))
  (at level 100, m at next level, right associativity).
Notation "m ;;; k" := (mbind m (fun _ => k))
  (at level 100, right associativity).

Definition get : M state := fun s => (s, Ok s).

Definition with_memory (s : state) (m : AgentMemory.t) : state :=
  {| memory := m; ticks := ticks s; events := events s;
     messages := messages s; sources := sources s;
     tool_calls_made := tool_calls_made s |}.

Definition with_ticks (s : state) (n : nat) : state :=
  {| memory := memory s; ticks := n; events := events s;
     messages := messages s; sources := sources s;
     tool_calls_made := tool_calls_made s |}.

Definition with_events (s : state) (evs : list event) : state :=
  {| memory := memory s; ticks := ticks s; events := evs;
     messages := messages s; sources := sources s;
     tool_calls_made := tool_calls_made s |}.

Definition with_locals (s : state) (msgs : list ChatMessage) (srcs : list str)
  (calls : list ToolCallRecord) : state :=
  {| memory := memory s; ticks := ticks s; events := events s;
     messages := msgs; sources := srcs; tool_calls_made := calls |}.

Definition log (ev : event) : M unit := fun s =>
  (with_events s (events s ++ [ev]), Ok tt).

Definition tick : M nat := fun s =>
  (with_ticks s (S (ticks s)), Ok (ticks s)).

Definition set_memory (m : AgentMemory.t) : M unit := fun s =>
  (with_memory s m, Ok tt).

Definition set_locals (msgs : list ChatMessage) (srcs : list str)
  (calls : list ToolCallRecord) : M unit := fun s =>
  (with_locals s msgs srcs calls, Ok tt).

(** [messages.append(m)], [sources.append(x)], [tool_calls_made.append(c)] *)
Definition append_message (m : ChatMessage) : M unit :=
  s <- get ;; set_locals (messages s ++ [m]) (sources s) (tool_calls_made s).

Definition append_source (x : str) : M unit :=
  s <- get ;; set_locals (messages s) (sources s ++ [x]) (tool_calls_made s).

Definition append_tool_call (c : ToolCallRecord) : M unit :=
  s <- get ;; set_locals (messages s) (sources s) (tool_calls_made s ++ [c]).

(** [self.memory.add_message(...)] *)
Definition add_message (session_id role : str) (content : option str)
  (metadata : option Metadata) : M unit :=
  n <- tick ;;
  s <- get ;;
  set_memory (AgentMemory.add_message (memory s) session_id role content
                (utcnow_isoformat n) metadata).

(** [self.client.chat.completions.create(messages=messages, ...)] *)
Definition create_completion (tools : bool) : M ChatResponse :=
  s <- get ;;
  log (Completion (messages s) tools) ;;;
  lift (chat_completions_create (messages s) tools).

(** [_execute_tool]; [rag_system] tells whether the agent was given one. *)
Definition _execute_tool (rag_system : bool) (tool_name : str)
  (arguments : value) : M str :=
  result <-
    (if str_eqb tool_name (lit "get_current_time") then
       n <- tick ;; ret (AgentTools.get_current_time n)
     else if str_eqb tool_name (lit "calculate") then
       expression <- lift (py_get arguments (lit "expression") (VStr [])) ;;
       let '(evaluated, r) := AgentTools.calculate expression in
       fold_right (fun v k => log (Evaluated v) ;;; k) (lift r) evaluated
     else if str_eqb tool_name (lit "search_documents") then
       if negb rag_system then
         ret (lit "Document search is not available. RAG system not initialized.")
       else
         query <- lift (py_get arguments (lit "query") (VStr [])) ;;
         lift (AgentTools.search_documents query)
     else ret (lit "Unknown tool: " ++ tool_name)) ;;
  log (ToolRun tool_name arguments result) ;;;
  ret result.

Definition doc_keywords : list str :=
  map lit
    ["policy"; "document"; "company"; "procedure"; "guideline";
     "rule"; "regulation"; "faq"; "how to"; "what is our";
     "according to"; "based on"; "find"; "search";
     "vacation"; "leave"; "holiday"; "benefit"; "employee";
     "work"; "salary"; "bonus"; "time off"; "sick"; "remote";
     "office"; "product"; "api"; "integration"; "technical"]%string.

Definition _should_use_rag (query : str) : bool :=
  let query_lower := str_lower query in
  existsb (fun keyword => contains query_lower keyword) doc_keywords.

Definition NL : str := [10%N].
Definition DQUOTE : str := [34%N].
Definition SQUOTE : str := [39%N].

Definition system_prompt : str :=
  lit "You are a helpful AI assistant with access to company documents and tools." ++ NL
  ++ lit "            " ++ NL
  ++ lit "Your capabilities:" ++ NL
  ++ lit "1. Search company documents (Policies, FAQs, API Docs) for specific information. ALWAYS search documents first if the user asks about company rules, products, or technical details." ++ NL
  ++ lit "2. Answer general questions using your knowledge." ++ NL
  ++ lit "3. Perform calculations when needed." ++ NL
  ++ lit "4. Provide the current time." ++ NL
  ++ NL
  ++ lit "When answering based on documents:" ++ NL
  ++ lit "- If the answer is explicitly stated in the retrieved documents, you must use that value. Do not assume or generalize." ++ NL
  ++ lit "- If the answer is NOT in the documents, explicitly state that you could not find the information." ++ NL
  ++ lit "- Cite sources clearly." ++ NL
  ++ lit "- Be clear and concise." ++ NL
  ++ lit "- Do not make up policies that are not in the text.".

Definition search_hint : str :=
  NL ++ NL ++ lit "IMPORTANT: The user is asking about a topic (vacation/policy/technical) that is likely covered in the company documents. Please use the 'search_documents' tool to find the answer.".

Definition critical_rule : str :=
  lit "CRITICAL: If the answer is explicitly stated in the retrieved documents, you must use that value. Do not assume or generalize. If it's not there, say so. DO NOT output any JSON.".

Definition tool_results_instruction : str :=
  lit "SYSTEM INSTRUCTION: The tool results are provided above. Please use them to answer the original question in plain natural language. "
  ++ NL ++ NL ++ critical_rule.

Definition fallback_instruction (tool_result : str) : str :=
  lit "SYSTEM: The tool returned the following information: " ++ tool_result
  ++ NL ++ NL
  ++ lit "INSTRUCTION: Please provide a natural language answer to the original question based ONLY on this information. "
  ++ NL ++ NL ++ critical_rule.

Definition document_search (query : value) : str :=
  lit "Document search: " ++ format_value query.

(** The loop [for tool_call in message.tool_calls]. *)
Fixpoint execute_tool_calls (rag_system : bool) (calls : list ToolCall) : M unit :=
  match calls with
  | [] => ret tt
  | tool_call :: rest =>
      let function_name := function_name tool_call in
      function_args <- lift (json_loads (function_arguments tool_call)) ;;
      tool_result <- _execute_tool rag_system function_name function_args ;;
      append_tool_call {| tool := function_name;
                          arguments := function_args;
                          result := tool_result |} ;;;
      append_message (ToolResult (call_id tool_call) tool_result) ;;;
      (if str_eqb function_name (lit "search_documents") then
         query <- lift (py_get function_args (lit "query") VNone) ;;
         append_source (document_search query)
       else ret tt) ;;;
      execute_tool_calls rag_system rest
  end.

(** The branch [if message.tool_calls:]. *)
Definition structured_path (rag_system : bool) (message : ChatResponse)
  : M (option str) :=
  append_message (AssistantCalls (response_content message)
                    (response_tool_calls message)) ;;;
  execute_tool_calls rag_system (response_tool_calls message) ;;;
  append_message (Plain (lit "user") (Some tool_results_instruction)) ;;;
  final_response <- create_completion false ;;
  ret (response_content final_response).

(** [re.search(r'(\{.*\}|\[.*\])', content, re.DOTALL)]: the leftmost
    position that holds an opening brace followed somewhere by a closing
    brace, or an opening bracket followed somewhere by a closing bracket;
    the match runs to the last such closer. *)
Fixpoint re_search_json (content : str) : option str :=
  match content with
  | [] => None
  | c :: rest =>
      let upto (closer : N) :=
        let r := rfind rest closer in
        if 0 <=? r then Some (c :: take (Z.to_nat (r + 1)) rest) else None in
      match (if N.eqb c 123 then upto 125%N
             else if N.eqb c 91 then upto 93%N
             else None) with
      | Some json_str => Some json_str
      | None => re_search_json rest
      end
  end.

(** The condition of the [elif] that opens the fallback. *)
Definition mentions_tool_call (content : option str) : bool :=
  match content with
  | Some c =>
      negb (Rag.is_empty c) && contains c (lit "search_documents")
      && (contains c (lit "{") || contains c (lit "["))
  | None => false
  end.

(** [content.replace("```json", "").replace("```", "").strip()] *)
Definition clean_content (content : str) : str :=
  strip (replace (replace content (lit "```json") []) (lit "```") []).

(** The repair of single-quoted JSON. *)
Definition fix_quotes (json_str : str) : str :=
  if contains json_str SQUOTE && negb (contains json_str DQUOTE)
  then replace json_str SQUOTE DQUOTE
  else json_str.

(** From [tool_data = json.loads(json_str)] to the test that it names
    [search_documents]: the dict of the call when it does. *)
Definition recognize (tool_data : value) : outcome (option value) :=
  bind (if is_list tool_data then py_first tool_data else Ok tool_data)
    (fun tool_data =>
  bind (py_in (lit "function") tool_data) (fun wrapped =>
  bind (if wrapped then py_getitem tool_data (lit "function") else Ok tool_data)
    (fun tool_data =>
  bind (py_in (lit "name") tool_data) (fun named =>
  bind (if named
        then bind (py_getitem tool_data (lit "name")) (fun name =>
             Ok (equals_str name (lit "search_documents")))
        else Ok false) (fun is_search =>
  Ok (if is_search then Some tool_data else None)))))).

(** [if isinstance(function_args, str): try: json.loads(...) except: pass] *)
Definition decode_string_arguments (function_args : value) : value :=
  match function_args with
  | VStr s =>
      match json_loads (replace s SQUOTE DQUOTE) with
      | Ok v => v
      | Raise _ => function_args
      end
  | _ => function_args
  end.

(** The manual tool call of the fallback, once recognized. *)
Definition manual_tool_call (rag_system : bool) (original : str)
  (tool_data : value) : M (option str) :=
  let function_name := lit "search_documents" in
  function_args <- lift (py_get tool_data (lit "arguments") (VDict [])) ;;
  let function_args := decode_string_arguments function_args in
  tool_result <- _execute_tool rag_system function_name function_args ;;
  append_tool_call {| tool := function_name;
                      arguments := function_args;
                      result := tool_result |} ;;;
  query <- lift (py_get function_args (lit "query") VNone) ;;
  append_source (document_search query) ;;;
  append_message (Plain (lit "assistant") (Some original)) ;;;
  append_message (Plain (lit "user") (Some (fallback_instruction tool_result))) ;;;
  final_response <- create_completion false ;;
  ret (response_content final_response).

(** The branch of the [elif]: the fallback. *)
Definition fallback_path (rag_system : bool) (original : str)
  : M (option str) :=
  mtry
    (let content := clean_content original in
     match re_search_json content with
     | Some json_str =>
         let json_str := fix_quotes json_str in
         mtry
           (tool_data <- lift (json_loads json_str) ;;
            recognized <- lift (recognize tool_data) ;;
            match recognized with
            | Some tool_data => manual_tool_call rag_system original tool_data
            | None => ret (Some original)
            end)
           (fun _ => ret (Some original))
     | None => ret (Some original)
     end)
    (fun _ => ret (Some original)).

(** The dict [process_query] returns; [error] is set on the error path,
    [timestamp] on the other. *)
Record QueryResult := {
  answer : option str;
  result_sources : list str;
  result_tool_calls : list ToolCallRecord;
  session_id : str;
  result_timestamp : option str;
  error : option str
}.

(** The branches on the first response: structured tool calls, the
    fallback, or the text as it is. *)
Definition answer_of (rag_system : bool) (message : ChatResponse)
  : M (option str) :=
  if negb (Rag.is_empty (response_tool_calls message))
  then structured_path rag_system message
  else if mentions_tool_call (response_content message)
  then fallback_path rag_system (default [] (response_content message))
  else ret (response_content message).

(** The end of the [try]: the answer goes to memory and into the dict. *)
Definition finish (session_id : str) (answer : option str) : M QueryResult :=
  s <- get ;;
  add_message session_id (lit "assistant") answer
    (Some (MetaAnswer (tool_calls_made s) (sources s))) ;;;
  n <- tick ;;
  ret {| answer := answer;
         result_sources := sources s;
         result_tool_calls := tool_calls_made s;
         session_id := session_id;
         result_timestamp := Some (utcnow_isoformat n);
         error := None |}.

(** The [except Exception as e] of [process_query]. *)
Definition on_error (session_id : str) (e : exn) : M QueryResult :=
  let error_msg := lit "Error processing query: " ++ exn_str e in
  add_message session_id (lit "assistant") (Some error_msg) (Some MetaError) ;;;
  ret {| answer := Some error_msg;
         result_sources := [];
         result_tool_calls := [];
         session_id := session_id;
         result_timestamp := None;
         error := Some (exn_str e) |}.

(** The [try] statement of [process_query]. *)
Definition respond (rag_system : bool) (session_id : str) (use_tools : bool)
  : M QueryResult :=
  mtry
    (message <- create_completion use_tools ;;
     answer <- answer_of rag_system message ;;
     finish session_id answer)
    (on_error session_id).

Definition process_query_body (rag_system : bool) (query session_id : str)
  (use_tools : bool) : M QueryResult :=
  add_message session_id (lit "user") (Some query) None ;;;
  let should_search := _should_use_rag query in
  let system_content :=
    system_prompt ++ (if should_search then search_hint else []) in
  let system_message := Plain (lit "system") (Some system_content) in
  s <- get ;;
  let context_messages :=
    AgentMemory.get_context_messages (memory s) session_id 10 in
  set_locals (system_message :: context_messages) [] [] ;;;
  respond rag_system session_id use_tools.

(** The agent between queries. *)
Record t := {
  agent_memory : AgentMemory.t;
  rag_system : bool;
  clock : nat
}.

(** [process_query]: the agent afterwards, what was done to the outside,
    and the dict returned. The body catches every exception, so there is
    always a dict. *)
Definition process_query (self : t) (query session_id : str) (use_tools : bool)
  : t * list event * outcome QueryResult :=
  let '(s, r) :=
    process_query_body (rag_system self) query session_id use_tools
      {| memory := agent_memory self; ticks := clock self; events := [];
         messages := []; sources := []; tool_calls_made := [] |} in
  ({| agent_memory := memory s; rag_system := rag_system self; clock := ticks s |},
   events s, r).

End WithWorld.
End AIAgent.

End Agent.

(* ===================================================================== *)
(** * A reference [json.loads]

    The theorems below hold for any [json_loads]. To run the model on
    concrete responses, this module decodes JSON text the way Python's
    decoder does: the JSON grammar, with [NaN], [Infinity] and [-Infinity],
    the last value kept for a repeated key, control characters refused
    inside strings, and nothing but whitespace allowed after the value.
    The text of the error raised is not reproduced, nor is the recursion
    limit. *)
(* ===================================================================== *)

Module Json.
Import Py Agent.

Definition is_ws (c : N) : bool :=
  (N.eqb c 32 || N.eqb c 9 || N.eqb c 10 || N.eqb c 13)%N.

Fixpoint skip_ws (s : str) : str :=
  match s with
  | c :: s' => if is_ws c then skip_ws s' else s
  | [] => []
  end.

Definition is_digit (c : N) : bool := ((48 <=? c) && (c <=? 57))%N.

Definition hex_digit (c : N) : option N :=
  if is_digit c then Some (c - 48)%N
  else if ((97 <=? c) && (c <=? 102))%N then Some (c - 87)%N
  else if ((65 <=? c) && (c <=? 70))%N then Some (c - 55)%N
  else None.

(** Where the scanner of a string body stands. *)
Inductive scan_state : Type :=
| Normal
| Escape
| Hex (digits : list N).

Definition simple_escape (c : N) : option N :=
  if N.eqb c 34 then Some 34%N            (* quote *)
  else if N.eqb c 92 then Some 92%N       (* backslash *)
  else if N.eqb c 47 then Some 47%N       (* slash *)
  else if N.eqb c 98 then Some 8%N        (* b *)
  else if N.eqb c 102 then Some 12%N      (* f *)
  else if N.eqb c 110 then Some 10%N      (* n *)
  else if N.eqb c 114 then Some 13%N      (* r *)
  else if N.eqb c 116 then Some 9%N       (* t *)
  else None.

(** The body of a string, after its opening quote: the characters read,
    each with a flag telling that it came from a [\u] escape, and the text
    after the closing quote. *)
Fixpoint scan_string (s : str) (st : scan_state) (acc : list (bool * N))
  : option (list (bool * N) * str) :=
  match s with
  | [] => None
  | c :: s' =>
      match st with
      | Normal =>
          if N.eqb c 34 then Some (acc, s')
          else if N.eqb c 92 then scan_string s' Escape acc
          else if (c <? 32)%N then None
          else scan_string s' Normal (acc ++ [(false, c)])
      | Escape =>
          if N.eqb c 117 then scan_string s' (Hex [])
                                acc
          else match simple_escape c with
               | Some x => scan_string s' Normal (acc ++ [(false, x)])
               | None => None
               end
      | Hex digits =>
          match hex_digit c with
          | None => None
          | Some h =>
              match digits with
              | [a; b; c'] =>
                  scan_string s' Normal
                    (acc ++ [(true, ((a * 16 + b) * 16 + c') * 16 + h)%N])
              | _ => scan_string s' (Hex (digits ++ [h])) acc
              end
          end
      end
  end.

(** An escaped high surrogate followed at once by an escaped low surrogate
    is one character; [pending] is a high surrogate just read. *)
Fixpoint join_surrogates (pending : option N) (l : list (bool * N)) : str :=
  match l with
  | [] => match pending with Some hi => [hi] | None => [] end
  | (escaped, c) :: rest =>
      let fresh :=
        if (escaped && (55296 <=? c) && (c <=? 56319))%N
        then join_surrogates (Some c) rest
        else c :: join_surrogates None rest in
      match pending with
      | Some hi =>
          if (escaped && (56320 <=? c) && (c <=? 57343))%N
          then (65536 + (hi - 55296) * 1024 + (c - 56320))%N
               :: join_surrogates None rest
          else hi :: fresh
      | None => fresh
      end
  end.

Definition parse_string (s : str) : option (str * str) :=
  match scan_string s Normal [] with
  | Some (chars, rest) => Some (join_surrogates None chars, rest)
  | None => None
  end.

Fixpoint span_digits (s : str) : str * str :=
  match s with
  | c :: s' =>
      if is_digit c then let '(ds, rest) := span_digits s' in (c :: ds, rest)
      else ([], s)
  | [] => ([], [])
  end.

Definition digit_value (ds : str) : Z :=
  fold_left (fun acc c => acc * 10 + Z.of_N (c - 48)) ds 0.

(** A number: the integer part, then a fraction and an exponent when they
    are complete. [s] starts at the first digit. *)
Definition parse_number (negative : bool) (s : str) : option (value * str) :=
  let '(int_part, rest) :=
    match s with
    | 48%N :: s' => ([48%N], s')
    | _ => span_digits s
    end in
  if Rag.is_empty int_part then None
  else
    let '(frac, rest1) :=
      match rest with
      | 46%N :: r =>
          let '(ds, r') := span_digits r in
          if Rag.is_empty ds then ([], rest) else (46%N :: ds, r')
      | _ => ([], rest)
      end in
    let '(expo, rest2) :=
      match rest1 with
      | e :: r =>
          if (N.eqb e 101 || N.eqb e 69)%N then
            let '(sign, r1) :=
              match r with
              | sg :: r1 => if (N.eqb sg 43 || N.eqb sg 45)%N then ([sg], r1) else ([], r)
              | [] => ([], r)
              end in
            let '(ds, r2) := span_digits r1 in
            if Rag.is_empty ds then ([], rest1) else (e :: sign ++ ds, r2)
          else ([], rest1)
      | [] => ([], rest1)
      end in
    let sign := if negative then [45%N] else [] in
    if Rag.is_empty frac && Rag.is_empty expo
    then Some (VInt ((if negative then -1 else 1) * digit_value int_part), rest2)
    else Some (VFloat (sign ++ int_part ++ frac ++ expo), rest2).

Definition strip_prefix (pat s : str) : option str :=
  if startswith s pat then Some (drop (length pat) s) else None.

(** [put k v items]: the dict after [d[k] = v]. *)
Fixpoint put (k : str) (v : value) (items : list (str * value))
  : list (str * value) :=
  match items with
  | [] => [(k, v)]
  | (k', v') :: rest =>
      if str_eqb k' k then (k', v) :: rest else (k', v') :: put k v rest
  end.

(** A value at the head of [s]; the elements of an array after its opening
    bracket; the members of an object after its opening brace. *)
Fixpoint parse_value (fuel : nat) (s : str) : option (value * str) :=
  match fuel with
  | O => None
  | S fuel' =>
      match s with
      | 34%N :: rest =>
          match parse_string rest with
          | Some (x, rest') => Some (VStr x, rest')
          | None => None
          end
      | 123%N :: rest =>
          match skip_ws rest with
          | 125%N :: rest' => Some (VDict [], rest')
          | rest' => parse_members fuel' rest' []
          end
      | 91%N :: rest =>
          match skip_ws rest with
          | 93%N :: rest' => Some (VList [], rest')
          | rest' => parse_elements fuel' rest' []
          end
      | 45%N :: rest =>
          match strip_prefix (lit "Infinity") rest with
          | Some rest' => Some (VFloat (lit "-Infinity"), rest')
          | None => parse_number true rest
          end
      | _ =>
          match strip_prefix (lit "null") s with
          | Some rest => Some (VNone, rest)
          | None =>
          match strip_prefix (lit "true") s with
          | Some rest => Some (VBool true, rest)
          | None =>
          match strip_prefix (lit "false") s with
          | Some rest => Some (VBool false, rest)
          | None =>
          match strip_prefix (lit "NaN") s with
          | Some rest => Some (VFloat (lit "NaN"), rest)
          | None =>
          match strip_prefix (lit "Infinity") s with
          | Some rest => Some (VFloat (lit "Infinity"), rest)
          | None => parse_number false s
          end end end end end
      end
  end
with parse_elements (fuel : nat) (s : str) (acc : list value)
  : option (value * str) :=
  match fuel with
  | O => None
  | S fuel' =>
      match parse_value fuel' s with
      | None => None
      | Some (v, rest) =>
          match skip_ws rest with
          | 93%N :: rest' => Some (VList (acc ++ [v]), rest')
          | 44%N :: rest' => parse_elements fuel' (skip_ws rest') (acc ++ [v])
          | _ => None
          end
      end
  end
with parse_members (fuel : nat) (s : str) (acc : list (str * value))
  : option (value * str) :=
  match fuel with
  | O => None
  | S fuel' =>
      match s with
      | 34%N :: rest =>
          match parse_string rest with
          | None => None
          | Some (key, rest1) =>
              match skip_ws rest1 with
              | 58%N :: rest2 =>
                  match parse_value fuel' (skip_ws rest2) with
                  | None => None
                  | Some (v, rest3) =>
                      match skip_ws rest3 with
                      | 125%N :: rest' => Some (VDict (put key v acc), rest')
                      | 44%N :: rest' =>
                          parse_members fuel' (skip_ws rest') (put key v acc)
                      | _ => None
                      end
                  end
              | _ => None
              end
          end
      | _ => None
      end
  end.

Definition loads (s : str) : outcome value :=
  match parse_value (2 * length s + 2) (skip_ws s) with
  | Some (v, rest) =>
      match skip_ws rest with
      | [] => Ok v
      | _ => Raise (ValueError (lit "Extra data"))
      end
  | None => Raise (ValueError (lit "Expecting value"))
  end.

End Json.

(* ===================================================================== *)
(** * Reachable states and concrete worlds *)
(* ===================================================================== *)

Module Reach.
Import Py Rag.

(** The states of a [RAGSystem] in which no ingestion and no index load has
    succeeded yet. *)
Inductive not_ready `{World} : RAGSystem.t -> Prop :=
| fresh : not_ready RAGSystem.init
| failed_ingest (rag rag' : RAGSystem.t) (fuel : nat) (paths : list str)
    (calls : list embed_input) (e : exn) :
    not_ready rag ->
    RAGSystem.ingest_documents fuel rag paths = Some (rag', (calls, Raise e)) ->
    not_ready rag'
| failed_load (rag rag' : RAGSystem.t) (base_path : str) (r : outcome bool) :
    not_ready rag ->
    RAGSystem.load_index rag base_path = (rag', r) ->
    r <> Ok true ->
    not_ready rag'.

End Reach.

(** Worlds small enough to run the model in: integers for floats, a file
    system of three files, an embedding endpoint that answers with one
    vector per text, a scripted chat endpoint. *)
Module Sample.
Import Py Rag.

Definition ascii_lower (s : str) : str :=
  map (fun c => if ((65 <=? c) && (c <=? 90))%N then (c + 32)%N else c) s.

(** The text after the last [sep], with [sep] itself when [keep]. *)
Definition after_last (sep : N) (keep : bool) (s : str) : str :=
  let i := rfind s sep in
  if i <? 0 then (if keep then [] else s)
  else drop (Z.to_nat (if keep then i else i + 1)) s.

Definition sqr_distance (a b : list Z) : Z :=
  fold_right Z.add 0 (zip_with (fun x y => (x - y) * (x - y)) a b).

(** The embedding of a text: its length, in a vector of [width] numbers. *)
Definition embed (width : nat) (text : str) : list Z :=
  take width (len text :: replicate (width - 1) 0).

Definition files (path : str) : outcome str :=
  if str_eqb path (lit "empty.txt") then Ok []
  else if str_eqb path (lit "notes.txt")
  then Ok (lit "Leave is 15 days. Ask HR.")
  else Raise (OtherError (lit "No such file or directory")).

#[export] Instance world : World := {|
  Scalar := Z;
  l2_distance := sqr_distance;
  score_le := Z.leb;
  pad_score := 2 ^ 127;
  embeddings_create := fun input =>
    match input with
    | InputText text => Ok [embed 1536 text]
    | InputBatch texts => Ok (map (embed 1536) texts)
    end;
  array_error_detail := fun rows =>
    lit " The requested array has an inhomogeneous shape after 1 dimensions. The detected shape was ("
    ++ str_of_nat (length rows) ++ lit ",) + inhomogeneous part.";
  read_file := files;
  pdf_reader := fun _ => Raise (OtherError (lit "No such file or directory"));
  str_lower := ascii_lower;
  path_suffix := fun p => after_last 46 true (after_last 47 false p);
  path_name := after_last 47 false;
  path_str := fun p => p;
  path_join := fun base name => base ++ lit "/" ++ name;
  path_exists := fun _ => false;
  read_index := fun _ => Raise (OtherError (lit "No such file or directory"));
  read_documents := fun _ => Raise (OtherError (lit "No such file or directory"));
  settings := {| chunk_size := 500; chunk_overlap := 100; top_k_results := 7 |}
|}.

Definition doc (text : str) : Document :=
  {| content := text; source := lit "notes.txt"; chunk_id := 0;
     metadata := {| file_path := lit "notes.txt"; chunk_index := 0;
                    total_chunks := 1 |} |}.

Definition sample_paths : list str :=
  [lit "missing.txt"; lit "notes.txt"; lit "empty.txt"].

(** A store of dimension 2 with three entries. *)
Definition small_store : FAISSVectorStore.t :=
  {| FAISSVectorStore.dimension := 2;
     FAISSVectorStore.index :=
       {| IndexFlatL2.d := 2; IndexFlatL2.xb := [[5; 5]; [1; 0]; [3; 3]] |};
     FAISSVectorStore.documents := [doc (lit "a"); doc (lit "b"); doc (lit "c")] |}.

(** [eval] on the expressions of the tests; anything else is refused. *)
Definition sample_eval (s : str) : outcome str :=
  if str_eqb s (lit "2 + 2") then Ok (lit "4")
  else if str_eqb s (lit "10 * 5") then Ok (lit "50")
  else Raise (OtherError (lit "invalid syntax")).

(** [str(v)] on the values the examples format. *)
Definition sample_format (v : Agent.value) : str :=
  match v with
  | Agent.VStr s => s
  | Agent.VNone => lit "None"
  | Agent.VBool true => lit "True"
  | Agent.VBool false => lit "False"
  | Agent.VFloat text => text
  | _ => Agent.type_name v
  end.

(** A chat endpoint that answers [reply] when it is offered the tools and
    [final] when it is not. *)
Definition agent_world (reply final : str) : Agent.World := {|
  Agent.utcnow_isoformat := fun n => lit "2024-01-10T00:00:0" ++ str_of_nat n;
  Agent.utcnow_strftime := fun n => lit "2024-01-10 00:00:0" ++ str_of_nat n ++ lit " UTC";
  Agent.eval_str := sample_eval;
  Agent.json_loads := Json.loads;
  Agent.format_value := sample_format;
  Agent.str_lower := ascii_lower;
  Agent.chat_completions_create := fun _ tools =>
    Ok {| Agent.response_content := Some (if tools then reply else final);
          Agent.response_tool_calls := [] |};
  Agent.rag_search := fun _ => Ok [doc (lit "Leave is 15 days.")]
|}.

(** An agent with a retrieval system and no history. *)
Definition agent : Agent.AIAgent.t :=
  {| Agent.AIAgent.agent_memory := Agent.AgentMemory.init;
     Agent.AIAgent.rag_system := true;
     Agent.AIAgent.clock := 0 |}.

(** Three messages in session "s", one in session "t". *)
Definition two_sessions : Agent.AgentMemory.t :=
  let say (sid text : string) m :=
    Agent.AgentMemory.add_message m (lit sid) (lit "user") (Some (lit text))
      (lit "2024-01-10T00:00:00") None in
  say "t"%string "other"%string
    (say "s"%string "three"%string
       (say "s"%string "two"%string
          (say "s"%string "one"%string Agent.AgentMemory.init))).

Definition contents (history : list Agent.Message) : list (option str) :=
  map Agent.content history.

End Sample.

(* ===================================================================== *)
(** * The statements under test *)
(* ===================================================================== *)

(** Statements of the specification that the code is checked against, as
    predicates over the inputs they quantify over. *)
Module Stated.
Import Py Rag.

(** The last [n] elements of a list. *)
Definition last_n {A} (n : nat) (l : list A) : list A := drop (length l - n) l.

Definition mismatch : exn :=
  ValueError (lit "Number of documents must match number of embeddings").

Definition no_documents : exn :=
  ValueError (lit "No documents were successfully processed").

(** [add] with lists of different lengths fails with the mismatch error. *)
Definition add_rejects_mismatch `{World} (store : FAISSVectorStore.t)
  (docs : list Document) (embeddings : list Vector) : Prop :=
  length docs <> length embeddings ->
  FAISSVectorStore.add_documents store docs embeddings = Raise mismatch.

(** A read with limit [n >= 0] returns the last [min n m] of the [m]
    messages of the session. *)
Definition read_returns_last (sessions : Agent.AgentMemory.t)
  (session_id : str) (n : Z) : Prop :=
  let history := default [] (sessions !! session_id) in
  Agent.AgentMemory.get_history sessions session_id (Some n)
  = last_n (Z.to_nat (Z.min n (len history))) history.

(** A path is processed successfully when [process_document] returns. *)
Definition processed `{World} (fuel : nat) (path : str) : bool :=
  match DocumentProcessor.process_document fuel path None None with
  | Some (Ok _) => true
  | _ => false
  end.


(** The chunks of the paths that were processed, in the order of the
    paths; a path whose processing raised contributes nothing. *)
Definition chunks_of `{World} (fuel : nat) (paths : list str) : list Document :=
  flat_map (fun path =>
    match DocumentProcessor.process_document fuel path None None with
    | Some (Ok chunks) => chunks
    | _ => []
    end) paths.

(** Results in ascending order of score. *)
Definition ascending `{World} (results : list FAISSVectorStore.SearchResult)
  : Prop :=
  StronglySorted
    (fun a b => score_le (FAISSVectorStore.score a) (FAISSVectorStore.score b) = true)
    results.

(** For the query and [k], [search] returns at most [min(k, count)]
    results, in ascending order of score. *)
Definition returns_ranked `{World} (store : FAISSVectorStore.t)
  (query : Vector) (k : Z) : Prop :=
  exists results,
    FAISSVectorStore.search store query k = Ok results /\
    (length results
     <= Z.to_nat (Z.min k (IndexFlatL2.ntotal (FAISSVectorStore.index store))))%nat /\
    ascending results.

(** The order of distances is a total preorder. *)
Definition total_preorder `{World} : Prop :=
  (forall a b, score_le a b = true \/ score_le b a = true) /\
  (forall a b c, score_le a b = true -> score_le b c = true -> score_le a c = true).

(** Parameters under which every iteration of the loop moves [start]
    forward. *)
Definition progressing (chunk_size chunk_overlap : Z) : Prop :=
  0 <= chunk_overlap < chunk_size /\ 2 * chunk_overlap <= chunk_size + 1.

(** Found pairs in ascending order of distance. *)
Definition by_distance `{World} (a b : Scalar * Z) : Prop :=
  score_le (fst a) (fst b) = true.

(** What the loop of [search] keeps of a found pair. *)
Definition result_of `{World} (docs : list Document) (p : Scalar * Z)
  : option FAISSVectorStore.SearchResult :=
  if snd p <? len docs then
    match docs !! Z.to_nat (snd p) with
    | Some doc => Some {| FAISSVectorStore.document := doc; FAISSVectorStore.score := fst p |}
    | None => None
    end
  else None.

(** The messages of the first completion request of a query: the system
    message and the last ten messages of the session, the query among
    them. *)
Definition first_request `{Agent.World} (self : Agent.AIAgent.t)
  (query session_id : str) : list Agent.ChatMessage :=
  let memory :=
    Agent.AgentMemory.add_message (Agent.AIAgent.agent_memory self) session_id
      (lit "user") (Some query)
      (Agent.utcnow_isoformat (Agent.AIAgent.clock self)) None in
  Agent.Plain (lit "system")
    (Some (Agent.AIAgent.system_prompt
           ++ (if Agent.AIAgent._should_use_rag query
               then Agent.AIAgent.search_hint else [])))
  :: Agent.AgentMemory.get_context_messages memory session_id 10.

(** The messages of the second request of the fallback. *)
Definition second_request `{Agent.World} (self : Agent.AIAgent.t)
  (query session_id original tool_result : str) : list Agent.ChatMessage :=
  first_request self query session_id
  ++ [Agent.Plain (lit "assistant") (Some original);
      Agent.Plain (lit "user")
        (Some (Agent.AIAgent.fallback_instruction tool_result))].

(** The value the text
    [{"name": "search_documents", "arguments": {"query": x}}] stands for. *)
Definition search_call (x : str) : Agent.value :=
  Agent.VDict
    [(lit "name", Agent.VStr (lit "search_documents"));
     (lit "arguments", Agent.VDict [(lit "query", Agent.VStr x)])].

(** The call the fallback recovers from a response text, if any: the
    JSON-like span is found, decodes, and names [search_documents]. *)
Definition recovered `{Agent.World} (original : str) : option Agent.value :=
  match Agent.AIAgent.re_search_json (Agent.AIAgent.clean_content original) with
  | Some json_str =>
      match Agent.json_loads (Agent.AIAgent.fix_quotes json_str) with
      | Ok tool_data =>
          match Agent.AIAgent.recognize tool_data with
          | Ok (Some call) => Some call
          | _ => None
          end
      | Raise _ => None
      end
  | None => None
  end.

(** [r] is what the document-search tool answers on the dict [items] of
    arguments: the text of the search when the agent has a retrieval
    system, a notice that it has none otherwise. *)
Definition search_tool_result `{Agent.World} (rag_system : bool)
  (items : list (str * Agent.value)) (r : str) : Prop :=
  if rag_system
  then Agent.AgentTools.search_documents
         (default (Agent.VStr []) (Agent.lookup_item items (lit "query"))) = Ok r
  else r = lit "Document search is not available. RAG system not initialized.".

Definition tool_runs (events : list Agent.event) : nat :=
  length (List.filter
            (fun ev => match ev with Agent.ToolRun _ _ _ => true | _ => false end)
            events).

Definition completions (events : list Agent.event) : nat :=
  length (List.filter
            (fun ev => match ev with Agent.Completion _ _ => true | _ => false end)
            events).

(** The text [{"name": "search_documents", "arguments": {"query": "x"}}]. *)
Definition literal_call : str :=
  lit "{" ++ [34%N] ++ lit "name" ++ [34%N] ++ lit ": " ++ [34%N]
  ++ lit "search_documents" ++ [34%N] ++ lit ", " ++ [34%N] ++ lit "arguments"
  ++ [34%N] ++ lit ": {" ++ [34%N] ++ lit "query" ++ [34%N] ++ lit ": "
  ++ [34%N] ++ lit "x" ++ [34%N] ++ lit "}}".

(** A first response without structured tool calls whose text contains
    the literal call makes the query run the tool once and ask for a second
    completion. *)
Definition embedded_call_is_run `{Agent.World} (self : Agent.AIAgent.t)
  (query session_id : str) (use_tools : bool) : Prop :=
  forall message original,
    Agent.chat_completions_create (first_request self query session_id) use_tools
      = Ok message ->
    Agent.response_tool_calls message = [] ->
    Agent.response_content message = Some original ->
    contains original literal_call = true ->
    let events := snd (fst (Agent.AIAgent.process_query self query session_id use_tools)) in
    tool_runs events = 1%nat /\ completions events = 2%nat.

Section StatesOfAQuery.
Context `{Agent.World}.
Import Agent Agent.AIAgent.

(** The state in which the [try] of [process_query] starts. *)
Definition before_completion (self : t) (query session_id : str) : state :=
  {| memory :=
       AgentMemory.add_message (agent_memory self) session_id (lit "user")
         (Some query) (utcnow_isoformat (clock self)) None;
     ticks := S (clock self);
     events := [];
     messages := first_request self query session_id;
     sources := [];
     tool_calls_made := [] |}.

(** The state the recognized call leaves behind: the tool has run, the
    call and its source are recorded, and the second completion has been
    requested. *)
Definition after_manual_call (s : state) (original : str)
  (items : list (str * value)) (r : str) : state :=
  let request :=
    (messages s ++ [Plain (lit "assistant") (Some original)])
    ++ [Plain (lit "user") (Some (fallback_instruction r))] in
  {| memory := memory s;
     ticks := ticks s;
     events :=
       (events s ++ [ToolRun (lit "search_documents") (VDict items) r])
       ++ [Completion request false];
     messages := request;
     sources :=
       sources s
       ++ [document_search (default VNone (lookup_item items (lit "query")))];
     tool_calls_made :=
       tool_calls_made s
       ++ [{| tool := lit "search_documents"; arguments := VDict items;
              result := r |}] |}.

End StatesOfAQuery.

(** Runs the steps of a query on a state. *)
Ltac run :=
  repeat (unfold Agent.AIAgent.mbind, Agent.AIAgent.mtry, Agent.AIAgent.get,
            Agent.AIAgent.ret, Agent.AIAgent.lift, Agent.AIAgent.log,
            Agent.AIAgent.tick, Agent.AIAgent.set_memory,
            Agent.AIAgent.set_locals, Agent.AIAgent.add_message,
            Agent.AIAgent.finish, Agent.AIAgent.create_completion;
          cbn [Agent.AIAgent.memory Agent.AIAgent.ticks Agent.AIAgent.events
               Agent.AIAgent.messages Agent.AIAgent.sources
               Agent.AIAgent.tool_calls_made Agent.AIAgent.with_events
               Agent.AIAgent.with_memory Agent.AIAgent.with_ticks
               Agent.AIAgent.with_locals before_completion after_manual_call
               fst snd app Agent.AIAgent.answer Agent.AIAgent.result_sources
               Agent.AIAgent.result_tool_calls]).


End Stated.

(* ===================================================================== *)
(** * Further notions *)
(* ===================================================================== *)

(** Notions used to state what the rest of the two modules does. *)
Module Notions.
Import Py Rag.

(** [piece] occurs in [text] as a run of consecutive characters. *)
Definition occurs_in (piece text : str) : Prop :=
  exists pre post, text = pre ++ piece ++ post.

(** Neither the first nor the last character of [s] is whitespace. *)
Definition trimmed (s : str) : Prop :=
  (forall c r, s = c :: r -> isspace c = false) /\
  (forall r c, s = r ++ [c] -> isspace c = false).

(** The documents and the vectors of a store go in pairs, and every
    vector has the dimension of the index. *)
Definition aligned `{World} (store : FAISSVectorStore.t) : Prop :=
  length (FAISSVectorStore.documents store)
  = length (IndexFlatL2.xb (FAISSVectorStore.index store)) /\
  forallb (IndexFlatL2.has_width (IndexFlatL2.d (FAISSVectorStore.index store)))
    (IndexFlatL2.xb (FAISSVectorStore.index store)) = true.

(** The extensions [process_document] reads. *)
Definition supported (suffix : str) : bool :=
  str_eqb suffix (lit ".pdf") || str_eqb suffix (lit ".txt")
  || str_eqb suffix (lit ".md").

(** The sample world with embeddings of two numbers. *)
Definition narrow_world : World :=
  {| Scalar := Z;
     l2_distance := Sample.sqr_distance;
     score_le := Z.leb;
     pad_score := 2 ^ 127;
     embeddings_create := fun input =>
       match input with
       | InputText text => Ok [Sample.embed 2 text]
       | InputBatch texts => Ok (map (Sample.embed 2) texts)
       end;
     array_error_detail := @array_error_detail Sample.world;
     read_file := Sample.files;
     pdf_reader := @pdf_reader Sample.world;
     str_lower := Sample.ascii_lower;
     path_suffix := @path_suffix Sample.world;
     path_name := @path_name Sample.world;
     path_str := fun p => p;
     path_join := @path_join Sample.world;
     path_exists := fun _ => false;
     read_index := @read_index Sample.world;
     read_documents := @read_documents Sample.world;
     settings := @settings Sample.world |}.

End Notions.

(** Notions used to state what the agent does during a query. *)
Module AgentNotions.
Import Py Agent Agent.AIAgent.

(** Every step [m] takes a state to one related to it by [R]. *)
Definition keeps {A} (R : state -> state -> Prop) (m : M A) : Prop :=
  forall s, R s (fst (m s)).

(** What the steps between the two writes to memory do to the state: the
    memory stays, events are only added, the clock only advances. *)
Definition quiet (s s' : state) : Prop :=
  memory s' = memory s /\
  (exists evs, events s' = events s ++ evs) /\
  (ticks s <= ticks s')%nat.

(** The message [process_query] stores for the query. *)
Definition user_message `{World} (self : t) (query : str) : Message :=
  {| role := lit "user"; content := Some query;
     timestamp := utcnow_isoformat (clock self); metadata := MetaEmpty |}.

(** The metadata of the message stored for the answer: the error flag
    for an error dict, the tool calls and sources of the dict otherwise. *)
Definition reply_metadata (res : QueryResult) : Metadata :=
  match error res with
  | Some _ => MetaError
  | None => MetaAnswer (result_tool_calls res) (result_sources res)
  end.

(** The tool runs among the events, in order, each as the record
    [process_query] keeps of a tool call. *)
Definition run_events (evs : list event) : list ToolCallRecord :=
  omap (fun ev =>
          match ev with
          | ToolRun name args r =>
              Some {| tool := name; arguments := args; result := r |}
          | _ => None
          end) evs.

(** The tool calls recorded so far are the tool runs so far. *)
Definition recorded (s s' : state) : Prop :=
  run_events (events s) = tool_calls_made s ->
  run_events (events s') = tool_calls_made s'.

(** [add_message] called once for each of [msgs], in order, on the
    session [sid]. *)
Definition add_messages (sessions : AgentMemory.t) (sid : str)
  (msgs : list Message) : AgentMemory.t :=
  fold_left (fun sessions msg =>
               AgentMemory.add_message sessions sid (role msg) (content msg)
                 (timestamp msg) (Some (metadata msg)))
    msgs sessions.

(** [{"role": msg["role"], "content": msg["content"]}] *)
Definition plain (msg : Message) : ChatMessage := Plain (role msg) (content msg).

(** A world like the sample one, with the chat endpoint given. *)
Definition chat_world
  (chat : list ChatMessage -> bool -> outcome ChatResponse) : World :=
  {| utcnow_isoformat := @utcnow_isoformat (Sample.agent_world [] []);
     utcnow_strftime := @utcnow_strftime (Sample.agent_world [] []);
     eval_str := Sample.sample_eval;
     json_loads := Json.loads;
     format_value := Sample.sample_format;
     str_lower := Sample.ascii_lower;
     chat_completions_create := chat;
     rag_search := @rag_search (Sample.agent_world [] []) |}.

(** The endpoint cannot be reached. *)
Definition offline : World :=
  chat_world (fun _ _ => Raise (OtherError (lit "Connection error."))).

(** The endpoint asks for the current time, with the given text as the
    arguments of the call, when it is offered the tools, and answers
    [final] when it is not. *)
Definition calling (arguments final : str) : World :=
  chat_world (fun _ tools =>
    Ok (if tools
        then {| response_content := None;
                response_tool_calls :=
                  [{| call_id := lit "call_1";
                      function_name := lit "get_current_time";
                      function_arguments := arguments |}] |}
        else {| response_content := Some final; response_tool_calls := [] |})).

(** The endpoint asks for the current time and then for a calculation,
    with the given text as the arguments of the second call, when it is
    offered the tools, and answers [final] when it is not. *)
Definition calling_twice (arguments final : str) : World :=
  chat_world (fun _ tools =>
    Ok (if tools
        then {| response_content := None;
                response_tool_calls :=
                  [{| call_id := lit "call_1";
                      function_name := lit "get_current_time";
                      function_arguments := lit "{}" |};
                   {| call_id := lit "call_2";
                      function_name := lit "calculate";
                      function_arguments := arguments |}] |}
        else {| response_content := Some final; response_tool_calls := [] |})).

End AgentNotions.

(* ===================================================================== *)
(** * app/main.py *)
(* ===================================================================== *)

(** The handlers of the API, as functions of the two globals [rag_system]
    and [ai_agent] and of the validated request. Logging is left out. *)
Module Main.
Import Py.

(** What is raised inside the [try] of a handler: an [HTTPException], or
    another exception. *)
Inductive raised : Type :=
| Http (status_code : Z) (detail : str)
| Python (e : exn).

(** How a handler ends: it returns a body, or an [HTTPException] leaves
    it. *)
Inductive response (A : Type) : Type :=
| Returned (body : A)
| HTTPException (status_code : Z) (detail : str).
Arguments Returned {A} body.
Arguments HTTPException {A} status_code detail.

(** [str(n)] for an integer. *)
Definition str_of_int (n : Z) : str :=
  if n <? 0 then lit "-" ++ str_of_nat (Z.to_nat (- n))
  else str_of_nat (Z.to_nat n).

(** What the handlers take from FastAPI, pydantic and the file system. *)
Class World `{Rag.World} := {
  (** [str(e)] for an [HTTPException] *)
  http_exception_str : Z -> str -> str;
  (** [rag_system.save_index()]: the directory and the two files are
      written, or the call raises *)
  save_index : Rag.RAGSystem.t -> outcome unit;
  (** [str(e)] for the [ValidationError] of a [QueryResponse] built from
      the dict *)
  validation_error_str : Agent.AIAgent.QueryResult -> str
}.

Section WithWorld.
Context `{RW : Rag.World} `{AW : Agent.World} `{MW : @World RW}.

(** The globals [rag_system] and [ai_agent]; [None] before startup. *)
Record globals := {
  rag_system : option Rag.RAGSystem.t;
  ai_agent : option Agent.AIAgent.t
}.

Record QueryResponse := {
  answer : str;
  sources : list str;
  tool_calls : list Agent.ToolCallRecord;
  session_id : str;
  timestamp : str
}.

Record IngestResponse := {
  status : str;
  total_documents : Z;
  total_chunks : Z;
  message : str
}.

Record HistoryBody := {
  history_session_id : str;
  message_count : Z;
  messages : list Agent.Message
}.

Record SearchBody := {
  query : str;
  results_count : Z;
  results : list Rag.FAISSVectorStore.SearchResult
}.

(** The [QueryResponse] built from the keys of the dict: [answer],
    [session_id] and [timestamp] are required strings. *)
Definition query_response (result : Agent.AIAgent.QueryResult)
  : outcome QueryResponse :=
  match Agent.AIAgent.answer result, Agent.AIAgent.result_timestamp result with
  | Some text, Some stamp =>
      Ok {| answer := text;
            sources := Agent.AIAgent.result_sources result;
            tool_calls := Agent.AIAgent.result_tool_calls result;
            session_id := Agent.AIAgent.session_id result;
            timestamp := stamp |}
  | _, _ => Raise (ValueError (validation_error_str result))
  end.

(** [POST /ask]: the globals afterwards, what the agent did to the
    outside, and the response. *)
Definition ask_question (app : globals) (query session_id : str)
  (use_tools : bool)
  : globals * list Agent.event * response QueryResponse :=
  match ai_agent app with
  | None => (app, [], HTTPException 503 (lit "AI Agent not initialized"))
  | Some agent =>
      let '(agent', events, r) :=
        Agent.AIAgent.process_query agent query session_id use_tools in
      ({| rag_system := rag_system app; ai_agent := Some agent' |}, events,
       match r with
       | Raise e =>
           HTTPException 500 (lit "An unexpected error occurred: " ++ exn_str e)
       | Ok result =>
           match Agent.AIAgent.error result with
           | Some error => HTTPException 500 error
           | None =>
               match query_response result with
               | Ok body => Returned body
               | Raise e =>
                   HTTPException 500
                     (lit "An unexpected error occurred: " ++ exn_str e)
               end
           end
       end)
  end.

(** The two [except] clauses of [POST /ingest]; an [HTTPException] raised
    in the [try] is an [Exception] and meets the second. *)
Definition ingest_failed {A} (r : raised) : response A :=
  match r with
  | Python (ValueError msg) => HTTPException 400 msg
  | Python e =>
      HTTPException 500 (lit "An error occurred during ingestion: " ++ exn_str e)
  | Http status_code detail =>
      HTTPException 500
        (lit "An error occurred during ingestion: "
         ++ http_exception_str status_code detail)
  end.

(** [POST /ingest]: the globals afterwards, the embedding requests, and
    the response; [None] when a chunking loop outlives the fuel. *)
Definition ingest_documents (fuel : nat) (app : globals)
  (document_paths : list str)
  : option (globals * list Rag.embed_input * response IngestResponse) :=
  match rag_system app with
  | None =>
      Some (app, [], ingest_failed (Http 503 (lit "RAG system not initialized")))
  | Some rag =>
      match Rag.RAGSystem.ingest_documents fuel rag document_paths with
      | None => None
      | Some (rag', (calls, r)) =>
          Some
            ({| rag_system := Some rag'; ai_agent := ai_agent app |}, calls,
             match r with
             | Raise e => ingest_failed (Python e)
             | Ok result =>
                 match save_index rag' with
                 | Raise e => ingest_failed (Python e)
                 | Ok _ =>
                     Returned
                       {| status := lit "success";
                          total_documents := Rag.RAGSystem.total_documents result;
                          total_chunks := Rag.RAGSystem.total_chunks result;
                          message :=
                            lit "Successfully ingested "
                            ++ str_of_int (Rag.RAGSystem.total_documents result)
                            ++ lit " documents with "
                            ++ str_of_int (Rag.RAGSystem.total_chunks result)
                            ++ lit " chunks" |}
                 end
             end)
      end
  end.

(** [GET /sessions/{session_id}/history]; the one [except Exception]
    catches the [HTTPException] of the missing agent as well. *)
Definition get_session_history (app : globals) (session_id : str) (limit : Z)
  : response HistoryBody :=
  match ai_agent app with
  | None =>
      HTTPException 500 (http_exception_str 503 (lit "AI Agent not initialized"))
  | Some agent =>
      let history :=
        Agent.AgentMemory.get_history (Agent.AIAgent.agent_memory agent)
          session_id (Some limit) in
      Returned {| history_session_id := session_id;
                  message_count := len history;
                  messages := history |}
  end.

(** [DELETE /sessions/{session_id}]: the globals afterwards and the
    message of the response. *)
Definition clear_session (app : globals) (session_id : str)
  : globals * response str :=
  match ai_agent app with
  | None =>
      (app,
       HTTPException 500 (http_exception_str 503 (lit "AI Agent not initialized")))
  | Some agent =>
      ({| rag_system := rag_system app;
          ai_agent :=
            Some {| Agent.AIAgent.agent_memory :=
                      Agent.AgentMemory.clear_session
                        (Agent.AIAgent.agent_memory agent) session_id;
                    Agent.AIAgent.rag_system := Agent.AIAgent.rag_system agent;
                    Agent.AIAgent.clock := Agent.AIAgent.clock agent |} |},
       Returned (lit "Session " ++ session_id ++ lit " cleared"))
  end.

(** [GET /search]: the embedding requests and the response. *)
Definition search_documents (app : globals) (query : str) (top_k : Z)
  : list Rag.embed_input * response SearchBody :=
  match rag_system app with
  | None => ([], HTTPException 503 (lit "RAG system not initialized"))
  | Some rag =>
      if negb (Rag.RAGSystem.is_initialized rag)
      then ([], HTTPException 400 (lit "No documents have been ingested yet"))
      else
        let '(calls, r) := Rag.RAGSystem.search rag query (Some top_k) in
        (calls,
         match r with
         | Ok found =>
             Returned {| query := query;
                         results_count := len found;
                         results := found |}
         | Raise e => HTTPException 500 (exn_str e)
         end)
  end.

(** [GET /health]: the field [rag_initialized]. *)
Definition rag_initialized (app : globals) : bool :=
  match rag_system app with
  | Some rag => Rag.RAGSystem.is_initialized rag
  | None => false
  end.

End WithWorld.

(** A world for examples: saving succeeds. *)
Definition sample_world : @World Sample.world :=
  {| http_exception_str := fun status_code detail =>
       str_of_int status_code ++ lit ": " ++ detail;
     save_index := fun _ => Ok tt;
     validation_error_str := fun _ =>
       lit "1 validation error for QueryResponse" |}.

End Main.

(* ===================================================================== *)
(** * Construction and startup *)
(* ===================================================================== *)

(** The constructors of [EmbeddingGenerator] (app/rag.py) and [AIAgent]
    (app/agent.py), which choose a provider from the settings, and
    [lifespan] (app/main.py), which builds the two globals. A client is
    the data it was built from. *)
Module Startup.
Import Py.

(** The fields of [settings] the constructors read. *)
Record Credentials := {
  azure_openai_endpoint : option str;
  azure_openai_api_key : option str;
  azure_openai_deployment_name : str;
  azure_openai_api_version : str;
  azure_openai_embedding_endpoint : option str;
  azure_openai_embedding_api_key : option str;
  azure_openai_embedding_deployment : str;
  openai_api_key : option str
}.

(** The truth value of an optional string: [None] and [""] are false. *)
Definition truthy (x : option str) : bool :=
  match x with
  | Some (_ :: _) => true
  | _ => false
  end.

(** [x or y] *)
Definition str_or (x y : option str) : option str :=
  if truthy x then x else y.

Inductive Client : Type :=
| AzureOpenAI (api_key api_version azure_endpoint : str)
| OpenAI (api_key : str).

(** [EmbeddingGenerator.__init__]: [self.client] and [self.model]. *)
Definition embedding_generator_init (settings : Credentials)
  : outcome (Client * str) :=
  let embedding_endpoint :=
    str_or (azure_openai_embedding_endpoint settings)
      (azure_openai_endpoint settings) in
  let embedding_api_key :=
    str_or (azure_openai_embedding_api_key settings)
      (azure_openai_api_key settings) in
  if truthy embedding_api_key && truthy embedding_endpoint then
    Ok (AzureOpenAI (default [] embedding_api_key)
          (azure_openai_api_version settings) (default [] embedding_endpoint),
        azure_openai_embedding_deployment settings)
  else if truthy (openai_api_key settings) then
    Ok (OpenAI (default [] (openai_api_key settings)),
        lit "text-embedding-ada-002")
  else Raise (ValueError (lit "No OpenAI API key configured for embeddings")).

(** [AIAgent.__init__]: [self.client] and [self.model]. *)
Definition ai_agent_init (settings : Credentials) : outcome (Client * str) :=
  if truthy (azure_openai_api_key settings)
     && truthy (azure_openai_endpoint settings) then
    Ok (AzureOpenAI (default [] (azure_openai_api_key settings))
          (azure_openai_api_version settings)
          (default [] (azure_openai_endpoint settings)),
        azure_openai_deployment_name settings)
  else if truthy (openai_api_key settings) then
    Ok (OpenAI (default [] (openai_api_key settings)), lit "gpt-4")
  else Raise (ValueError (lit "No OpenAI API key configured")).

Section WithWorld.
Context `{Rag.World}.

(** The startup part of [lifespan]: [RAGSystem()], [load_index()] and
    [AIAgent(rag_system=rag_system)]; the globals at the [yield], or the
    exception that ends the startup. *)
Definition lifespan (settings : Credentials) : outcome Main.globals :=
  bind (embedding_generator_init settings) (fun _ =>
  let '(rag_system, loaded) :=
    Rag.RAGSystem.load_index Rag.RAGSystem.init (lit "data/embeddings") in
  bind loaded (fun _ =>
  bind (ai_agent_init settings) (fun _ =>
  Ok {| Main.rag_system := Some rag_system;
        Main.ai_agent :=
          Some {| Agent.AIAgent.agent_memory := Agent.AgentMemory.init;
                  Agent.AIAgent.rag_system := true;
                  Agent.AIAgent.clock := 0 |} |}))).

End WithWorld.

(** Settings with an OpenAI key only. *)
Definition openai_only : Credentials :=
  {| azure_openai_endpoint := None;
     azure_openai_api_key := None;
     azure_openai_deployment_name := lit "gpt-4";
     azure_openai_api_version := lit "2024-02-15-preview";
     azure_openai_embedding_endpoint := None;
     azure_openai_embedding_api_key := None;
     azure_openai_embedding_deployment := lit "text-embedding-ada-002";
     openai_api_key := Some (lit "sk-test") |}.

End Startup.

(* ===================================================================== *)
(** * Theory: app/rag.py *)
(* ===================================================================== *)

Module RagTheory.
Import Py Rag Stated.

(** ** Slices *)

Lemma len_nonneg {A} (l : list A) : 0 <= len l.
Proof. unfold len. lia. Qed.


Lemma is_empty_false {A} (l : list A) : is_empty l = false <-> l <> [].
Proof. destruct l; cbn; split; congruence. Qed.

(** ** chunk_text *)

Import DocumentProcessor.

Example chunk_text_sentences :
  chunk_text 10 (lit "One. Two. Three. Four. Five.") 12 2
  = Some [lit "One. Two."; lit "o. Three."; lit "e. Four."; lit "r. Five."].
Proof. vm_compute. reflexivity. Qed.

Example chunk_text_empty (fuel : nat) (chunk_size chunk_overlap : Z) :
  chunk_text fuel [] chunk_size chunk_overlap = Some [].
Proof. reflexivity. Qed.

Lemma chunk_loop_stuck (fuel : nat) (chunks : list str) :
  chunk_loop fuel (lit "ab") 1 1 0 chunks = None.
Proof.
  revert chunks. induction fuel as [|fuel IH]; intros chunks.
  - reflexivity.
  - change (chunk_loop (S fuel) (lit "ab") 1 1 0 chunks)
      with (chunk_loop fuel (lit "ab") 1 1 0 (chunks ++ [lit "a"])).
    apply IH.
Qed.

(** C1 (fails on the code): with [chunk_overlap >= chunk_size] the loop of
    [chunk_text] makes no progress. On the text "ab" with [chunk_size = 1]
    and [chunk_overlap = 1] an iteration at [start = 0] leaves [start] at 0,
    and no number of iterations makes the call return. *)
Theorem chunk_text_overlap_no_progress :
  snd (chunk_step (lit "ab") 1 1 0) = 0 /\
  forall fuel, chunk_text fuel (lit "ab") 1 1 = None.
Proof.
  split; [reflexivity|].
  intros fuel. unfold chunk_text. cbn [lit list_ascii_of_string map].
  change (N_of_ascii "a" :: N_of_ascii "b" :: []) with (lit "ab").
  now rewrite chunk_loop_stuck.
Qed.

Lemma chunk_step_progress (text : str) (chunk_size chunk_overlap start : Z) :
  progressing chunk_size chunk_overlap ->
  start + 1 <= snd (chunk_step text chunk_size chunk_overlap start).
Proof.
  intros [Hov Hhalf]. unfold chunk_step.
  destruct (start + chunk_size <? len text); [|cbn; lia].
  set (break_point := Z.max _ _).
  destruct (Z.ltb_spec chunk_size (2 * break_point)); cbn; lia.
Qed.

Lemma chunk_loop_terminates (text : str) (chunk_size chunk_overlap : Z)
  (fuel : nat) (start : Z) (chunks : list str) :
  progressing chunk_size chunk_overlap ->
  len text - start <= Z.of_nat fuel ->
  exists r, chunk_loop fuel text chunk_size chunk_overlap start chunks = Some r.
Proof.
  intros Hgood. revert start chunks.
  induction fuel as [|fuel IH]; intros start chunks Hfuel; cbn [chunk_loop].
  - destruct (Z.ltb_spec start (len text)); [lia|]. now exists chunks.
  - destruct (Z.ltb_spec start (len text)); [|now exists chunks].
    pose proof (chunk_step_progress text chunk_size chunk_overlap start Hgood) as Hstep.
    destruct (chunk_step text chunk_size chunk_overlap start) as [chunk start'].
    cbn [snd] in Hstep. apply IH. lia.
Qed.

(** With an overlap below the chunk size and at most half of it (rounded
    up), [chunk_text] returns within as many iterations as the text has
    characters. *)
Lemma chunk_text_terminates (text : str) (chunk_size chunk_overlap : Z)
  (fuel : nat) :
  progressing chunk_size chunk_overlap ->
  (length text <= fuel)%nat ->
  exists r, chunk_text fuel text chunk_size chunk_overlap = Some r.
Proof.
  intros Hgood Hfuel. unfold chunk_text.
  destruct text as [|c text]; [now exists []|].
  destruct (chunk_loop_terminates (c :: text) chunk_size chunk_overlap fuel 0 []
              Hgood) as [r Hr].
  { unfold len. lia. }
  rewrite Hr. eexists. reflexivity.
Qed.

(** The case of the repository's test: a hundred sentences, chunks of
    100 characters overlapping by 20. *)
Example chunk_text_test_case :
  exists chunks,
    chunk_text 1600 (concat (replicate 100 (lit "This is a test. "))) 100 20
      = Some chunks /\
    (1 < length chunks)%nat /\
    forallb (fun chunk => len chunk <=? 120) chunks = true.
Proof. eexists. split; [vm_compute; reflexivity|]. split; vm_compute; [lia|reflexivity]. Qed.

(** ** FAISSVectorStore.add_documents *)

Section VectorStore.
Context `{World}.
Import FAISSVectorStore.

Lemma add_documents_empty (store : t) (docs : list Document)
  (embeddings : list Vector) :
  docs = [] \/ embeddings = [] -> add_documents store docs embeddings = Ok store.
Proof.
  intros [-> | ->]; unfold add_documents; [reflexivity|].
  now rewrite orb_true_r.
Qed.

Lemma add_documents_mismatch (store : t) (docs : list Document)
  (embeddings : list Vector) :
  docs <> [] -> embeddings <> [] -> length docs <> length embeddings ->
  add_documents store docs embeddings = Raise mismatch.
Proof.
  intros Hd He Hlen. unfold add_documents.
  apply is_empty_false in Hd, He. rewrite Hd, He. cbn [orb].
  destruct (Z.eqb_spec (len docs) (len embeddings)) as [Heq|]; [|reflexivity].
  unfold len in Heq. lia.
Qed.

Lemma np_array_ok (rows rows' : list Vector) :
  np_array rows = Ok rows' -> rows' = rows.
Proof.
  destruct rows as [|row rest]; cbn [np_array]; [now intros [= <-]|].
  destruct (forallb _ rest); [now intros [= <-]|discriminate].
Qed.

Lemma np_array_width (w : Z) (rows : list Vector) :
  forallb (IndexFlatL2.has_width w) rows = true -> np_array rows = Ok rows.
Proof.
  destruct rows as [|row rest]; [reflexivity|].
  cbn [forallb np_array]. intros Hw. apply andb_prop in Hw as [Hrow Hrest].
  unfold IndexFlatL2.has_width in Hrow. apply Z.eqb_eq in Hrow.
  rewrite Hrow. unfold IndexFlatL2.has_width in Hrest. now rewrite Hrest.
Qed.

Lemma add_documents_appends (store : t) (docs : list Document)
  (embeddings : list Vector) :
  docs <> [] -> length docs = length embeddings ->
  forallb (IndexFlatL2.has_width (IndexFlatL2.d (index store))) embeddings = true ->
  add_documents store docs embeddings
  = Ok {| dimension := dimension store;
          index := {| IndexFlatL2.d := IndexFlatL2.d (index store);
                      IndexFlatL2.xb := IndexFlatL2.xb (index store) ++ embeddings |};
          documents := documents store ++ docs |}.
Proof.
  intros Hd Hlen Hw. unfold add_documents.
  assert (He : embeddings <> []) by (destruct docs, embeddings; cbn in *; congruence).
  apply is_empty_false in Hd, He. rewrite Hd, He. cbn [orb].
  unfold len. rewrite Hlen, Z.eqb_refl. cbn [negb].
  rewrite (np_array_width _ _ Hw). cbn [bind].
  unfold IndexFlatL2.add. now rewrite Hw.
Qed.

(** C2 (as amended): [add_documents] does nothing when either list is
    empty; with two non-empty lists of different lengths it raises the
    mismatch error; with lists of equal length whose vectors all have the
    dimension of the index it appends the documents and the vectors at the
    end, in their order, so that entries that were aligned stay aligned. *)
Theorem add_documents_contract (store : t) (docs : list Document)
  (embeddings : list Vector) :
  (docs = [] \/ embeddings = [] ->
   add_documents store docs embeddings = Ok store) /\
  (docs <> [] -> embeddings <> [] -> length docs <> length embeddings ->
   add_documents store docs embeddings = Raise mismatch) /\
  (docs <> [] -> length docs = length embeddings ->
   forallb (IndexFlatL2.has_width (IndexFlatL2.d (index store))) embeddings = true ->
   exists store',
     add_documents store docs embeddings = Ok store' /\
     documents store' = documents store ++ docs /\
     IndexFlatL2.xb (index store') = IndexFlatL2.xb (index store) ++ embeddings /\
     (length (documents store) = length (IndexFlatL2.xb (index store)) ->
      zip (documents store') (IndexFlatL2.xb (index store'))
      = zip (documents store) (IndexFlatL2.xb (index store)) ++ zip docs embeddings)).
Proof.
  split; [apply add_documents_empty|].
  split; [apply add_documents_mismatch|].
  intros Hd Hlen Hw. eexists. split; [now apply add_documents_appends|].
  cbn [documents index IndexFlatL2.xb]. repeat split. intros Hal.
  now apply zip_with_app.
Qed.

End VectorStore.

(** The three cases of C2, in the sample world. *)
Lemma add_documents_contract_witness :
  FAISSVectorStore.add_documents Sample.small_store [] [[1; 2]]
    = Ok Sample.small_store /\
  FAISSVectorStore.add_documents Sample.small_store
    [Sample.doc (lit "d"); Sample.doc (lit "e")] [[1; 2]] = Raise mismatch /\
  exists store',
    FAISSVectorStore.add_documents Sample.small_store [Sample.doc (lit "d")] [[1; 2]]
      = Ok store' /\
    FAISSVectorStore.documents store'
      = FAISSVectorStore.documents Sample.small_store ++ [Sample.doc (lit "d")].
Proof.
  pose proof (add_documents_contract Sample.small_store [] [[1; 2]])
    as (Hnoop & _ & _).
  pose proof (add_documents_contract Sample.small_store
                [Sample.doc (lit "d"); Sample.doc (lit "e")] [[1; 2]])
    as (_ & Hbad & _).
  pose proof (add_documents_contract Sample.small_store
                [Sample.doc (lit "d")] [[1; 2]])
    as (_ & _ & Hgood).
  split; [apply Hnoop; now left|].
  split; [apply Hbad; cbn; congruence|].
  destruct Hgood as (store' & Hadd & Hdocs & _); [congruence|reflexivity|reflexivity|].
  exists store'. split; assumption.
Defined.

(** C2 (as stated, refuted): with no documents and one vector the lengths
    differ, and [add_documents] returns without an error. *)
Lemma add_documents_one_empty :
  ~ add_rejects_mismatch Sample.small_store [] [[1; 2]].
Proof.
  intros Hclaim. specialize (Hclaim ltac:(cbn; congruence)). discriminate Hclaim.
Qed.

(** ** IndexFlatL2.search and FAISSVectorStore.search *)

Section Search.
Context `{World}.
Import IndexFlatL2 FAISSVectorStore.

Lemma insert_by_score_length (x : Scalar * Z) (l : list (Scalar * Z)) :
  length (insert_by_score x l) = S (length l).
Proof.
  induction l as [|y l IH]; cbn; [reflexivity|].
  destruct (score_le (fst x) (fst y)); cbn; congruence.
Qed.

Lemma insert_by_score_Forall (P : Scalar * Z -> Prop) (x : Scalar * Z)
  (l : list (Scalar * Z)) :
  P x -> Forall P l -> Forall P (insert_by_score x l).
Proof.
  intros Hx Hl. induction Hl as [|y l Hy Hl IH]; cbn.
  - now constructor.
  - destruct (score_le (fst x) (fst y)); repeat constructor; assumption.
Qed.

Lemma insert_by_score_sorted (x : Scalar * Z) (l : list (Scalar * Z)) :
  total_preorder ->
  StronglySorted by_distance l -> StronglySorted by_distance (insert_by_score x l).
Proof.
  intros [Htotal Htrans] Hl. induction Hl as [|y l Hl IH Hy]; cbn.
  - repeat constructor.
  - destruct (score_le (fst x) (fst y)) eqn:Hxy.
    + constructor; [now constructor|].
      constructor; [exact Hxy|].
      eapply Forall_impl; [exact Hy|].
      intros z Hyz. eapply Htrans; eassumption.
    + constructor; [exact IH|].
      apply insert_by_score_Forall; [|exact Hy].
      destruct (Htotal (fst x) (fst y)) as [Hle|Hle]; [congruence|exact Hle].
Qed.

Lemma ranked_from_length (i : Z) (query : Vector) (vectors : list Vector) :
  length (ranked_from i query vectors) = length vectors.
Proof.
  revert i. induction vectors as [|v vs IH]; intros i; cbn; [reflexivity|].
  now rewrite insert_by_score_length, IH.
Qed.

Lemma ranked_from_positions (i : Z) (query : Vector) (vectors : list Vector) :
  0 <= i -> Forall (fun p => 0 <= snd p) (ranked_from i query vectors).
Proof.
  revert i. induction vectors as [|v vs IH]; intros i Hi; cbn; [constructor|].
  apply insert_by_score_Forall; [exact Hi|]. apply IH. lia.
Qed.

Lemma ranked_from_sorted (i : Z) (query : Vector) (vectors : list Vector) :
  total_preorder -> StronglySorted by_distance (ranked_from i query vectors).
Proof.
  intros Hord. revert i. induction vectors as [|v vs IH]; intros i; cbn.
  - constructor.
  - now apply insert_by_score_sorted.
Qed.

Lemma take_sorted {A} (R : A -> A -> Prop) (n : nat) (l : list A) :
  StronglySorted R l -> StronglySorted R (take n l).
Proof.
  intros Hl. revert n. induction Hl as [|x l Hl IH Hx]; intros [|n]; cbn;
    try constructor.
  - apply IH.
  - apply Forall_take. exact Hx.
Qed.

Lemma collect_results_spec (docs : list Document) (found : list (Scalar * Z))
  (results : list SearchResult) :
  Forall (fun p => 0 <= snd p) found ->
  collect_results docs found results = Ok (results ++ omap (result_of docs) found).
Proof.
  intros Hpos. revert results.
  induction Hpos as [|[distance idx] found Hidx Hpos IH]; intros results; cbn.
  - now rewrite app_nil_r.
  - cbn in Hidx. unfold result_of at 1. cbn [fst snd].
    destruct (Z.ltb_spec idx (len docs)) as [Hin|Hout]; [|apply IH].
    unfold getitem.
    destruct (Z.ltb_spec idx 0) as [|_]; [lia|].
    destruct (Z.ltb_spec idx 0) as [|_]; [lia|].
    destruct (docs !! Z.to_nat idx) as [doc|] eqn:Hdoc.
    + cbn. rewrite IH. now rewrite <- app_assoc.
    + apply lookup_ge_None in Hdoc. unfold len in Hin. lia.
Qed.

Lemma omap_result_length (docs : list Document) (found : list (Scalar * Z)) :
  (length (omap (result_of docs) found) <= length found)%nat.
Proof.
  induction found as [|p found IH]; cbn; [lia|].
  destruct (result_of docs p); cbn; lia.
Qed.

Lemma result_of_score (docs : list Document) (p : Scalar * Z) (r : SearchResult) :
  result_of docs p = Some r -> score r = fst p.
Proof.
  unfold result_of. destruct (snd p <? len docs); [|discriminate].
  destruct (docs !! Z.to_nat (snd p)); [|discriminate].
  now intros [= <-].
Qed.

Lemma omap_result_sorted (docs : list Document) (found : list (Scalar * Z)) :
  StronglySorted by_distance found -> ascending (omap (result_of docs) found).
Proof.
  unfold ascending.
  intros Hs. induction Hs as [|p found Hs IH Hp]; cbn; [constructor|].
  destruct (result_of docs p) as [r|] eqn:Hr; [|exact IH].
  constructor; [exact IH|].
  apply result_of_score in Hr.
  clear IH Hs. induction Hp as [|q found Hq Hp IH]; cbn; [constructor|].
  destruct (result_of docs q) as [r'|] eqn:Hr'; [|exact IH].
  constructor; [|exact IH].
  apply result_of_score in Hr'. unfold by_distance in Hq. now rewrite Hr, Hr'.
Qed.

(** [search] on an index that holds entries, for a query of the right
    width and a positive [top_k]. *)
Lemma search_spec (store : t) (query : Vector) (top_k : Z) :
  ntotal (index store) <> 0 ->
  has_width (d (index store)) query = true ->
  0 < top_k ->
  search store query top_k
  = Ok (omap (result_of (documents store))
          (take (Z.to_nat (Z.min top_k (ntotal (index store))))
             (ranked_from 0 query (xb (index store))))).
Proof.
  intros Hn Hw Hk. unfold search, IndexFlatL2.search.
  destruct (Z.eqb_spec (ntotal (index store)) 0) as [|_]; [contradiction|].
  rewrite Hw. cbn [negb].
  pose proof (len_nonneg (xb (index store))) as Hlen. fold (ntotal (index store)) in Hlen.
  destruct (Z.leb_spec (Z.min top_k (ntotal (index store))) 0) as [|_]; [lia|].
  cbn [bind].
  replace (Z.to_nat (Z.min top_k (ntotal (index store)) - ntotal (index store)))
    with 0%nat by lia.
  cbn [replicate]. rewrite app_nil_r.
  rewrite collect_results_spec; [reflexivity|].
  apply Forall_take. now apply ranked_from_positions.
Qed.

(** C7 (as amended): [search] on an index without entries returns the
    empty list, whatever the query and [top_k]. For every positive [top_k]
    and every query of the dimension of the index it returns; the results
    it returns are at most [min(top_k, ntotal)] and in ascending order of
    score, the order of distances being a total preorder. On an index that
    holds entries, a [top_k] that is not positive or a query of another
    dimension makes it raise the assertion of the index. *)
Theorem search_ranked (store : t) (query : Vector) (top_k : Z) :
  total_preorder ->
  (ntotal (index store) = 0 -> search store query top_k = Ok []) /\
  (forall results, search store query top_k = Ok results ->
     (length results <= Z.to_nat (Z.min top_k (ntotal (index store))))%nat /\
     ascending results) /\
  (0 < top_k -> has_width (d (index store)) query = true ->
   exists results, search store query top_k = Ok results) /\
  (ntotal (index store) <> 0 ->
   top_k <= 0 \/ has_width (d (index store)) query = false ->
   search store query top_k = Raise assertion_error).
Proof.
  intros Hord. split; [|split; [|split]]; cycle 3.
  { intros Hn Hbad. unfold search, IndexFlatL2.search.
    destruct (Z.eqb_spec (ntotal (index store)) 0) as [|_]; [contradiction|].
    destruct (has_width (d (index store)) query); cbn [negb bind];
      [|reflexivity].
    destruct Hbad as [Hk|Hw]; [|discriminate Hw].
    destruct (Z.leb_spec (Z.min top_k (ntotal (index store))) 0) as [|Hpos];
      [reflexivity|lia]. }
  - intros Hn. unfold search. now rewrite Hn.
  - intros results Hres.
    destruct (Z.eq_dec (ntotal (index store)) 0) as [Hn|Hn].
    + unfold search in Hres. rewrite Hn in Hres. cbn in Hres.
      injection Hres as <-. split; [cbn; lia|constructor].
    + destruct (has_width (d (index store)) query) eqn:Hw;
        [|unfold search, IndexFlatL2.search in Hres;
          destruct (Z.eqb_spec (ntotal (index store)) 0); [contradiction|];
          rewrite Hw in Hres; discriminate].
      destruct (Z.lt_ge_cases 0 top_k) as [Hk|Hk].
      * rewrite search_spec in Hres by assumption. injection Hres as <-.
        split.
        -- etransitivity; [apply omap_result_length|].
           rewrite length_take, ranked_from_length.
           unfold ntotal, len. lia.
        -- apply omap_result_sorted, take_sorted. now apply ranked_from_sorted.
      * unfold search, IndexFlatL2.search in Hres.
        destruct (Z.eqb_spec (ntotal (index store)) 0); [contradiction|].
        rewrite Hw in Hres. cbn [negb] in Hres.
        destruct (Z.leb_spec (Z.min top_k (ntotal (index store))) 0); [discriminate|lia].
  - intros Hk Hw.
    destruct (Z.eq_dec (ntotal (index store)) 0) as [Hn|Hn].
    + exists []. unfold search. now rewrite Hn.
    + eexists. now apply search_spec.
Qed.

End Search.

Lemma sample_total_preorder : @total_preorder Sample.world.
Proof.
  split; cbn; intros; rewrite ?Z.leb_le in *; lia.
Qed.

Example search_nearest_first :
  option_map (map (fun r => (content (FAISSVectorStore.document r),
                             FAISSVectorStore.score r)))
    (match FAISSVectorStore.search Sample.small_store [0; 0] 2 with
     | Ok results => Some results
     | Raise _ => None
     end)
  = Some [(lit "b", 1); (lit "c", 18)].
Proof. vm_compute. reflexivity. Qed.

(** C7 in the sample world: the three entries of [small_store], asked for
    the two nearest to the origin. *)
Lemma search_ranked_witness :
  exists results,
    FAISSVectorStore.search Sample.small_store [0; 0] 2 = Ok results /\
    (length results <= 2)%nat /\ ascending results.
Proof.
  destruct (search_ranked Sample.small_store [0; 0] 2 sample_total_preorder)
    as (_ & Hbound & Hreturns & _).
  destruct Hreturns as [results Hres]; [lia|reflexivity|].
  exists results. split; [exact Hres|]. exact (Hbound results Hres).
Defined.

(** C7 (as stated, refuted): asked for [k = 0] results, the store of three
    entries returns no list: the index refuses a [k] that is not
    positive. *)
Lemma search_zero_results :
  ~ returns_ranked Sample.small_store [0; 0] 0.
Proof.
  intros (results & Hres & _). vm_compute in Hres. discriminate Hres.
Qed.

(** ** RAGSystem.ingest_documents *)

Section Ingest.
Context `{World}.
Import RAGSystem.

Lemma process_all_spec (fuel : nat) (paths : list str)
  (acc all_documents : list Document) :
  process_all fuel paths acc = Some all_documents ->
  all_documents = acc ++ chunks_of fuel paths.
Proof.
  revert acc. induction paths as [|path paths IH]; intros acc; cbn.
  - intros [= <-]. now rewrite app_nil_r.
  - destruct (DocumentProcessor.process_document fuel path None None)
      as [[chunks|e]|]; [| |discriminate]; intros Hall; apply IH in Hall.
    + now rewrite Hall, app_assoc.
    + exact Hall.
Qed.

Lemma chunks_of_nonempty (fuel : nat) (paths : list str) :
  chunks_of fuel paths <> [] ->
  exists path, In path paths /\ processed fuel path = true.
Proof.
  induction paths as [|path paths IH]; cbn; [congruence|].
  intros Hne.
  destruct (DocumentProcessor.process_document fuel path None None)
    as [[chunks|e]|] eqn:E.
  - exists path. split; [now left|]. unfold processed. now rewrite E.
  - destruct (IH Hne) as (p & Hin & Hp). exists p. split; [now right|exact Hp].
  - destruct (IH Hne) as (p & Hin & Hp). exists p. split; [now right|exact Hp].
Qed.




(** A failed ingestion leaves the system as it was. *)
Lemma ingest_documents_raise_unchanged (fuel : nat) (rag rag' : t)
  (paths : list str) (calls : list embed_input) (e : exn) :
  ingest_documents fuel rag paths = Some (rag', (calls, Raise e)) -> rag' = rag.
Proof.
  unfold ingest_documents.
  destruct (process_all fuel paths []) as [all_documents|]; [|discriminate].
  destruct (is_empty all_documents); [now intros [= <- _ _]|].
  destruct (EmbeddingGenerator.generate_embeddings _) as [calls' [embeddings|e']];
    [|now intros [= <- _ _]].
  destruct (FAISSVectorStore.add_documents _ _ _); [discriminate|].
  now intros [= <- _ _].
Qed.

Lemma ingest_documents_ok (fuel : nat) (rag rag' : t) (paths : list str)
  (calls : list embed_input) (res : IngestResult) :
  ingest_documents fuel rag paths = Some (rag', (calls, Ok res)) ->
  exists all_documents,
    process_all fuel paths [] = Some all_documents /\
    all_documents <> [] /\
    res = {| total_documents := len paths;
             total_chunks := len all_documents;
             status := lit "success" |} /\
    is_initialized rag' = true.
Proof.
  unfold ingest_documents.
  destruct (process_all fuel paths []) as [all_documents|]; [|discriminate].
  destruct (is_empty all_documents) eqn:Hempty; [discriminate|].
  destruct (EmbeddingGenerator.generate_embeddings _) as [calls' [embeddings|e']];
    [|discriminate].
  destruct (FAISSVectorStore.add_documents _ _ _); [|discriminate].
  intros [= <- _ <-]. exists all_documents.
  apply is_empty_false in Hempty. repeat split; assumption.
Qed.




(** C10: whenever [ingest_documents] returns a result, its
    [total_documents] is the number of paths given, whether they were
    processed or skipped; some path was processed, and [total_chunks]
    counts the chunks of the processed paths. *)
Theorem total_documents_counts_paths (fuel : nat) (rag rag' : t)
  (paths : list str) (calls : list embed_input) (res : IngestResult) :
  ingest_documents fuel rag paths = Some (rag', (calls, Ok res)) ->
  total_documents res = len paths /\
  total_chunks res = len (chunks_of fuel paths) /\
  exists path, In path paths /\ processed fuel path = true.
Proof.
  intros Hres. apply ingest_documents_ok in Hres.
  destruct Hres as (all_documents & Hall & Hne & -> & _).
  apply process_all_spec in Hall. cbn [app] in Hall. subst all_documents.
  repeat split. now apply chunks_of_nonempty.
Qed.

End Ingest.

(** ** RAGSystem.search before the system is ready *)

Section NotReady.
Context `{World}.
Import RAGSystem Reach.

Lemma load_index_not_loaded (rag rag' : t) (base_path : str) (r : outcome bool) :
  load_index rag base_path = (rag', r) -> r <> Ok true ->
  is_initialized rag' = is_initialized rag.
Proof.
  unfold load_index.
  destruct (FAISSVectorStore.load _ _ _) as [store' [[|]|e]];
    intros [= <- <-]; [congruence|reflexivity|reflexivity].
Qed.

(** Until an ingestion or a load succeeds the flag stays down. *)
Lemma not_ready_flag (rag : t) : not_ready rag -> is_initialized rag = false.
Proof.
  induction 1 as [|rag rag' fuel paths calls e _ IH Hrun
                  |rag rag' base_path r _ IH Hload Hr].
  - reflexivity.
  - apply ingest_documents_raise_unchanged in Hrun. now subst rag'.
  - now rewrite (load_index_not_loaded _ _ _ _ Hload Hr).
Qed.

(** C8: as long as no ingestion and no index load has succeeded, [search]
    returns the empty list, for every query and [top_k], without an
    exception and without a request to the embedding endpoint. *)
Theorem search_not_ready (rag : t) (query : str) (top_k : option Z) :
  not_ready rag -> search rag query top_k = ([], Ok []).
Proof.
  intros Hrag. unfold search. now rewrite (not_ready_flag rag Hrag).
Qed.

End NotReady.

#[local] Existing Instance Sample.world.



Lemma run_of_outcome {A B C} (run : option (A * (B * outcome C))) (res : C) :
  option_map (fun r => snd (snd r)) run = Some (Ok res) ->
  exists a b, run = Some (a, (b, Ok res)).
Proof.
  destruct run as [[a [b o]]|]; cbn; [|discriminate].
  intros [= ->]. now exists a, b.
Qed.

(** C10 in the sample world: three paths, one processed to a chunk. *)
Lemma total_documents_counts_paths_witness :
  exists res,
    option_map (fun r => snd (snd r))
      (RAGSystem.ingest_documents 5 RAGSystem.init Sample.sample_paths)
      = Some (Ok res) /\
    RAGSystem.total_documents res = 3 /\
    RAGSystem.total_chunks res = 1.
Proof.
  exists {| RAGSystem.total_documents := 3; RAGSystem.total_chunks := 1;
            RAGSystem.status := lit "success" |}.
  assert (Hsmall :
    option_map (fun r => snd (snd r))
      (RAGSystem.ingest_documents 5 RAGSystem.init Sample.sample_paths)
    = Some (Ok {| RAGSystem.total_documents := 3; RAGSystem.total_chunks := 1;
                  RAGSystem.status := lit "success" |}))
    by (vm_compute; reflexivity).
  split; [exact Hsmall|].
  destruct (run_of_outcome _ _ Hsmall) as (rag' & calls & Hrun).
  destruct (total_documents_counts_paths 5 RAGSystem.init rag' Sample.sample_paths
              calls _ Hrun) as (Hdocs & Hchunks & _).
  split; [exact Hdocs|reflexivity].
Defined.

(** C8 in the sample world: a fresh system, and the same system after an
    ingestion that failed. *)
Lemma search_not_ready_witness :
  RAGSystem.search RAGSystem.init (lit "leave") (Some 3) = ([], Ok []) /\
  exists rag',
    RAGSystem.ingest_documents 5 RAGSystem.init [lit "missing.txt"]
      = Some (rag', ([], Raise no_documents)) /\
    RAGSystem.search rag' (lit "leave") None = ([], Ok []).
Proof.
  split.
  - apply search_not_ready. constructor.
  - exists RAGSystem.init. split; [vm_compute; reflexivity|].
    apply search_not_ready.
    apply (Reach.failed_ingest RAGSystem.init RAGSystem.init 5
             [lit "missing.txt"] [] no_documents); [constructor|].
    vm_compute. reflexivity.
Defined.

End RagTheory.

(* ===================================================================== *)
(** * Theory: app/agent.py *)
(* ===================================================================== *)

Module AgentTheory.
Import Py Agent Stated.

(** ** AgentMemory *)

Section Memory.
Import AgentMemory.

Lemma slice_from_nil {A} (lo : Z) : slice_from (@nil A) lo = [].
Proof. unfold slice_from. now rewrite drop_nil. Qed.

(** The last [n] messages, for a positive limit. *)
Lemma slice_from_last {A} (l : list A) (n : Z) :
  0 < n -> slice_from l (- n) = last_n (Z.to_nat (Z.min n (len l))) l.
Proof.
  intros Hn. unfold slice_from, last_n, adjust_index, len.
  destruct (Z.ltb_spec (- n) 0); [|lia].
  f_equal. lia.
Qed.

Lemma history_add_message (sessions : t) (session_id role : str)
  (content : option str) (now : str) (metadata : option Metadata) :
  default [] (add_message sessions session_id role content now metadata !! session_id)
  = default [] (sessions !! session_id)
    ++ [{| role := role; content := content; timestamp := now;
           metadata := match metadata with Some m => m | None => MetaEmpty end |}].
Proof.
  unfold add_message. rewrite lookup_insert_eq. cbn.
  destruct (sessions !! session_id) eqn:E; [now rewrite E|].
  now rewrite lookup_insert_eq.
Qed.

Lemma lookup_add_message_other (sessions : t) (a b role : str)
  (content : option str) (now : str) (metadata : option Metadata) :
  a <> b ->
  add_message sessions a role content now metadata !! b = sessions !! b.
Proof.
  intros Hab. unfold add_message. rewrite lookup_insert_ne by exact Hab.
  destruct (sessions !! a); [reflexivity|]. now rewrite lookup_insert_ne.
Qed.

Lemma lookup_clear_session (sessions : t) (a : str) :
  clear_session sessions a !! a = None.
Proof.
  unfold clear_session. destruct (sessions !! a) eqn:E; [|exact E].
  apply lookup_delete_eq.
Qed.

Lemma lookup_clear_session_other (sessions : t) (a b : str) :
  a <> b -> clear_session sessions a !! b = sessions !! b.
Proof.
  intros Hab. unfold clear_session. destruct (sessions !! a); [|reflexivity].
  now apply lookup_delete_ne.
Qed.

Lemma get_history_lookup (s1 s2 : t) (a b : str) (limit : option Z) :
  s1 !! a = s2 !! b -> get_history s1 a limit = get_history s2 b limit.
Proof. intros E. unfold get_history. now rewrite E. Qed.

(** C3 (as amended): for a positive limit [n], [get_history] returns the
    last [min n m] of the [m] messages of the session, in their order;
    for the limit 0, as without a limit, it returns the whole history. *)
Theorem get_history_window (sessions : t) (session_id : str) (n : Z) :
  let history := default [] (sessions !! session_id) in
  (0 < n ->
   get_history sessions session_id (Some n)
   = last_n (Z.to_nat (Z.min n (len history))) history) /\
  get_history sessions session_id (Some 0) = history /\
  get_history sessions session_id None = history.
Proof.
  intros history. split; [|split; reflexivity].
  intros Hn. unfold get_history. fold history.
  destruct (Z.eqb_spec n 0); [lia|]. now apply slice_from_last.
Qed.

(** C9: a message added to one session leaves the history read from any
    other session as it was; after a session is cleared its history reads
    empty, and the history of any other session reads as before. *)
Theorem sessions_isolated (sessions : t) (a b role : str)
  (content : option str) (now : str) (metadata : option Metadata)
  (limit : option Z) :
  a <> b ->
  get_history (add_message sessions a role content now metadata) b limit
    = get_history sessions b limit /\
  get_history (clear_session sessions a) a limit = [] /\
  get_history (clear_session sessions a) b limit = get_history sessions b limit.
Proof.
  intros Hab. split; [|split].
  - apply get_history_lookup. now apply lookup_add_message_other.
  - unfold get_history. rewrite lookup_clear_session. cbn.
    destruct limit as [n|]; [|reflexivity].
    destruct (n =? 0); [reflexivity|apply slice_from_nil].
  - apply get_history_lookup. now apply lookup_clear_session_other.
Qed.

End Memory.

(** ** AgentTools.calculate *)

Section Tools.
Context `{World}.
Import AgentTools.

(** The characters [calculate] lets through: the digits,
    [+ - * / . ( )] and the space. *)
Lemma allowed_spec (c : N) :
  allowed c = true <->
  ((48 <= c <= 57) \/ c = 43 \/ c = 45 \/ c = 42 \/ c = 47 \/ c = 46
   \/ c = 40 \/ c = 41 \/ c = 32)%N.
Proof.
  unfold allowed. rewrite bool_decide_eq_true.
  change allowed_chars
    with [48; 49; 50; 51; 52; 53; 54; 55; 56; 57; 43; 45; 42; 47; 46; 40; 41; 32]%N.
  rewrite !elem_of_cons, elem_of_nil. lia.
Qed.

Lemma forallb_allowed_false (s : str) (c : N) :
  c ∈ s -> allowed c = false -> forallb allowed s = false.
Proof.
  intros Hin Hc. induction Hin as [c s|c d s Hin IH]; cbn.
  - now rewrite Hc.
  - now rewrite IH, andb_false_r.
Qed.

Lemma calculate_returns (expression : value) :
  exists result, snd (calculate expression) = Ok result.
Proof.
  unfold calculate. destruct (calculate_body expression) as [evaluated [r|e]];
    cbn; eexists; reflexivity.
Qed.

(** C5: an expression with a character other than a digit,
    [+ - * / . ( )] or the space makes [calculate] return the string
    "Error: Invalid characters in expression" with nothing handed to
    [eval]; and for every argument [calculate] returns a string and
    raises nothing. *)
Theorem calculate_guarded :
  (forall (s : str) (c : N),
     c ∈ s ->
     ~ ((48 <= c <= 57) \/ c = 43 \/ c = 45 \/ c = 42 \/ c = 47 \/ c = 46
        \/ c = 40 \/ c = 41 \/ c = 32)%N ->
     calculate (VStr s) = ([], Ok invalid_characters)) /\
  (forall expression : value,
     exists result, snd (calculate expression) = Ok result).
Proof.
  split; [|exact calculate_returns].
  intros s c Hin Hbad. unfold calculate, calculate_body.
  rewrite (forallb_allowed_false s c Hin); [reflexivity|].
  destruct (allowed c) eqn:Hc; [|reflexivity].
  apply allowed_spec in Hc. contradiction.
Qed.

(** With only allowed characters the expression goes to [eval], and what
    [eval] raises comes back as an error string. *)
Lemma calculate_evaluates (s : str) :
  forallb allowed s = true ->
  calculate (VStr s)
  = ([VStr s],
     match eval_str s with
     | Ok r => Ok r
     | Raise e => Ok (lit "Error: " ++ exn_str e)
     end).
Proof.
  intros Hs. unfold calculate, calculate_body. rewrite Hs. cbn.
  now destruct (eval_str s).
Qed.

End Tools.

Example calculate_test_cases :
  let W := Sample.agent_world [] [] in
  @AgentTools.calculate W (VStr (lit "2 + 2")) = ([VStr (lit "2 + 2")], Ok (lit "4")) /\
  @AgentTools.calculate W (VStr (lit "10 * 5")) = ([VStr (lit "10 * 5")], Ok (lit "50")).
Proof. split; vm_compute; reflexivity. Qed.

(** C5 on the input of the test, "import os", and on an argument that is
    not a string. *)
Lemma calculate_guarded_witness :
  let W := Sample.agent_world [] [] in
  @AgentTools.calculate W (VStr (lit "import os"))
    = ([], Ok AgentTools.invalid_characters) /\
  exists result, snd (@AgentTools.calculate W (VInt 7)) = Ok result.
Proof.
  intros W. destruct (@calculate_guarded W) as [Hbad Hreturns]. split.
  - apply (Hbad (lit "import os") 105%N).
    + vm_compute. constructor.
    + lia.
  - apply Hreturns.
Defined.

Example get_history_last_two :
  Sample.contents (AgentMemory.get_history Sample.two_sessions (lit "s") (Some 2))
  = [Some (lit "two"); Some (lit "three")].
Proof. vm_compute. reflexivity. Qed.

(** C3 at the limits 2 and 5 of a session of three messages. *)
Lemma get_history_window_witness :
  AgentMemory.get_history Sample.two_sessions (lit "s") (Some 2)
    = last_n 2 (default [] (Sample.two_sessions !! lit "s")) /\
  AgentMemory.get_history Sample.two_sessions (lit "s") (Some 5)
    = default [] (Sample.two_sessions !! lit "s").
Proof.
  split.
  - destruct (get_history_window Sample.two_sessions (lit "s") 2) as [Hlast _].
    rewrite Hlast by lia. vm_compute. reflexivity.
  - destruct (get_history_window Sample.two_sessions (lit "s") 5) as [Hlast _].
    rewrite Hlast by lia. vm_compute. reflexivity.
Defined.

(** C3 (as stated, refuted): with the limit 0 the three messages of the
    session are returned, not the last [min 0 3] of them. *)
Lemma get_history_limit_zero :
  ~ read_returns_last Sample.two_sessions (lit "s") 0.
Proof.
  unfold read_returns_last. intros Hclaim.
  apply (f_equal (@length _)) in Hclaim. vm_compute in Hclaim. discriminate Hclaim.
Qed.

(** C9 on the two sessions: a message for "s" and the clearing of "s" both
    leave "t" as it was. *)
Lemma sessions_isolated_witness :
  AgentMemory.get_history
    (AgentMemory.add_message Sample.two_sessions (lit "s") (lit "user")
       (Some (lit "four")) (lit "2024-01-10T00:00:01") None) (lit "t") None
    = AgentMemory.get_history Sample.two_sessions (lit "t") None /\
  AgentMemory.get_history (AgentMemory.clear_session Sample.two_sessions (lit "s"))
    (lit "s") None = [].
Proof.
  destruct (sessions_isolated Sample.two_sessions (lit "s") (lit "t") (lit "user")
              (Some (lit "four")) (lit "2024-01-10T00:00:01") None None)
    as (Hadd & Hclear & _).
  - vm_compute. discriminate.
  - split; assumption.
Defined.

(** ** AIAgent.process_query: the fallback *)

Section Fallback.
Context `{World}.
Import AIAgent.

#[local] Arguments lit : simpl never.

Lemma search_documents_ok (query : value) :
  exists r, AgentTools.search_documents query = Ok r.
Proof.
  unfold AgentTools.search_documents.
  destruct (rag_search query) as [results|e]; cbn;
    [destruct (Rag.is_empty results)|]; eexists; reflexivity.
Qed.

Lemma search_tool_result_exists (rag_system : bool) (items : list (str * value)) :
  exists r, search_tool_result rag_system items r.
Proof.
  unfold search_tool_result. destruct rag_system; [apply search_documents_ok|].
  eexists; reflexivity.
Qed.

Lemma execute_tool_search_documents (rag_system : bool)
  (items : list (str * value)) (r : str) (s : state) :
  search_tool_result rag_system items r ->
  _execute_tool rag_system (lit "search_documents") (VDict items) s
  = (with_events s
       (events s ++ [ToolRun (lit "search_documents") (VDict items) r]),
     Ok r).
Proof.
  intros Hr. unfold _execute_tool.
  replace (str_eqb (lit "search_documents") (lit "get_current_time"))
    with false by (vm_compute; reflexivity).
  replace (str_eqb (lit "search_documents") (lit "calculate"))
    with false by (vm_compute; reflexivity).
  replace (str_eqb (lit "search_documents") (lit "search_documents"))
    with true by (vm_compute; reflexivity).
  unfold search_tool_result in Hr. destruct rag_system; cbn.
  - unfold mbind, lift, log, ret. cbn.
    destruct (lookup_item items (lit "query")); cbn in *; now rewrite Hr.
  - subst r. reflexivity.
Qed.

Lemma manual_tool_call_dict (rag_system : bool) (original : str)
  (call raw : value) (items : list (str * value)) (r : str) (s : state) :
  py_get call (lit "arguments") (VDict []) = Ok raw ->
  decode_string_arguments raw = VDict items ->
  search_tool_result rag_system items r ->
  manual_tool_call rag_system original call s
  = (after_manual_call s original items r,
     match chat_completions_create (messages (after_manual_call s original items r))
             false with
     | Ok final => Ok (response_content final)
     | Raise e => Raise e
     end).
Proof.
  intros Hraw Hdec Hr. unfold manual_tool_call.
  unfold mbind at 1. unfold lift at 1. rewrite Hraw. rewrite Hdec.
  unfold mbind at 1. rewrite (execute_tool_search_documents _ _ r) by exact Hr.
  unfold mbind, append_tool_call, append_source, append_message, get,
    set_locals, lift, create_completion, log, ret.
  cbn.
  destruct (chat_completions_create _ false); reflexivity.
Qed.

(** The fallback when a call is recovered and its arguments are a dict. *)
Lemma fallback_path_recovered (rag_system : bool) (original : str)
  (call raw : value) (items : list (str * value)) (r : str) (s : state) :
  recovered original = Some call ->
  py_get call (lit "arguments") (VDict []) = Ok raw ->
  decode_string_arguments raw = VDict items ->
  search_tool_result rag_system items r ->
  fallback_path rag_system original s
  = (after_manual_call s original items r,
     Ok match chat_completions_create
                (messages (after_manual_call s original items r)) false with
        | Ok final => response_content final
        | Raise _ => Some original
        end).
Proof.
  intros Hrec Hraw Hdec Hr. unfold recovered in Hrec. unfold fallback_path.
  destruct (re_search_json (clean_content original)) as [json_str|];
    [|discriminate].
  unfold mtry, mbind, lift at 1 2.
  destruct (json_loads (fix_quotes json_str)) as [tool_data|e]; [|discriminate].
  destruct (recognize tool_data) as [[call'|]|e]; try discriminate.
  injection Hrec as ->.
  rewrite (manual_tool_call_dict _ _ _ _ _ _ _ Hraw Hdec Hr).
  destruct (chat_completions_create _ false); reflexivity.
Qed.

(** The fallback when no call is recovered: the state is untouched. *)
Lemma fallback_path_not_recovered (rag_system : bool) (original : str) (s : state) :
  recovered original = None ->
  fallback_path rag_system original s = (s, Ok (Some original)).
Proof.
  intros Hrec. unfold recovered in Hrec. unfold fallback_path.
  destruct (re_search_json (clean_content original)) as [json_str|];
    [|reflexivity].
  unfold mtry, mbind, lift, ret.
  destruct (json_loads (fix_quotes json_str)) as [tool_data|e]; [|reflexivity].
  destruct (recognize tool_data) as [[call'|]|e]; [discriminate|reflexivity..].
Qed.


Lemma process_query_body_start (self : t) (query session_id : str)
  (use_tools : bool) :
  process_query_body (rag_system self) query session_id use_tools
    {| memory := agent_memory self; ticks := clock self; events := [];
       messages := []; sources := []; tool_calls_made := [] |}
  = respond (rag_system self) session_id use_tools
      (before_completion self query session_id).
Proof. reflexivity. Qed.


(** The query when the fallback recovers no call. *)
Lemma process_query_not_recovered (self : t) (query session_id : str)
  (use_tools : bool) (message : ChatResponse) (original : str) :
  chat_completions_create (first_request self query session_id) use_tools
    = Ok message ->
  response_tool_calls message = [] ->
  response_content message = Some original ->
  mentions_tool_call (Some original) = true ->
  recovered original = None ->
  exists self' res,
    process_query self query session_id use_tools
    = (self', [Completion (first_request self query session_id) use_tools], Ok res)
    /\ answer res = Some original
    /\ result_tool_calls res = []
    /\ result_sources res = [].
Proof.
  intros Hfirst Hcalls Hcontent Hmentions Hrec.
  unfold process_query. rewrite process_query_body_start.
  unfold respond, mtry. unfold mbind at 1. unfold create_completion.
  unfold mbind at 1 2. unfold get at 1. unfold log at 1. unfold lift at 1.
  cbn [messages before_completion with_events].
  rewrite Hfirst.
  unfold mbind at 1. unfold answer_of. rewrite Hcalls, Hcontent, Hmentions.
  cbn [Rag.is_empty negb default].
  rewrite fallback_path_not_recovered by exact Hrec.
  run. do 2 eexists. split; [reflexivity|]. cbn. repeat split.
Qed.

(** The query when the fallback recovers a call with a dict of arguments. *)
Lemma process_query_recovered (self : t) (query session_id : str)
  (use_tools : bool) (message : ChatResponse) (original : str)
  (call raw : value) (items : list (str * value)) (r : str) :
  chat_completions_create (first_request self query session_id) use_tools
    = Ok message ->
  response_tool_calls message = [] ->
  response_content message = Some original ->
  mentions_tool_call (Some original) = true ->
  recovered original = Some call ->
  py_get call (lit "arguments") (VDict []) = Ok raw ->
  decode_string_arguments raw = VDict items ->
  search_tool_result (rag_system self) items r ->
  exists self' res,
    process_query self query session_id use_tools
    = (self',
       [Completion (first_request self query session_id) use_tools;
        ToolRun (lit "search_documents") (VDict items) r;
        Completion (second_request self query session_id original r) false],
       Ok res)
    /\ result_tool_calls res
       = [{| tool := lit "search_documents"; arguments := VDict items;
             result := r |}]
    /\ answer res
       = match chat_completions_create
                 (second_request self query session_id original r) false with
         | Ok final => response_content final
         | Raise _ => Some original
         end.
Proof.
  intros Hfirst Hcalls Hcontent Hmentions Hrec Hraw Hdec Hr.
  unfold process_query. rewrite process_query_body_start.
  unfold respond, mtry. unfold mbind at 1. unfold create_completion.
  unfold mbind at 1 2. unfold get at 1. unfold log at 1. unfold lift at 1.
  cbn [messages before_completion with_events].
  rewrite Hfirst.
  unfold mbind at 1. unfold answer_of. rewrite Hcalls, Hcontent, Hmentions.
  cbn [Rag.is_empty negb default].
  rewrite (fallback_path_recovered _ _ _ _ _ _ _ Hrec Hraw Hdec Hr).
  run. rewrite <- !app_assoc. cbn [app].
  fold (second_request self query session_id original r).
  do 2 eexists. split; [reflexivity|]. cbn. split; reflexivity.
Qed.

(** The query when the first response does not open the fallback. *)
Lemma process_query_plain (self : t) (query session_id : str)
  (use_tools : bool) (message : ChatResponse) :
  chat_completions_create (first_request self query session_id) use_tools
    = Ok message ->
  response_tool_calls message = [] ->
  mentions_tool_call (response_content message) = false ->
  exists self' res,
    process_query self query session_id use_tools
    = (self', [Completion (first_request self query session_id) use_tools], Ok res)
    /\ answer res = response_content message
    /\ result_tool_calls res = []
    /\ result_sources res = [].
Proof.
  intros Hfirst Hcalls Hmentions.
  unfold process_query. rewrite process_query_body_start.
  unfold respond, mtry. unfold mbind at 1. unfold create_completion.
  unfold mbind at 1 2. unfold get at 1. unfold log at 1. unfold lift at 1.
  cbn [messages before_completion with_events].
  rewrite Hfirst.
  unfold mbind at 1. unfold answer_of. rewrite Hcalls, Hmentions.
  cbn [Rag.is_empty negb].
  run. do 2 eexists. split; [reflexivity|]. cbn. repeat split.
Qed.

(** ** The JSON-like span of a response *)

Lemma rfind_from_absent (i : Z) (s : str) (c : N) :
  Forall (fun x => x <> c) s -> rfind_from i s c = -1.
Proof.
  intros Hs. revert i. induction Hs as [|x s Hx Hs IH]; intros i; cbn.
  - reflexivity.
  - rewrite IH. cbn. destruct (N.eqb_spec x c); [contradiction|reflexivity].
Qed.

Lemma rfind_from_last (i : Z) (s post : str) (c : N) :
  0 <= i -> Forall (fun x => x <> c) post ->
  rfind_from i (s ++ c :: post) c = i + len s.
Proof.
  intros Hi Hpost. revert i Hi. induction s as [|x s IH]; intros i Hi.
  - cbn [app rfind_from]. rewrite rfind_from_absent by exact Hpost.
    cbn. rewrite N.eqb_refl. unfold len. cbn. lia.
  - cbn [app rfind_from]. rewrite IH by lia.
    pose proof (RagTheory.len_nonneg s) as Hs.
    destruct (Z.leb_spec 0 (i + 1 + len s)); [|lia].
    unfold len in *. cbn [length]. lia.
Qed.

(** A brace-delimited span embedded in text without an opening brace or
    bracket before it and without a closing brace after it is the span
    the regular expression finds. *)
Lemma re_search_json_embedded (pre body post : str) :
  Forall (fun c => c <> 123 /\ c <> 91)%N pre ->
  Forall (fun c => c <> 125)%N post ->
  re_search_json (pre ++ 123%N :: body ++ 125%N :: post)
  = Some (123%N :: body ++ [125%N]).
Proof.
  intros Hpre Hpost. induction Hpre as [|c pre [Hbrace Hbracket] Hpre IH].
  - cbn [app re_search_json]. cbn [N.eqb Pos.eqb].
    unfold rfind. rewrite rfind_from_last by (lia || exact Hpost).
    pose proof (RagTheory.len_nonneg body) as Hb.
    destruct (Z.leb_spec 0 (0 + len body)); [|lia].
    do 2 f_equal. unfold len.
    replace (Z.to_nat (0 + Z.of_nat (length body) + 1)) with (length body + 1)%nat by lia.
    rewrite take_app_add'; [|reflexivity]. cbn. reflexivity.
  - cbn [app re_search_json].
    destruct (N.eqb_spec c 123); [contradiction|].
    destruct (N.eqb_spec c 91); [contradiction|].
    exact IH.
Qed.

Lemma recognize_search_call (x : str) :
  recognize (search_call x) = Ok (Some (search_call x)).
Proof. vm_compute. reflexivity. Qed.

Lemma recovered_embedded (original pre body post : str) (x : str) :
  clean_content original = pre ++ 123%N :: body ++ 125%N :: post ->
  Forall (fun c => c <> 123 /\ c <> 91)%N pre ->
  Forall (fun c => c <> 125)%N post ->
  json_loads (fix_quotes (123%N :: body ++ [125%N])) = Ok (search_call x) ->
  recovered original = Some (search_call x).
Proof.
  intros Hclean Hpre Hpost Hloads. unfold recovered.
  rewrite Hclean, (re_search_json_embedded _ _ _ Hpre Hpost), Hloads.
  now rewrite recognize_search_call.
Qed.

(** C4 (as amended). Let the first response carry no structured tool
    call. If it opens the fallback and its text, code fences removed,
    holds a brace-delimited span with no opening brace or bracket before
    it and no closing brace after it, and that span decodes to
    [{"name": "search_documents", "arguments": {"query": x}}], then the
    query runs the document-search tool exactly once, between the first
    completion and a second one, and answers with the text of the second
    completion (with the original text if that completion raises). If
    instead the response does not open the fallback, or no span is found,
    or the span does not decode, or what it decodes to does not name
    [search_documents], the original text is the answer and no tool is
    run. *)
Theorem fallback_tool_call (self : t) (query session_id : str)
  (use_tools : bool) (message : ChatResponse) (original : str) :
  chat_completions_create (first_request self query session_id) use_tools
    = Ok message ->
  response_tool_calls message = [] ->
  response_content message = Some original ->
  (forall pre body post x,
     mentions_tool_call (Some original) = true ->
     clean_content original = pre ++ 123%N :: body ++ 125%N :: post ->
     Forall (fun c => c <> 123 /\ c <> 91)%N pre ->
     Forall (fun c => c <> 125)%N post ->
     json_loads (fix_quotes (123%N :: body ++ [125%N])) = Ok (search_call x) ->
     exists r self' res,
       search_tool_result (rag_system self) [(lit "query", VStr x)] r /\
       process_query self query session_id use_tools
       = (self',
          [Completion (first_request self query session_id) use_tools;
           ToolRun (lit "search_documents") (VDict [(lit "query", VStr x)]) r;
           Completion (second_request self query session_id original r) false],
          Ok res) /\
       result_tool_calls res
       = [{| tool := lit "search_documents";
             arguments := VDict [(lit "query", VStr x)];
             result := r |}] /\
       answer res
       = match chat_completions_create
                 (second_request self query session_id original r) false with
         | Ok final => response_content final
         | Raise _ => Some original
         end) /\
  (mentions_tool_call (Some original) = false \/ recovered original = None ->
   exists self' res,
     process_query self query session_id use_tools
     = (self', [Completion (first_request self query session_id) use_tools],
        Ok res) /\
     answer res = Some original /\
     result_tool_calls res = [] /\
     result_sources res = []).
Proof.
  intros Hfirst Hcalls Hcontent. split.
  - intros pre body post x Hmentions Hclean Hpre Hpost Hloads.
    destruct (search_tool_result_exists (rag_system self) [(lit "query", VStr x)])
      as [r Hr].
    exists r.
    destruct (process_query_recovered self query session_id use_tools message
                original (search_call x) (VDict [(lit "query", VStr x)])
                [(lit "query", VStr x)] r Hfirst Hcalls Hcontent Hmentions)
      as (self' & res & Hrun & Htools & Hanswer);
      [now apply (recovered_embedded original pre body post)
      |reflexivity|reflexivity|exact Hr|].
    exists self', res. repeat split; assumption.
  - intros [Hmentions|Hrec].
    + rewrite <- Hcontent in Hmentions |- *.
      now apply process_query_plain.
    + destruct (mentions_tool_call (Some original)) eqn:Hmentions.
      * now apply (process_query_not_recovered _ _ _ _ message).
      * rewrite <- Hcontent in Hmentions |- *. now apply process_query_plain.
Qed.

End Fallback.

(** C4 in a sample world: the response is a sentence followed by the
    literal call; the tool runs once and the second completion is the
    answer. *)
Lemma fallback_tool_call_witness :
  let W := Sample.agent_world (lit "I will search. " ++ literal_call)
             (lit "You have 15 days.") in
  exists r self' res first second,
    @AIAgent.process_query W Sample.agent (lit "How much leave?") (lit "s") true
    = (self',
       [Completion first true;
        ToolRun (lit "search_documents") (VDict [(lit "query", VStr (lit "x"))]) r;
        Completion second false],
       Ok res) /\
    AIAgent.answer res = Some (lit "You have 15 days.").
Proof.
  intros W.
  destruct (@fallback_tool_call W Sample.agent (lit "How much leave?") (lit "s") true
              {| response_content := Some (lit "I will search. " ++ literal_call);
                 response_tool_calls := [] |}
              (lit "I will search. " ++ literal_call)
              eq_refl eq_refl eq_refl) as [Hrun _].
  destruct (Hrun (lit "I will search. ")
              (removelast (tl literal_call)) [] (lit "x"))
    as (r & self' & res & _ & Hq & _ & Hanswer).
  - vm_compute. reflexivity.
  - vm_compute. reflexivity.
  - vm_compute. repeat constructor; discriminate.
  - constructor.
  - vm_compute. reflexivity.
  - exists r, self', res. do 2 eexists. split; [exact Hq|exact Hanswer].
Defined.

(** A recognized call whose arguments are not a dict, in an agent without
    a retrieval system: the tool answers and is recorded, formatting the
    source then raises, and the original text is returned with the record
    of the call. *)
Example fallback_records_call_without_arguments :
  let reply :=
    lit "{" ++ [34%N] ++ lit "name" ++ [34%N] ++ lit ": " ++ [34%N]
    ++ lit "search_documents" ++ [34%N] ++ lit ", " ++ [34%N]
    ++ lit "arguments" ++ [34%N] ++ lit ": 5}" in
  let W := Sample.agent_world reply [] in
  let self := {| AIAgent.agent_memory := AgentMemory.init;
                 AIAgent.rag_system := false; AIAgent.clock := 0 |} in
  exists self' events res,
    @AIAgent.process_query W self (lit "How much leave?") (lit "s") true
      = (self', events, Ok res) /\
    AIAgent.answer res = Some reply /\
    tool_runs events = 1%nat /\
    length (AIAgent.result_tool_calls res) = 1%nat.
Proof.
  intros reply W self. vm_compute. do 3 eexists. split; [reflexivity|].
  repeat split.
Qed.

(** C4 (as stated, refuted): the response holds the literal call after a
    word in braces; the span found runs from the first brace to the last,
    does not decode, and the text is returned with no tool run. *)
Lemma fallback_misses_embedded_call :
  ~ @embedded_call_is_run
      (Sample.agent_world (lit "I will use {tools}: " ++ literal_call)
         (lit "You have 15 days."))
      Sample.agent (lit "How much leave?") (lit "s") true.
Proof.
  intros Hclaim.
  specialize (Hclaim
    {| response_content := Some (lit "I will use {tools}: " ++ literal_call);
       response_tool_calls := [] |}
    (lit "I will use {tools}: " ++ literal_call) eq_refl eq_refl eq_refl).
  destruct Hclaim as [Hruns _]; [vm_compute; reflexivity|].
  vm_compute in Hruns. discriminate Hruns.
Qed.

End AgentTheory.

(* ===================================================================== *)
(** * Further facts: app/rag.py *)
(* ===================================================================== *)

Module RagFacts.
Import Py Rag Stated Notions.

(** ** Pieces of a text *)

Lemma occurs_in_refl (s : str) : occurs_in s s.
Proof. exists [], []. now rewrite app_nil_r. Qed.

Lemma occurs_in_trans (a b c : str) :
  occurs_in a b -> occurs_in b c -> occurs_in a c.
Proof.
  intros (p1 & q1 & ->) (p2 & q2 & ->).
  exists (p2 ++ p1), (q1 ++ q2). now rewrite <- !app_assoc.
Qed.

Lemma occurs_in_len (a b : str) : occurs_in a b -> len a <= len b.
Proof. intros (p & q & ->). unfold len. rewrite !length_app. lia. Qed.

Lemma take_drop_occurs (n m : nat) (s : str) : occurs_in (take n (drop m s)) s.
Proof.
  exists (take m s), (drop n (drop m s)).
  now rewrite take_drop, take_drop.
Qed.

Lemma slice_occurs (s : str) (lo hi : Z) : occurs_in (slice s lo hi) s.
Proof. apply take_drop_occurs. Qed.

Lemma slice_to_occurs (s : str) (hi : Z) : occurs_in (slice_to s hi) s.
Proof. unfold slice_to. exists [], (drop (Z.to_nat (adjust_index (len s) hi)) s).
  cbn. now rewrite take_drop. Qed.

Lemma slice_len (s : str) (lo hi : Z) : lo <= hi -> len (slice s lo hi) <= hi - lo.
Proof.
  intros Hle. unfold slice, len, adjust_index.
  rewrite length_take, length_drop.
  destruct (Z.ltb_spec lo 0), (Z.ltb_spec hi 0); lia.
Qed.

(** ** [strip] *)

Lemma lstrip_split (s : str) :
  exists ws, s = ws ++ lstrip s /\ Forall (fun c => isspace c = true) ws.
Proof.
  induction s as [|c s (ws & Hs & Hws)]; cbn.
  - now exists [].
  - destruct (isspace c) eqn:Hc.
    + exists (c :: ws). split; [cbn; congruence|now constructor].
    + now exists [].
Qed.

Lemma lstrip_head (s : str) (c : N) (r : str) :
  lstrip s = c :: r -> isspace c = false.
Proof.
  induction s as [|x s IH]; cbn; [discriminate|].
  destruct (isspace x) eqn:Hx; [exact IH|]. intros [= <- _]. exact Hx.
Qed.

Lemma rstrip_split (s : str) :
  exists ws, s = rstrip s ++ ws /\ Forall (fun c => isspace c = true) ws.
Proof.
  unfold rstrip. destruct (lstrip_split (rev s)) as (ws & Hs & Hws).
  exists (rev ws). split.
  - rewrite <- rev_app_distr, <- Hs. now rewrite rev_involutive.
  - now apply Forall_rev.
Qed.

Lemma rstrip_last (s r : str) (c : N) :
  rstrip s = r ++ [c] -> isspace c = false.
Proof.
  unfold rstrip. intros Hs. apply (f_equal (@rev N)) in Hs.
  rewrite rev_involutive, rev_app_distr in Hs. cbn in Hs.
  exact (lstrip_head _ _ _ Hs).
Qed.

Lemma strip_occurs (s : str) : occurs_in (strip s) s.
Proof.
  unfold strip.
  destruct (lstrip_split s) as (ws1 & H1 & _).
  destruct (rstrip_split (lstrip s)) as (ws2 & H2 & _).
  exists ws1, ws2. now rewrite <- H2.
Qed.

Lemma strip_trimmed (s : str) : trimmed (strip s).
Proof.
  unfold strip. split.
  - intros c r Hs. destruct (rstrip_split (lstrip s)) as (ws & Hsplit & _).
    rewrite Hs in Hsplit. exact (lstrip_head _ _ _ Hsplit).
  - intros r c Hs. exact (rstrip_last _ _ _ Hs).
Qed.

(** ** chunk_text: what a chunk is *)

Import DocumentProcessor.

Lemma chunk_step_chunk (text : str) (chunk_size chunk_overlap start : Z) :
  0 <= chunk_size ->
  let chunk := fst (chunk_step text chunk_size chunk_overlap start) in
  len chunk <= chunk_size /\ occurs_in chunk text /\ trimmed chunk.
Proof.
  intros Hsize. unfold chunk_step.
  pose proof (slice_len text start (start + chunk_size) ltac:(lia)) as Hlen.
  pose proof (slice_occurs text start (start + chunk_size)) as Hocc.
  set (window := slice text start (start + chunk_size)) in *.
  assert (Hwin : forall w, occurs_in w window ->
            len (strip w) <= chunk_size /\ occurs_in (strip w) text
            /\ trimmed (strip w)).
  { intros w Hw. pose proof (strip_occurs w) as Hs. split; [|split].
    - apply occurs_in_len in Hs, Hw. lia.
    - eauto using occurs_in_trans.
    - apply strip_trimmed. }
  destruct (start + chunk_size <? len text); cbn [fst];
    [|apply Hwin, occurs_in_refl].
  destruct (chunk_size <? 2 * Z.max (rfind window 46) (rfind window 10));
    cbn [fst]; apply Hwin; [apply slice_to_occurs|apply occurs_in_refl].
Qed.

Lemma chunk_loop_Forall (P : str -> Prop) (text : str)
  (chunk_size chunk_overlap : Z) :
  (forall start, P (fst (chunk_step text chunk_size chunk_overlap start))) ->
  forall fuel start chunks result,
    Forall P chunks ->
    chunk_loop fuel text chunk_size chunk_overlap start chunks = Some result ->
    Forall P result.
Proof.
  intros Hstep. induction fuel as [|fuel IH]; intros start chunks result Hacc;
    cbn [chunk_loop]; destruct (start <? len text); try discriminate;
    try (intros [= <-]; exact Hacc).
  pose proof (Hstep start) as Hchunk.
  destruct (chunk_step text chunk_size chunk_overlap start) as [chunk start'].
  apply IH. apply Forall_app. split; [exact Hacc|]. now repeat constructor.
Qed.

(** X1: every chunk [chunk_text] returns is non-empty, has at most
    [chunk_size] characters, occurs in the text as a run of consecutive
    characters, and neither starts nor ends with whitespace. *)
Theorem chunk_text_chunks (fuel : nat) (text : str)
  (chunk_size chunk_overlap : Z) (chunks : list str) :
  0 <= chunk_size ->
  chunk_text fuel text chunk_size chunk_overlap = Some chunks ->
  Forall (fun chunk =>
            chunk <> [] /\ len chunk <= chunk_size /\ occurs_in chunk text
            /\ trimmed chunk) chunks.
Proof.
  intros Hsize. unfold chunk_text.
  destruct text as [|c text]; [intros [= <-]; constructor|].
  destruct (chunk_loop fuel (c :: text) chunk_size chunk_overlap 0 [])
    as [found|] eqn:Hloop; [|discriminate].
  intros [= <-].
  assert (Hall : Forall (fun chunk => len chunk <= chunk_size
                           /\ occurs_in chunk (c :: text) /\ trimmed chunk) found).
  { eapply chunk_loop_Forall; [|constructor|exact Hloop].
    intros start. now apply chunk_step_chunk. }
  clear Hloop.
  induction Hall as [|chunk found Hchunk _ IH]; cbn; [constructor|].
  destruct chunk as [|x chunk]; cbn; [exact IH|].
  constructor; [|exact IH]. split; [discriminate|exact Hchunk].
Qed.

(** X1 on four sentences cut into windows of twelve characters. *)
Lemma chunk_text_chunks_witness :
  Forall (fun chunk =>
            chunk <> [] /\ len chunk <= 12
            /\ occurs_in chunk (lit "One. Two. Three. Four. Five.")
            /\ trimmed chunk)
    [lit "One. Two."; lit "o. Three."; lit "e. Four."; lit "r. Five."].
Proof.
  apply (chunk_text_chunks 10 (lit "One. Two. Three. Four. Five.") 12 2).
  - lia.
  - vm_compute. reflexivity.
Defined.

(** ** chunk_text without overlap *)

Lemma slice_from_start {A} (l : list A) (lo hi : Z) :
  0 <= lo -> 0 <= hi ->
  slice l lo hi = take (Z.to_nat (hi - lo)) (drop (Z.to_nat lo) l).
Proof.
  intros Hlo Hhi. unfold slice, adjust_index.
  destruct (Z.ltb_spec lo 0), (Z.ltb_spec hi 0); try lia.
  destruct (Z.le_gt_cases lo (len l)) as [Hin|Hout].
  - rewrite (Z.min_l lo) by lia.
    destruct (Z.le_gt_cases hi (len l)) as [Hh|Hh].
    + now rewrite (Z.min_l hi) by lia.
    + rewrite (Z.min_r hi) by lia.
      rewrite !take_ge; [reflexivity| |]; rewrite length_drop; unfold len in *; lia.
  - rewrite !drop_ge by (unfold len in *; lia). now rewrite !take_nil.
Qed.

Lemma rfind_from_bound (i : Z) (s : str) (c : N) :
  0 <= i -> rfind_from i s c <= i + len s - 1.
Proof.
  revert i. induction s as [|x s IH]; intros i Hi; cbn [rfind_from].
  - unfold len. cbn. lia.
  - specialize (IH (i + 1) ltac:(lia)).
    replace (len (x :: s)) with (len s + 1) by (unfold len; cbn [length]; lia).
    destruct (0 <=? rfind_from (i + 1) s c); [lia|].
    pose proof (RagTheory.len_nonneg s).
    destruct (N.eqb x c); lia.
Qed.

(** From a position inside the text an iteration takes the characters from
    [start] up to some later position, at most [chunk_size] further. *)
Lemma chunk_step_window (text : str) (chunk_size chunk_overlap start : Z) :
  0 <= start -> 0 < chunk_size ->
  exists stop,
    start < stop <= start + chunk_size /\
    chunk_step text chunk_size chunk_overlap start
    = (strip (slice text start stop), stop - chunk_overlap).
Proof.
  intros Hstart Hsize. unfold chunk_step.
  destruct (Z.ltb_spec (start + chunk_size) (len text)) as [Hin|Hout];
    [|exists (start + chunk_size); split; [lia|reflexivity]].
  set (window := slice text start (start + chunk_size)).
  set (break_point := Z.max (rfind window 46) (rfind window 10)).
  destruct (Z.ltb_spec chunk_size (2 * break_point)) as [Hbreak|_];
    [|exists (start + chunk_size); split; [lia|reflexivity]].
  assert (Hwindow : window = take (Z.to_nat chunk_size) (drop (Z.to_nat start) text)).
  { unfold window. rewrite slice_from_start by lia. f_equal. lia. }
  assert (Hlen : len window = chunk_size).
  { rewrite Hwindow. unfold len in *. rewrite length_take, length_drop. lia. }
  assert (Hbound : break_point <= chunk_size - 1).
  { pose proof (rfind_from_bound 0 window 46 ltac:(lia)).
    pose proof (rfind_from_bound 0 window 10 ltac:(lia)).
    unfold break_point, rfind. lia. }
  exists (start + break_point + 1). split; [lia|].
  f_equal. f_equal.
  unfold slice_to, adjust_index. rewrite Hlen.
  destruct (Z.ltb_spec (break_point + 1) 0); [lia|].
  rewrite Z.min_l by lia.
  rewrite Hwindow, take_take, slice_from_start by lia.
  f_equal. lia.
Qed.

Lemma lstrip_id (s : str) :
  Forall (fun c => isspace c = false) s -> lstrip s = s.
Proof. intros [|c r Hc _]; cbn; [reflexivity|now rewrite Hc]. Qed.

Lemma strip_id (s : str) :
  Forall (fun c => isspace c = false) s -> strip s = s.
Proof.
  intros Hs. unfold strip, rstrip. rewrite (lstrip_id s Hs).
  rewrite lstrip_id by now apply Forall_rev. apply rev_involutive.
Qed.

Lemma concat_filter_nonempty (chunks : list str) :
  concat (List.filter nonempty chunks) = concat chunks.
Proof.
  induction chunks as [|[|c chunk] chunks IH]; cbn; [reflexivity|exact IH|].
  now rewrite IH.
Qed.

Lemma chunk_loop_partition (text : str) (chunk_size : Z) :
  0 < chunk_size ->
  Forall (fun c => isspace c = false) text ->
  forall fuel start chunks result,
    0 <= start ->
    chunk_loop fuel text chunk_size 0 start chunks = Some result ->
    concat result = concat chunks ++ drop (Z.to_nat start) text.
Proof.
  intros Hsize Htext.
  induction fuel as [|fuel IH]; intros start chunks result Hstart;
    cbn [chunk_loop]; destruct (Z.ltb_spec start (len text)) as [Hin|Hout];
    try discriminate;
    try (intros [= <-]; rewrite drop_ge by (unfold len in *; lia);
         now rewrite app_nil_r).
  destruct (chunk_step_window text chunk_size 0 start Hstart Hsize)
    as (stop & Hstop & Hstep).
  rewrite Hstep. replace (stop - 0) with stop by lia.
  intros Hloop. apply IH in Hloop; [|lia]. rewrite Hloop.
  rewrite concat_app. cbn [concat]. rewrite app_nil_r, <- app_assoc. f_equal.
  rewrite slice_from_start by lia.
  rewrite strip_id by now apply Forall_take, Forall_drop.
  replace (Z.to_nat stop) with (Z.to_nat start + Z.to_nat (stop - start))%nat by lia.
  rewrite <- drop_drop. apply take_drop.
Qed.

(** X2: for a positive [chunk_size] and no overlap, a text without
    whitespace is cut into chunks that, put end to end, are the text; the
    call returns within as many iterations as the text has characters. *)
Theorem chunk_text_partition (fuel : nat) (text : str) (chunk_size : Z) :
  0 < chunk_size ->
  Forall (fun c => isspace c = false) text ->
  (length text <= fuel)%nat ->
  exists chunks,
    chunk_text fuel text chunk_size 0 = Some chunks /\ concat chunks = text.
Proof.
  intros Hsize Htext Hfuel.
  destruct (RagTheory.chunk_text_terminates text chunk_size 0 fuel) as [chunks Hrun];
    [unfold progressing; lia|exact Hfuel|].
  exists chunks. split; [exact Hrun|].
  unfold chunk_text in Hrun. destruct text as [|c text]; [now injection Hrun as <-|].
  destruct (chunk_loop fuel (c :: text) chunk_size 0 0 []) as [found|] eqn:Hloop;
    [|discriminate].
  injection Hrun as <-. rewrite concat_filter_nonempty.
  now rewrite (chunk_loop_partition _ _ Hsize Htext fuel 0 [] found (Z.le_refl 0) Hloop).
Qed.

(** X2 on a text of two sentences without spaces. *)
Lemma chunk_text_partition_witness :
  exists chunks,
    chunk_text 20 (lit "abcdefg.hijklmnop.qr") 10 0 = Some chunks /\
    concat chunks = lit "abcdefg.hijklmnop.qr".
Proof.
  apply chunk_text_partition.
  - lia.
  - vm_compute. repeat constructor.
  - vm_compute. lia.
Defined.

(** ** process_document *)

Section Processing.
Context `{World}.

Lemma make_documents_lookup (path : str) (total : Z) (chunks : list str) :
  forall (first : Z) (k : nat) (doc : Document),
    make_documents path total first chunks !! k = Some doc ->
    exists chunk,
      chunks !! k = Some chunk /\
      doc = {| content := chunk;
               source := path_name path;
               chunk_id := first + Z.of_nat k;
               metadata := {| file_path := path_str path;
                              chunk_index := first + Z.of_nat k;
                              total_chunks := total |} |}.
Proof.
  induction chunks as [|chunk chunks IH]; intros first k doc; cbn [make_documents].
  - now rewrite lookup_nil.
  - destruct k as [|k]; intros Hk; simpl in Hk.
    + injection Hk as <-. exists chunk. split; [reflexivity|].
      now rewrite Z.add_0_r.
    + destruct (IH (first + 1) k doc Hk) as (c & Hc & ->).
      exists c. split; [exact Hc|].
      now replace (first + Z.of_nat (S k)) with (first + 1 + Z.of_nat k) by lia.
Qed.

Lemma make_documents_length (path : str) (total first : Z) (chunks : list str) :
  length (make_documents path total first chunks) = length chunks.
Proof.
  revert first. induction chunks as [|chunk chunks IH]; intros first; cbn;
    [reflexivity|now rewrite IH].
Qed.

Lemma chunk_text_nonempty (fuel : nat) (text : str) (chunk_size chunk_overlap : Z)
  (chunks : list str) :
  chunk_text fuel text chunk_size chunk_overlap = Some chunks ->
  Forall (fun chunk => chunk <> []) chunks.
Proof.
  unfold chunk_text. destruct text as [|c text]; [intros [= <-]; constructor|].
  destruct (chunk_loop fuel (c :: text) chunk_size chunk_overlap 0 [])
    as [found|]; [|discriminate].
  intros [= <-]. induction found as [|[|x chunk] found IH]; cbn;
    [constructor|exact IH|]. constructor; [discriminate|exact IH].
Qed.

(** What [process_document] does, by the outcome of loading the text. *)
Lemma process_document_inv (fuel : nat) (path : str)
  (chunk_size chunk_overlap : option Z) (r : outcome (list Document)) :
  process_document fuel path chunk_size chunk_overlap = Some r ->
  (exists e, r = Raise e /\
     ((supported (str_lower (path_suffix path)) = false /\
       e = ValueError (lit "Unsupported file type: " ++ path_suffix path))
      \/ load_pdf (path_str path) = Raise e
      \/ load_text (path_str path) = Raise e))
  \/ (exists text chunks,
        chunk_text fuel text
          (int_or chunk_size (Rag.chunk_size settings))
          (int_or chunk_overlap (Rag.chunk_overlap settings)) = Some chunks /\
        r = Ok (make_documents path (len chunks) 0 chunks)).
Proof.
  unfold process_document, supported.
  destruct (str_eqb (str_lower (path_suffix path)) (lit ".pdf")) eqn:Hpdf.
  - destruct (load_pdf (path_str path)) as [text|e] eqn:Hload.
    + destruct (chunk_text fuel text _ _) as [chunks|] eqn:Hc; [|discriminate].
      intros [= <-]. right. now exists text, chunks.
    + intros [= <-]. left. exists e. split; [reflexivity|]. right. now left.
  - destruct (str_eqb (str_lower (path_suffix path)) (lit ".txt")
              || str_eqb (str_lower (path_suffix path)) (lit ".md")) eqn:Htxt.
    + destruct (load_text (path_str path)) as [text|e] eqn:Hload.
      * destruct (chunk_text fuel text _ _) as [chunks|] eqn:Hc; [|discriminate].
        intros [= <-]. right. now exists text, chunks.
      * intros [= <-]. left. exists e. split; [reflexivity|]. right. now right.
    + intros [= <-]. left. eexists. split; [reflexivity|]. left.
      split; [|reflexivity]. cbn. exact Htxt.
Qed.

Lemma load_pdf_raises (path : str) (e : exn) :
  load_pdf path = Raise e ->
  exists cause,
    e = ValueError (lit "Error reading PDF " ++ path ++ lit ": " ++ exn_str cause).
Proof.
  unfold load_pdf.
  destruct (bind (pdf_reader path) _) as [text|cause]; cbn; [discriminate|].
  intros [= <-]. now exists cause.
Qed.

Lemma load_text_raises (path : str) (e : exn) :
  load_text path = Raise e ->
  exists cause,
    read_file path = Raise cause /\
    e = ValueError (lit "Error reading text file " ++ path ++ lit ": "
                    ++ exn_str cause).
Proof.
  unfold load_text. destruct (read_file path) as [text|cause]; cbn; [discriminate|].
  intros [= <-]. now exists cause.
Qed.

(** X3: the documents [process_document] returns are numbered from 0 in
    order: the [k]-th has [chunk_id] and [chunk_index] [k], carries the
    name and the path of the file, a non-empty content, and the number of
    documents returned as [total_chunks]. *)
Theorem process_document_numbering (fuel : nat) (path : str)
  (chunk_size chunk_overlap : option Z) (docs : list Document) :
  process_document fuel path chunk_size chunk_overlap = Some (Ok docs) ->
  forall (k : nat) (doc : Document),
    docs !! k = Some doc ->
    chunk_id doc = Z.of_nat k /\
    chunk_index (metadata doc) = Z.of_nat k /\
    total_chunks (metadata doc) = len docs /\
    source doc = path_name path /\
    file_path (metadata doc) = path_str path /\
    content doc <> [].
Proof.
  intros Hrun k doc Hk.
  destruct (process_document_inv _ _ _ _ _ Hrun)
    as [(e & [=] & _)|(text & chunks & Hchunks & [= ->])].
  destruct (make_documents_lookup _ _ _ _ _ _ Hk) as (chunk & Hchunk & ->).
  cbn. unfold len. rewrite make_documents_length.
  repeat split; try lia.
  apply chunk_text_nonempty in Hchunks.
  rewrite Forall_forall in Hchunks. apply Hchunks.
  eapply list_elem_of_lookup_2. exact Hchunk.
Qed.

(** X4: whatever goes wrong in [process_document] comes out as a
    [ValueError]: an extension other than .pdf, .txt and .md is refused
    with "Unsupported file type" whatever the file holds, and a file that
    cannot be read is reported with its path. *)
Theorem process_document_errors (fuel : nat) (path : str)
  (chunk_size chunk_overlap : option Z) :
  (forall e,
     process_document fuel path chunk_size chunk_overlap = Some (Raise e) ->
     exists msg, e = ValueError msg) /\
  (supported (str_lower (path_suffix path)) = false ->
   process_document fuel path chunk_size chunk_overlap
   = Some (Raise (ValueError (lit "Unsupported file type: " ++ path_suffix path)))) /\
  (forall cause,
     str_lower (path_suffix path) = lit ".txt" ->
     read_file (path_str path) = Raise cause ->
     process_document fuel path chunk_size chunk_overlap
     = Some (Raise (ValueError
         (lit "Error reading text file " ++ path_str path ++ lit ": "
          ++ exn_str cause)))).
Proof.
  split; [|split].
  - intros e Hrun.
    destruct (process_document_inv _ _ _ _ _ Hrun)
      as [(e' & [= <-] & [[_ ->]|[Hl|Hl]])|(text & chunks & _ & [=])].
    + eexists. reflexivity.
    + destruct (load_pdf_raises _ _ Hl) as [cause ->]. eexists. reflexivity.
    + destruct (load_text_raises _ _ Hl) as (cause & _ & ->). eexists. reflexivity.
  - unfold supported, process_document. intros Hs.
    apply orb_false_elim in Hs as [Hs Hmd]. apply orb_false_elim in Hs as [Hpdf Htxt].
    now rewrite Hpdf, Htxt, Hmd.
  - intros cause Hsuffix Hread. unfold process_document, load_text.
    rewrite Hsuffix, Hread.
    replace (str_eqb (lit ".txt") (lit ".pdf")) with false by (vm_compute; reflexivity).
    replace (str_eqb (lit ".txt") (lit ".txt")) with true by (vm_compute; reflexivity).
    reflexivity.
Qed.

End Processing.

#[local] Existing Instance Sample.world.

(** X3 in the sample world: the one chunk of notes.txt. *)
Lemma process_document_numbering_witness :
  process_document 30 (lit "notes.txt") None None
    = Some (Ok [Sample.doc (lit "Leave is 15 days. Ask HR.")]) /\
  chunk_id (Sample.doc (lit "Leave is 15 days. Ask HR.")) = 0 /\
  total_chunks (metadata (Sample.doc (lit "Leave is 15 days. Ask HR."))) = 1.
Proof.
  assert (Hrun : process_document 30 (lit "notes.txt") None None
                 = Some (Ok [Sample.doc (lit "Leave is 15 days. Ask HR.")]))
    by (vm_compute; reflexivity).
  split; [exact Hrun|].
  destruct (process_document_numbering 30 (lit "notes.txt") None None
              [Sample.doc (lit "Leave is 15 days. Ask HR.")] Hrun 0%nat
              (Sample.doc (lit "Leave is 15 days. Ask HR.")) eq_refl)
    as (Hid & _ & Htotal & _).
  split; [exact Hid|exact Htotal].
Defined.

(** X4 in the sample world: an executable, and a text file that is not
    there. *)
Lemma process_document_errors_witness :
  process_document 30 (lit "setup.exe") None None
    = Some (Raise (ValueError (lit "Unsupported file type: .exe"))) /\
  process_document 30 (lit "missing.txt") None None
    = Some (Raise (ValueError
        (lit "Error reading text file missing.txt: No such file or directory"))).
Proof.
  destruct (process_document_errors 30 (lit "setup.exe") None None) as (_ & Hbad & _).
  destruct (process_document_errors 30 (lit "missing.txt") None None) as (_ & _ & Hread).
  split.
  - apply Hbad. vm_compute. reflexivity.
  - apply (Hread (OtherError (lit "No such file or directory")));
      vm_compute; reflexivity.
Defined.

(** ** generate_embeddings *)

Section Embedding.
Context `{World}.
Import EmbeddingGenerator.

Lemma generate_batches_spec (n : nat) :
  forall (i : nat) (rest : list str) (embeddings : list Vector),
    (length rest <= n)%nat ->
    exists batches,
      fst (generate_batches n i rest embeddings) = map InputBatch batches /\
      Forall (fun batch => (0 < length batch <= 100)%nat) batches /\
      match snd (generate_batches n i rest embeddings) with
      | Ok result =>
          concat batches = rest /\
          (length rest <= 100 * length batches < length rest + 100)%nat /\
          exists responses,
            Forall2 (fun batch vectors =>
                       embeddings_create (InputBatch batch) = Ok vectors)
              batches responses /\
            result = embeddings ++ concat responses
      | Raise e =>
          exists sent last cause unsent,
            batches = sent ++ [last] /\
            rest = concat batches ++ unsent /\
            Forall2 (fun batch vectors =>
                       embeddings_create (InputBatch batch) = Ok vectors)
              sent (map (fun batch =>
                           match embeddings_create (InputBatch batch) with
                           | Ok vectors => vectors
                           | Raise _ => []
                           end) sent) /\
            embeddings_create (InputBatch last) = Raise cause /\
            e = ValueError
                  (lit "Error generating embeddings for batch "
                   ++ str_of_nat (i + 100 * length sent)
                   ++ lit ": " ++ exn_str cause)
      end.
Proof.
  assert (Hnil : forall n i embeddings,
            generate_batches n i [] embeddings = ([], Ok embeddings))
    by (now intros [|m]).
  assert (Hdone : forall m i embeddings,
    exists batches,
      fst (generate_batches m i [] embeddings) = map InputBatch batches /\
      Forall (fun batch => (0 < length batch <= 100)%nat) batches /\
      match snd (generate_batches m i [] embeddings) with
      | Ok result =>
          concat batches = [] /\
          (length (@nil str) <= 100 * length batches < length (@nil str) + 100)%nat /\
          exists responses,
            Forall2 (fun batch vectors =>
                       embeddings_create (InputBatch batch) = Ok vectors)
              batches responses /\
            result = embeddings ++ concat responses
      | Raise e => False
      end).
  { intros m i embeddings. rewrite Hnil. exists []. cbn [fst snd map concat length].
    split; [reflexivity|]. split; [constructor|]. split; [reflexivity|].
    split; [lia|]. exists []. split; [constructor|]. cbn. now rewrite app_nil_r. }
  induction n as [|n IH]; intros i rest embeddings Hn.
  - destruct rest as [|text rest]; [|cbn in Hn; lia].
    destruct (Hdone 0%nat i embeddings) as (batches & Hcalls & Hsizes & Hres).
    exists batches. split; [exact Hcalls|]. split; [exact Hsizes|].
    destruct (snd (generate_batches 0 i [] embeddings)); [exact Hres|contradiction].
  - destruct rest as [|text rest].
    { destruct (Hdone (S n) i embeddings) as (batches & Hcalls & Hsizes & Hres).
      exists batches. split; [exact Hcalls|]. split; [exact Hsizes|].
      destruct (snd (generate_batches (S n) i [] embeddings));
        [exact Hres|contradiction]. }
    cbn [generate_batches].
    set (batch := take 100 (text :: rest)).
    assert (Hbatch : (0 < length batch <= 100)%nat)
      by (unfold batch; rewrite length_take; cbn [length]; lia).
    destruct (embeddings_create (InputBatch batch)) as [vectors|cause] eqn:Hcreate.
    + destruct (IH (i + 100)%nat (drop 100 (text :: rest)) (embeddings ++ vectors))
        as (batches & Hcalls & Hsizes & Hres).
      { rewrite length_drop. cbn [length] in *. lia. }
      destruct (generate_batches n (i + 100) (drop 100 (text :: rest))
                  (embeddings ++ vectors)) as [calls r].
      cbn [fst snd] in *. exists (batch :: batches).
      split; [cbn [map]; now rewrite Hcalls|]. split; [now constructor|].
      destruct r as [result|e].
      * destruct Hres as (Hconcat & Hcount & responses & Hresp & ->).
        split; [cbn [concat]; rewrite Hconcat; apply take_drop|].
        split; [rewrite length_drop in Hcount; cbn [length] in *; lia|].
        exists (vectors :: responses). split; [now constructor|].
        cbn [concat]. now rewrite <- app_assoc.
      * destruct Hres as (sent & last & cause & unsent & -> & Hrest & Hsent & Hlast & ->).
        exists (batch :: sent), last, cause, unsent.
        split; [reflexivity|].
        split; [cbn [app concat]; rewrite <- app_assoc, <- Hrest;
                symmetry; apply take_drop|].
        split; [cbn [map]; rewrite Hcreate; now constructor|].
        split; [exact Hlast|].
        now replace (i + 100 * length (batch :: sent))%nat
          with (i + 100 + 100 * length sent)%nat by (cbn [length]; lia).
    + cbn [fst snd]. exists [batch]. split; [reflexivity|].
      split; [constructor; [exact Hbatch|constructor]|].
      exists [], batch, cause, (drop 100 (text :: rest)).
      split; [reflexivity|].
      split; [cbn [concat app]; rewrite app_nil_r; symmetry; apply take_drop|].
      split; [constructor|]. split; [exact Hcreate|].
      now replace (i + 100 * length (@nil (list str)))%nat with i
        by (cbn [length]; lia).
Qed.

(** X5: [generate_embeddings] sends the texts in order in batches of at
    most 100, none of them empty (no request at all for no texts). When
    every request succeeds the batches make up the texts, there are
    [ceil(len / 100)] of them and the result is the responses put end to
    end; the first request that fails ends the call with a [ValueError]
    that names the offset of its batch, and nothing is sent after it. *)
Theorem generate_embeddings_batches (texts : list str) :
  exists batches,
    fst (generate_embeddings texts) = map InputBatch batches /\
    Forall (fun batch => (0 < length batch <= 100)%nat) batches /\
    match snd (generate_embeddings texts) with
    | Ok embeddings =>
        concat batches = texts /\
        (length texts <= 100 * length batches < length texts + 100)%nat /\
        exists responses,
          Forall2 (fun batch vectors =>
                     embeddings_create (InputBatch batch) = Ok vectors)
            batches responses /\
          embeddings = concat responses
    | Raise e =>
        exists sent last cause unsent,
          batches = sent ++ [last] /\
          texts = concat batches ++ unsent /\
          Forall (fun batch =>
                    exists vectors, embeddings_create (InputBatch batch) = Ok vectors)
            sent /\
          embeddings_create (InputBatch last) = Raise cause /\
          e = ValueError
                (lit "Error generating embeddings for batch "
                 ++ str_of_nat (100 * length sent)
                 ++ lit ": " ++ exn_str cause)
    end.
Proof.
  unfold generate_embeddings.
  destruct (generate_batches_spec (length texts) 0 texts [] (le_n _))
    as (batches & Hcalls & Hsizes & Hres).
  exists batches. split; [exact Hcalls|]. split; [exact Hsizes|].
  destruct (snd (generate_batches (length texts) 0 texts [])) as [result|e].
  - destruct Hres as (Hconcat & Hcount & responses & Hresp & ->).
    split; [exact Hconcat|]. split; [exact Hcount|]. now exists responses.
  - destruct Hres as (sent & last & cause & unsent & -> & Hrest & Hsent & Hlast & ->).
    exists sent, last, cause, unsent.
    split; [reflexivity|]. split; [exact Hrest|].
    split; [|split; [exact Hlast|reflexivity]].
    clear Hrest Hsizes Hcalls.
    induction sent as [|batch sent IH]; [constructor|].
    cbn [map] in Hsent. inversion Hsent as [|? ? ? ? Hbatch Hothers]; subst.
    constructor; [eexists; exact Hbatch|now apply IH].
Qed.

End Embedding.

(** ** The store and its index *)

Section Store.
Context `{World}.
Import IndexFlatL2 FAISSVectorStore.

Lemma add_documents_inv (store store' : t) (docs : list Document)
  (embeddings : list Vector) :
  add_documents store docs embeddings = Ok store' ->
  store' = store \/
  (length docs = length embeddings /\
   forallb (has_width (d (index store))) embeddings = true /\
   store' = {| dimension := dimension store;
               index := {| d := d (index store);
                           xb := xb (index store) ++ embeddings |};
               documents := documents store ++ docs |}).
Proof.
  unfold add_documents, IndexFlatL2.add.
  destruct (is_empty docs || is_empty embeddings); [intros [= <-]; now left|].
  destruct (Z.eqb_spec (len docs) (len embeddings)) as [Hlen|];
    cbn [negb]; [|discriminate].
  destruct (np_array embeddings) as [rows|e] eqn:Harray; cbn [bind];
    [|discriminate].
  apply RagTheory.np_array_ok in Harray. subst rows.
  destruct (forallb (has_width (d (index store))) embeddings) eqn:Hw;
    cbn [bind]; [|discriminate].
  intros [= <-]. right. unfold len in Hlen.
  split; [lia|]. split; reflexivity.
Qed.

Lemma add_documents_aligned (store store' : t) (docs : list Document)
  (embeddings : list Vector) :
  aligned store -> add_documents store docs embeddings = Ok store' ->
  aligned store'.
Proof.
  intros [Hlen Hwidth] Hadd.
  destruct (add_documents_inv _ _ _ _ Hadd) as [->|(Hsame & Hw & ->)];
    [now split|].
  split; cbn [documents index xb d].
  - rewrite !length_app. lia.
  - rewrite forallb_app, Hwidth, Hw. reflexivity.
Qed.

(** X6: the documents and the vectors of a store stay in pairs. A new
    store is aligned (as many documents as vectors, every vector of the
    dimension of the index); [add_documents] keeps a store aligned
    whenever it returns, and so does [ingest_documents], whether it
    succeeds or raises. *)
Theorem alignment_kept :
  (forall dim, aligned (init dim)) /\
  (forall store docs embeddings store',
     aligned store -> add_documents store docs embeddings = Ok store' ->
     aligned store') /\
  (forall fuel rag paths out,
     aligned (RAGSystem.vector_store rag) ->
     RAGSystem.ingest_documents fuel rag paths = Some out ->
     aligned (RAGSystem.vector_store (fst out))).
Proof.
  split; [|split].
  - intros dim. split; reflexivity.
  - intros store docs embeddings store'. apply add_documents_aligned.
  - intros fuel rag paths out Hal. unfold RAGSystem.ingest_documents.
    destruct (RAGSystem.process_all fuel paths []) as [all_documents|];
      [|discriminate].
    destruct (is_empty all_documents); [now intros [= <-]|].
    destruct (EmbeddingGenerator.generate_embeddings (map content all_documents))
      as [calls [embeddings|e]]; [|now intros [= <-]].
    destruct (add_documents (RAGSystem.vector_store rag) all_documents embeddings)
      as [store'|e] eqn:Hadd; [|now intros [= <-]].
    intros [= <-]. cbn [fst RAGSystem.vector_store].
    exact (add_documents_aligned _ _ _ _ Hal Hadd).
Qed.

Lemma insert_by_score_perm (x : Scalar * Z) (l : list (Scalar * Z)) :
  insert_by_score x l ≡ₚ x :: l.
Proof.
  induction l as [|y l IH]; cbn [insert_by_score]; [reflexivity|].
  destruct (score_le (fst x) (fst y)); [reflexivity|].
  rewrite IH. apply Permutation_swap.
Qed.

(** Every pair of the ranking is the distance and the position of one
    stored vector. *)
Lemma ranked_from_entries (i : Z) (query : Vector) (vectors : list Vector) :
  Forall (fun p =>
            i <= snd p < i + len vectors /\
            exists v, vectors !! Z.to_nat (snd p - i) = Some v /\
                      fst p = l2_distance query v)
    (ranked_from i query vectors).
Proof.
  revert i. induction vectors as [|v vectors IH]; intros i;
    cbn [ranked_from]; [constructor|].
  assert (Hlen : len (v :: vectors) = 1 + len vectors)
    by (unfold len; cbn [length]; lia).
  pose proof (RagTheory.len_nonneg vectors) as Hpos.
  apply RagTheory.insert_by_score_Forall.
  - cbn [fst snd]. split; [lia|]. exists v.
    replace (i - i) with 0 by lia. split; reflexivity.
  - eapply Forall_impl; [apply (IH (i + 1))|].
    intros p ((Hlo & Hhi) & w & Hw & Hp). split; [lia|]. exists w.
    split; [|exact Hp].
    replace (Z.to_nat (snd p - i)) with (S (Z.to_nat (snd p - (i + 1)))) by lia.
    exact Hw.
Qed.

Lemma ranked_from_NoDup (i : Z) (query : Vector) (vectors : list Vector) :
  NoDup (map snd (ranked_from i query vectors)).
Proof.
  revert i. induction vectors as [|v vectors IH]; intros i;
    cbn [ranked_from]; [constructor|].
  change (map snd) with (fmap (M := list) (@snd Scalar Z)).
  rewrite insert_by_score_perm, fmap_cons. cbn [snd].
  apply NoDup_cons. split; [|apply IH].
  intros Hin. apply list_elem_of_fmap in Hin as (p & Hp & Hin).
  pose proof (ranked_from_entries (i + 1) query vectors) as Hall.
  rewrite Forall_forall in Hall. destruct (Hall p Hin) as ((Hlo & _) & _). lia.
Qed.

(** Every stored vector has its pair in the ranking. *)
Lemma ranked_from_covers (query : Vector) (vectors : list Vector) :
  forall (i : Z) (j : nat) (v : Vector),
    vectors !! j = Some v ->
    (l2_distance query v, i + Z.of_nat j) ∈ ranked_from i query vectors.
Proof.
  induction vectors as [|w vectors IH]; intros i j v Hj;
    [now rewrite lookup_nil in Hj|].
  cbn [ranked_from]. rewrite insert_by_score_perm.
  destruct j as [|j]; simpl in Hj.
  - injection Hj as ->. replace (i + Z.of_nat 0) with i by lia.
    apply list_elem_of_here.
  - apply list_elem_of_further.
    replace (i + Z.of_nat (S j)) with (i + 1 + Z.of_nat j) by lia.
    now apply IH.
Qed.

Lemma results_of_entries (docs : list Document) (vectors : list Vector)
  (query : Vector) (found : list (Scalar * Z)) :
  length docs = length vectors ->
  Forall (fun p =>
            0 <= snd p < 0 + len vectors /\
            exists v, vectors !! Z.to_nat (snd p - 0) = Some v /\
                      fst p = l2_distance query v) found ->
  Forall2 (fun p r =>
             docs !! Z.to_nat (snd p) = Some (document r) /\
             exists v, vectors !! Z.to_nat (snd p) = Some v /\
                       score r = l2_distance query v)
    found (omap (result_of docs) found).
Proof.
  intros Hlen Hall.
  induction Hall as [|p found ((Hlo & Hhi) & v & Hv & Hp) Hall IH];
    [constructor|].
  rewrite Z.sub_0_r in Hv.
  assert (Hdoc : is_Some (docs !! Z.to_nat (snd p))).
  { apply lookup_lt_is_Some. unfold len in Hhi. lia. }
  destruct Hdoc as [doc Hdoc].
  assert (Hr : result_of docs p = Some {| document := doc; score := fst p |}).
  { unfold result_of. rewrite Hdoc.
    destruct (Z.ltb_spec (snd p) (len docs)) as [|Hout]; [reflexivity|].
    unfold len in Hout, Hhi. lia. }
  cbn. rewrite Hr. constructor; [|exact IH].
  cbn [document score]. split; [exact Hdoc|]. now exists v.
Qed.

(** X7: on an aligned store, for a query of the dimension of the index
    and a positive [top_k], [search] returns exactly [min(top_k, ntotal)]
    results, and they are that many different entries of the store: each
    result carries the document of one position and the distance from the
    query to the vector of that position, no position twice. *)
Theorem search_exact (store : t) (query : Vector) (top_k : Z) :
  aligned store ->
  has_width (d (index store)) query = true ->
  0 < top_k ->
  exists results positions,
    search store query top_k = Ok results /\
    length results = Z.to_nat (Z.min top_k (ntotal (index store))) /\
    NoDup positions /\
    Forall2 (fun (position : nat) r =>
               documents store !! position = Some (document r) /\
               exists v, xb (index store) !! position = Some v /\
                         score r = l2_distance query v)
      positions results.
Proof.
  intros [Hlen Hwidth] Hw Hk.
  destruct (Z.eq_dec (ntotal (index store)) 0) as [Hn|Hn].
  - exists [], []. unfold search. rewrite Hn. cbn.
    split; [reflexivity|]. split; [lia|]. split; constructor.
  - set (n := Z.to_nat (Z.min top_k (ntotal (index store)))).
    set (found := take n (ranked_from 0 query (xb (index store)))).
    exists (omap (result_of (documents store)) found),
           (Z.to_nat <$> (snd <$> found)).
    assert (Hfound : Forall2 (fun p r =>
               documents store !! Z.to_nat (snd p) = Some (document r) /\
               exists v, xb (index store) !! Z.to_nat (snd p) = Some v /\
                         score r = l2_distance query v)
              found (omap (result_of (documents store)) found)).
    { apply results_of_entries; [exact Hlen|].
      apply Forall_take, ranked_from_entries. }
    split; [now apply RagTheory.search_spec|].
    split; [|split].
    + rewrite <- (Forall2_length _ _ _ Hfound). unfold found.
      rewrite length_take, RagTheory.ranked_from_length.
      unfold n, ntotal, len. lia.
    + assert (Hpos : forall x, x ∈ snd <$> found -> 0 <= x).
      { intros x Hx. apply list_elem_of_fmap in Hx as (p & -> & Hp).
        assert (Hin : p ∈ ranked_from 0 query (xb (index store)))
          by (eapply elem_of_sublist; [exact Hp|apply sublist_take]).
        pose proof (ranked_from_entries 0 query (xb (index store))) as Hall.
        rewrite Forall_forall in Hall. destruct (Hall p Hin) as ((Hlo & _) & _).
        exact Hlo. }
      apply NoDup_fmap_2_strong.
      * intros x y Hx Hy Heq. apply Hpos in Hx, Hy. lia.
      * eapply sublist_NoDup;
          [exact (ranked_from_NoDup 0 query (xb (index store)))|].
        unfold found. apply fmap_sublist, sublist_take.
    + apply Forall2_fmap_l, Forall2_fmap_l. exact Hfound.
Qed.

Lemma sorted_app_le {A} (R : A -> A -> Prop) (l1 l2 : list A) (x y : A) :
  StronglySorted R (l1 ++ l2) -> x ∈ l1 -> y ∈ l2 -> R x y.
Proof.
  induction l1 as [|a l1 IH]; cbn [app]; intros Hs Hx Hy.
  - now apply elem_of_nil in Hx.
  - apply StronglySorted_inv in Hs as [Hs Ha].
    apply elem_of_cons in Hx as [->|Hx]; [|now apply IH].
    rewrite Forall_forall in Ha. apply Ha, elem_of_app. now right.
Qed.

(** X8: what [search] leaves out is no nearer than what it returns. For
    a positive [top_k] and a query of the dimension of the index, a stored
    document that does not appear among the results with its distance is
    at least as far from the query as every result. The order of distances
    is assumed to be a total preorder. *)
Theorem search_nearest (store : t) (query : Vector) (top_k : Z)
  (results : list SearchResult) :
  total_preorder ->
  has_width (d (index store)) query = true ->
  0 < top_k ->
  search store query top_k = Ok results ->
  forall (j : nat) (doc : Document) (v : Vector) (r : SearchResult),
    documents store !! j = Some doc ->
    xb (index store) !! j = Some v ->
    (forall r', r' ∈ results ->
       ~ (document r' = doc /\ score r' = l2_distance query v)) ->
    r ∈ results ->
    score_le (score r) (l2_distance query v) = true.
Proof.
  intros Hord Hw Hk Hres j doc v r Hdoc Hv Hout Hr.
  assert (Hn : ntotal (index store) <> 0).
  { intros Hn. unfold ntotal, len in Hn.
    destruct (xb (index store)); [now rewrite lookup_nil in Hv|].
    cbn [length] in Hn. lia. }
  rewrite RagTheory.search_spec in Hres by assumption. injection Hres as <-.
  set (n := Z.to_nat (Z.min top_k (ntotal (index store)))) in *.
  set (ranked := ranked_from 0 query (xb (index store))) in *.
  assert (Hpair : (l2_distance query v, 0 + Z.of_nat j) ∈ ranked)
    by now apply ranked_from_covers.
  rewrite <- (take_drop n ranked) in Hpair.
  apply elem_of_app in Hpair as [Htaken|Hleft].
  - exfalso.
    apply (Hout {| document := doc; score := l2_distance query v |});
      [|now split].
    apply list_elem_of_omap. eexists. split; [exact Htaken|].
    unfold result_of. cbn [fst snd].
    replace (Z.to_nat (0 + Z.of_nat j)) with j by lia. rewrite Hdoc.
    destruct (Z.ltb_spec (0 + Z.of_nat j) (len (documents store))) as [|Hge];
      [reflexivity|].
    apply lookup_lt_Some in Hdoc. unfold len in Hge. lia.
  - apply list_elem_of_omap in Hr as (p & Hp & Hpr).
    apply RagTheory.result_of_score in Hpr. rewrite Hpr.
    change (by_distance p (l2_distance query v, 0 + Z.of_nat j)).
    apply (sorted_app_le by_distance (take n ranked) (drop n ranked));
      [|exact Hp|exact Hleft].
    rewrite take_drop. now apply RagTheory.ranked_from_sorted.
Qed.

End Store.

(** ** RAGSystem.search, load_index and failed ingestions *)

Section System.
Context `{World}.
Import RAGSystem.

(** X9: a search on an initialized system sends one embedding request,
    for the query text. When the request fails, or answers without a
    vector, the search raises a [ValueError] "Error generating embedding";
    otherwise the store is searched with the first vector of the answer.
    A [top_k] of 0 counts as not given: the configured [top_k_results] is
    used. *)
Theorem search_initialized (rag : t) (query : str) (top_k : option Z) :
  is_initialized rag = true ->
  fst (search rag query top_k) = [InputText query] /\
  (forall cause,
     embeddings_create (InputText query) = Raise cause ->
     snd (search rag query top_k)
     = Raise (ValueError (lit "Error generating embedding: " ++ exn_str cause))) /\
  (embeddings_create (InputText query) = Ok [] ->
   snd (search rag query top_k)
   = Raise (ValueError (lit "Error generating embedding: list index out of range"))) /\
  (forall v others,
     embeddings_create (InputText query) = Ok (v :: others) ->
     snd (search rag query top_k)
     = FAISSVectorStore.search (vector_store rag) v
         (match top_k with
          | Some k => if k =? 0 then top_k_results settings else k
          | None => top_k_results settings
          end)) /\
  search rag query (Some 0) = search rag query None.
Proof.
  intros Hinit. unfold search, EmbeddingGenerator.generate_embedding.
  rewrite Hinit. cbn [negb fst snd].
  split; [reflexivity|]. split; [|split; [|split]].
  - intros cause ->. reflexivity.
  - intros ->. reflexivity.
  - intros v others ->. reflexivity.
  - reflexivity.
Qed.

(** X10: [load_index] looks for faiss.index and documents.pkl under the
    base path. When either is missing it returns [False] and changes
    nothing; when it returns [True] the system is initialized and holds
    the vectors and documents read from the two files; and however it
    ends, a system that was initialized stays initialized. *)
Theorem load_index_outcomes (rag : t) (base_path : str) :
  (path_exists (path_join base_path (lit "faiss.index"))
   && path_exists (path_join base_path (lit "documents.pkl")) = false ->
   load_index rag base_path = (rag, Ok false)) /\
  (forall rag',
     load_index rag base_path = (rag', Ok true) ->
     is_initialized rag' = true /\
     exists dim vectors,
       read_index (path_join base_path (lit "faiss.index")) = Ok (dim, vectors) /\
       IndexFlatL2.xb (FAISSVectorStore.index (vector_store rag')) = vectors /\
       IndexFlatL2.d (FAISSVectorStore.index (vector_store rag')) = dim /\
       read_documents (path_join base_path (lit "documents.pkl"))
       = Ok (FAISSVectorStore.documents (vector_store rag'))) /\
  (forall rag' r,
     load_index rag base_path = (rag', r) ->
     is_initialized rag = true -> is_initialized rag' = true).
Proof.
  unfold load_index, FAISSVectorStore.load. split; [|split].
  - intros ->. now destruct rag.
  - intros rag'.
    destruct (path_exists _ && path_exists _); [|discriminate].
    destruct (read_index _) as [[dim vectors]|e]; [|discriminate].
    destruct (read_documents _) as [docs|e]; [|discriminate].
    intros [= <-]. cbn. split; [reflexivity|]. now exists dim, vectors.
  - intros rag' r.
    destruct (path_exists _ && path_exists _).
    + destruct (read_index _) as [[dim vectors]|e].
      * destruct (read_documents _) as [docs|e]; now intros [= <- <-].
      * now intros [= <- <-].
    + now intros [= <- <-].
Qed.


End System.

(** ** In the sample world *)

(** X7 on the store of three entries: two results for [top_k = 2]. *)
Lemma search_exact_witness :
  exists (results : list FAISSVectorStore.SearchResult) (positions : list nat),
    FAISSVectorStore.search Sample.small_store [0; 0] 2 = Ok results /\
    length results = 2%nat /\ NoDup positions /\
    length positions = length results.
Proof.
  destruct (search_exact Sample.small_store [0; 0] 2)
    as (results & positions & Hres & Hlen & Hnodup & Hall);
    [split; reflexivity|reflexivity|lia|].
  exists results, positions. split; [exact Hres|]. split; [exact Hlen|].
  split; [exact Hnodup|]. exact (Forall2_length _ _ _ Hall).
Defined.

(** X8 on the same store: the entry at distance 50 is left out, and the
    result at distance 18 is no farther. *)
Lemma search_nearest_witness :
  FAISSVectorStore.search Sample.small_store [0; 0] 2
    = Ok [{| FAISSVectorStore.document := Sample.doc (lit "b");
             FAISSVectorStore.score := 1 |};
          {| FAISSVectorStore.document := Sample.doc (lit "c");
             FAISSVectorStore.score := 18 |}] /\
  score_le 18 (l2_distance [0; 0] [5; 5]) = true.
Proof.
  assert (Hres : FAISSVectorStore.search Sample.small_store [0; 0] 2
      = Ok [{| FAISSVectorStore.document := Sample.doc (lit "b");
               FAISSVectorStore.score := 1 |};
            {| FAISSVectorStore.document := Sample.doc (lit "c");
               FAISSVectorStore.score := 18 |}])
    by (vm_compute; reflexivity).
  split; [exact Hres|].
  apply (@search_nearest Sample.world Sample.small_store [0; 0] 2 _
           RagTheory.sample_total_preorder eq_refl ltac:(lia) Hres 0%nat
           (Sample.doc (lit "a")) [5; 5]
           (@FAISSVectorStore.Build_SearchResult Sample.world
              (Sample.doc (lit "c")) 18) eq_refl eq_refl).
  - intros r' Hin [_ Hscore].
    apply elem_of_cons in Hin as [->|Hin]; [discriminate Hscore|].
    apply list_elem_of_singleton in Hin as ->. discriminate Hscore.
  - apply list_elem_of_further, list_elem_of_here.
Defined.

(** X9 on an initialized system that holds the store of three entries. *)
Lemma search_initialized_witness :
  fst (RAGSystem.search
         {| RAGSystem.vector_store := Sample.small_store;
            RAGSystem.is_initialized := true |} (lit "leave") (Some 0))
  = [InputText (lit "leave")].
Proof.
  exact (proj1 (search_initialized
                  {| RAGSystem.vector_store := Sample.small_store;
                     RAGSystem.is_initialized := true |}
                  (lit "leave") (Some 0) eq_refl)).
Defined.


(** ** Searching what was ingested *)

Section Composition.
Context `{World}.
Import IndexFlatL2 FAISSVectorStore.

Lemma getitem_elem {A} (l : list A) (idx : Z) (a : A) :
  getitem l idx = Ok a -> a ∈ l.
Proof.
  unfold getitem.
  destruct ((if idx <? 0 then idx + len l else idx) <? 0); [discriminate|].
  destruct (l !! Z.to_nat (if idx <? 0 then idx + len l else idx)) as [x|] eqn:Hx;
    [|discriminate].
  intros [= <-]. eapply list_elem_of_lookup_2. exact Hx.
Qed.

Lemma collect_results_elem (docs : list Document) (found : list (Scalar * Z)) :
  forall acc results,
    collect_results docs found acc = Ok results ->
    Forall (fun r => document r ∈ docs) acc ->
    Forall (fun r => document r ∈ docs) results.
Proof.
  induction found as [|[distance idx] found IH]; intros acc results;
    cbn [collect_results].
  - now intros [= <-].
  - destruct (idx <? len docs); [|apply IH].
    destruct (getitem docs idx) as [doc|e] eqn:Hdoc; cbn [bind]; [|discriminate].
    intros Hrest Hacc. apply (IH _ _ Hrest).
    apply Forall_app. split; [exact Hacc|].
    constructor; [|constructor]. cbn [document]. now apply getitem_elem in Hdoc.
Qed.

Lemma system_search_elem (rag : RAGSystem.t) (query : str) (top_k : option Z)
  (results : list SearchResult) :
  snd (RAGSystem.search rag query top_k) = Ok results ->
  Forall (fun r => document r ∈ documents (RAGSystem.vector_store rag)) results.
Proof.
  unfold RAGSystem.search.
  destruct (negb (RAGSystem.is_initialized rag)); [now intros [= <-]|].
  unfold EmbeddingGenerator.generate_embedding. cbn [snd].
  destruct (try_except _ _) as [query_embedding|e]; cbn [bind]; [|discriminate].
  unfold search.
  destruct (ntotal (index (RAGSystem.vector_store rag)) =? 0);
    [now intros [= <-]|].
  destruct (IndexFlatL2.search _ _ _) as [found|e]; cbn [bind]; [|discriminate].
  intros Hres. now apply (collect_results_elem _ _ _ _ Hres).
Qed.

Lemma ingest_documents_added (fuel : nat) (rag rag' : RAGSystem.t)
  (paths : list str) (calls : list embed_input) (res : RAGSystem.IngestResult) :
  RAGSystem.ingest_documents fuel rag paths = Some (rag', (calls, Ok res)) ->
  RAGSystem.is_initialized rag' = true /\
  (documents (RAGSystem.vector_store rag')
   = documents (RAGSystem.vector_store rag) \/
   documents (RAGSystem.vector_store rag')
   = documents (RAGSystem.vector_store rag) ++ chunks_of fuel paths).
Proof.
  unfold RAGSystem.ingest_documents.
  destruct (RAGSystem.process_all fuel paths []) as [all_documents|] eqn:Hall;
    [|discriminate].
  apply RagTheory.process_all_spec in Hall. cbn [app] in Hall. subst all_documents.
  destruct (is_empty (chunks_of fuel paths)); [discriminate|].
  destruct (EmbeddingGenerator.generate_embeddings _) as [calls' [embeddings|e]];
    [|discriminate].
  destruct (add_documents (RAGSystem.vector_store rag) (chunks_of fuel paths)
              embeddings) as [store'|e] eqn:Hadd; [|discriminate].
  intros [= <- _ _]. cbn [RAGSystem.is_initialized RAGSystem.vector_store].
  split; [reflexivity|].
  destruct (add_documents_inv _ _ _ _ Hadd) as [->|(_ & _ & ->)];
    [now left|now right].
Qed.

(** X28: what a search returns after an ingestion. Once
    [ingest_documents] has succeeded the system is initialized, a search
    sends its embedding request, and every result it returns carries a
    document that was in the store before or is a chunk of one of the
    paths processed by that ingestion. *)
Theorem search_after_ingest (fuel : nat) (rag rag' : RAGSystem.t)
  (paths : list str) (calls : list embed_input) (res : RAGSystem.IngestResult)
  (query : str) (top_k : option Z) (results : list SearchResult) :
  RAGSystem.ingest_documents fuel rag paths = Some (rag', (calls, Ok res)) ->
  snd (RAGSystem.search rag' query top_k) = Ok results ->
  fst (RAGSystem.search rag' query top_k) = [InputText query] /\
  Forall (fun r =>
            document r
            ∈ documents (RAGSystem.vector_store rag) ++ chunks_of fuel paths)
    results.
Proof.
  intros Hingest Hsearch.
  destruct (ingest_documents_added _ _ _ _ _ _ Hingest) as [Hinit Hdocs].
  split.
  - unfold RAGSystem.search, EmbeddingGenerator.generate_embedding.
    now rewrite Hinit.
  - apply system_search_elem in Hsearch.
    eapply Forall_impl; [exact Hsearch|]. intros r Hr. cbn beta in Hr.
    apply elem_of_app. destruct Hdocs as [Hsame|Hadded].
    + left. now rewrite <- Hsame.
    + rewrite Hadded in Hr. now apply elem_of_app in Hr.
Qed.

End Composition.

(** X28 in the world of narrow embeddings: the chunk of notes.txt is
    found. *)
Lemma search_after_ingest_witness :
  exists rag' calls res results,
    @RAGSystem.ingest_documents narrow_world 5
      {| RAGSystem.vector_store := @FAISSVectorStore.init narrow_world 2;
         RAGSystem.is_initialized := false |} Sample.sample_paths
    = Some (rag', (calls, Ok res)) /\
    snd (@RAGSystem.search narrow_world rag' (lit "leave") (Some 3)) = Ok results /\
    map (fun r => content (FAISSVectorStore.document r)) results
    = [lit "Leave is 15 days. Ask HR."].
Proof.
  destruct (@RAGSystem.ingest_documents narrow_world 5
              {| RAGSystem.vector_store := @FAISSVectorStore.init narrow_world 2;
                 RAGSystem.is_initialized := false |} Sample.sample_paths)
    as [[rag' [calls [res|e]]]|] eqn:Hingest;
    [|vm_compute in Hingest; discriminate Hingest
     |vm_compute in Hingest; discriminate Hingest].
  destruct (snd (@RAGSystem.search narrow_world rag' (lit "leave") (Some 3)))
    as [results|e] eqn:Hsearch.
  - pose proof (@search_after_ingest narrow_world 5 _ rag' _ calls res
                  (lit "leave") (Some 3) results Hingest Hsearch) as [_ Hall].
    exists rag', calls, res, results.
    split; [reflexivity|]. split; [exact Hsearch|].
    vm_compute in Hingest. injection Hingest as <- _ _.
    vm_compute in Hsearch. injection Hsearch as <-. reflexivity.
  - vm_compute in Hingest. injection Hingest as <- _ _.
    vm_compute in Hsearch. discriminate Hsearch.
Defined.

End RagFacts.

(* ===================================================================== *)
(** * Further facts: app/agent.py *)
(* ===================================================================== *)

Module AgentFacts.
Import Py Agent Stated Notions AgentNotions.
Import AgentMemory AIAgent.

(** ** AgentMemory *)

Section Memory.

Lemma add_messages_lookup (msgs : list Message) :
  forall (sessions : AgentMemory.t) (sid : str),
    default [] (add_messages sessions sid msgs !! sid)
    = default [] (sessions !! sid) ++ msgs /\
    forall other, other <> sid ->
      add_messages sessions sid msgs !! other = sessions !! other.
Proof.
  induction msgs as [|msg msgs IH]; intros sessions sid; cbn [add_messages fold_left].
  - split; [now rewrite app_nil_r|reflexivity].
  - destruct (IH (AgentMemory.add_message sessions sid (role msg) (content msg)
                    (timestamp msg) (Some (metadata msg))) sid) as [Hsame Hother].
    fold (add_messages
            (AgentMemory.add_message sessions sid (role msg) (content msg)
               (timestamp msg) (Some (metadata msg))) sid msgs).
    split.
    + rewrite Hsame, AgentTheory.history_add_message, <- app_assoc.
      now destruct msg.
    + intros other Hne. rewrite Hother by exact Hne.
      apply AgentTheory.lookup_add_message_other. congruence.
Qed.

(** X12: what is added to a session is what is read back. After
    [add_message] has been called for each of a list of messages, the
    history of the session is its former history followed by those
    messages, in the order of the calls and unchanged; on a session just
    cleared, or never written, it is those messages alone; and the other
    sessions are as before. *)
Theorem history_appends (sessions : AgentMemory.t) (sid : str)
  (msgs : list Message) :
  AgentMemory.get_history (add_messages sessions sid msgs) sid None
  = AgentMemory.get_history sessions sid None ++ msgs /\
  AgentMemory.get_history
    (add_messages (AgentMemory.clear_session sessions sid) sid msgs) sid None
  = msgs /\
  (sessions !! sid = None ->
   AgentMemory.get_history (add_messages sessions sid msgs) sid None = msgs) /\
  forall other limit,
    other <> sid ->
    AgentMemory.get_history (add_messages sessions sid msgs) other limit
    = AgentMemory.get_history sessions other limit.
Proof.
  unfold AgentMemory.get_history. split; [|split; [|split]].
  - apply add_messages_lookup.
  - rewrite (proj1 (add_messages_lookup msgs _ sid)).
    now rewrite AgentTheory.lookup_clear_session.
  - intros Hnew. rewrite (proj1 (add_messages_lookup msgs _ sid)).
    now rewrite Hnew.
  - intros other limit Hne.
    now rewrite (proj2 (add_messages_lookup msgs sessions sid) other Hne).
Qed.

(** X13: a negative limit does not count from the end: [get_history] with
    the limit [n < 0] returns the history without its first [-n]
    messages (nothing when the history is no longer than that). *)
Theorem get_history_negative_limit (sessions : AgentMemory.t) (sid : str)
  (n : Z) :
  n < 0 ->
  AgentMemory.get_history sessions sid (Some n)
  = drop (Z.to_nat (- n)) (default [] (sessions !! sid)).
Proof.
  intros Hn. unfold AgentMemory.get_history, slice_from, adjust_index.
  destruct (Z.eqb_spec n 0) as [|_]; [lia|].
  destruct (Z.ltb_spec (- n) 0) as [|_]; [lia|].
  set (history := default [] (sessions !! sid)).
  destruct (Z.le_gt_cases (- n) (len history)) as [Hle|Hgt].
  - now rewrite Z.min_l by exact Hle.
  - rewrite Z.min_r by lia. unfold len in *.
    rewrite !drop_ge by lia. reflexivity.
Qed.

End Memory.

(** ** _should_use_rag and the tools *)

Section Tools.
Context `{World}.

Lemma startswith_spec (pat : str) :
  forall s, startswith s pat = true <-> exists post, s = pat ++ post.
Proof.
  induction pat as [|p pat IH]; intros s.
  - destruct s; cbn; (split; [intros _; eexists; reflexivity|reflexivity]).
  - destruct s as [|c s]; cbn [startswith].
    + split; [discriminate|]. intros [post Hpost]. discriminate Hpost.
    + rewrite andb_true_iff, N.eqb_eq, IH. split.
      * intros [-> [post ->]]. now exists post.
      * intros [post [= -> ->]]. split; [reflexivity|now exists post].
Qed.

Lemma contains_spec (pat : str) :
  forall s, contains s pat = true <-> occurs_in pat s.
Proof.
  unfold occurs_in. induction s as [|c s IH].
  - cbn [contains]. rewrite orb_false_r, startswith_spec. split.
    + intros [post Hpost]. now exists [], post.
    + intros (pre & post & Hs). destruct pre; [now exists post|discriminate Hs].
  - cbn [contains]. rewrite orb_true_iff, startswith_spec, IH. split.
    + intros [[post Hpost]|(pre & post & ->)].
      * now exists [], post.
      * now exists (c :: pre), post.
    + intros (pre & post & Hs). destruct pre as [|c' pre].
      * left. now exists post.
      * right. injection Hs as -> ->. now exists pre, post.
Qed.

(** X14: [_should_use_rag] accepts a query exactly when one of the thirty
    keywords occurs in the lower-cased query as a run of consecutive
    characters, inside a longer word as well as on its own. *)
Theorem should_use_rag_spec (query : str) :
  _should_use_rag query = true <->
  exists keyword, keyword ∈ doc_keywords /\ occurs_in keyword (str_lower query).
Proof.
  unfold _should_use_rag. rewrite existsb_exists. split.
  - intros (keyword & Hin & Hocc). exists keyword.
    split; [now apply list_elem_of_In|now apply contains_spec].
  - intros (keyword & Hin & Hocc). exists keyword.
    split; [now apply list_elem_of_In|now apply contains_spec].
Qed.

Lemma slice_to_take {A} (l : list A) (n : Z) :
  0 <= n -> slice_to l n = take (Z.to_nat n) l.
Proof.
  intros Hn. unfold slice_to, adjust_index.
  destruct (Z.ltb_spec n 0) as [|_]; [lia|].
  destruct (Z.le_gt_cases n (len l)) as [Hle|Hgt].
  - now rewrite Z.min_l by exact Hle.
  - rewrite Z.min_r by lia. unfold len in *.
    rewrite !take_ge by lia. reflexivity.
Qed.

(** X15: the document-search tool never raises. A failed search gives
    "Error searching documents: " and the text of the exception, an empty
    result "No relevant documents found."; otherwise there is one line for
    each result, numbered from 1 in the order of the results, with the
    first 200 characters of the content, "..." whether or not anything was
    cut, and the source; the lines are separated by an empty line. *)
Theorem search_documents_text (query : value) :
  match rag_search query with
  | Raise e =>
      AgentTools.search_documents query
      = Ok (lit "Error searching documents: " ++ exn_str e)
  | Ok [] =>
      AgentTools.search_documents query = Ok (lit "No relevant documents found.")
  | Ok results =>
      exists lines,
        AgentTools.search_documents query = Ok (join [10%N; 10%N] lines) /\
        length lines = length results /\
        forall (i : nat) (r : Rag.Document),
          results !! i = Some r ->
          lines !! i
          = Some (str_of_nat (S i) ++ lit ". " ++ take 200 (Rag.content r)
                  ++ lit "... (Source: " ++ Rag.source r ++ lit ")")
  end.
Proof.
  unfold AgentTools.search_documents.
  destruct (rag_search query) as [[|r0 results]|e]; cbn [bind try_except];
    [reflexivity| |reflexivity].
  cbn [Rag.is_empty].
  exists (imap (fun i r => AgentTools.format_result (S i) r) (r0 :: results)).
  split; [reflexivity|]. split; [apply length_imap|].
  intros i r Hr. rewrite list_lookup_imap, Hr. cbn [fmap option_fmap option_map].
  unfold AgentTools.format_result. now rewrite slice_to_take by lia.
Qed.

End Tools.

Section Keeps.
Variable R : state -> state -> Prop.
Hypothesis R_refl : forall s, R s s.
Hypothesis R_trans : forall s1 s2 s3, R s1 s2 -> R s2 s3 -> R s1 s3.

Lemma keeps_ret {A} (a : A) : keeps R (ret a).
Proof. intros s. apply R_refl. Qed.

Lemma keeps_lift {A} (r : outcome A) : keeps R (lift r).
Proof. intros s. apply R_refl. Qed.

Lemma keeps_bind {A B} (m : M A) (k : A -> M B) :
  keeps R m -> (forall a, keeps R (k a)) -> keeps R (mbind m k).
Proof.
  intros Hm Hk s. unfold mbind. specialize (Hm s).
  destruct (m s) as [s' [a|e]]; cbn [fst] in Hm; [|exact Hm].
  exact (R_trans _ _ _ Hm (Hk a s')).
Qed.

Lemma keeps_try {A} (m : M A) (h : exn -> M A) :
  keeps R m -> (forall e, keeps R (h e)) -> keeps R (mtry m h).
Proof.
  intros Hm Hh s. unfold mtry. specialize (Hm s).
  destruct (m s) as [s' [a|e]]; cbn [fst] in Hm; [exact Hm|].
  exact (R_trans _ _ _ Hm (Hh e s')).
Qed.

(** Two steps taken together, then the rest. *)
Lemma keeps_bind_pair {A B C} (m : M A) (k : A -> M B) (h : A -> B -> M C) :
  keeps R (mbind m k) -> (forall a b, keeps R (h a b)) ->
  keeps R (mbind m (fun a => mbind (k a) (h a))).
Proof.
  intros Hmk Hh s. specialize (Hmk s). unfold mbind in *.
  destruct (m s) as [s1 [a|e]]; [|exact Hmk].
  destruct (k a s1) as [s2 [b|e]]; cbn [fst] in Hmk; [|exact Hmk].
  exact (R_trans _ _ _ Hmk (Hh a b s2)).
Qed.

Context `{World}.
Hypothesis R_message : forall m, keeps R (append_message m).
Hypothesis R_source : forall x, keeps R (append_source x).
Hypothesis R_completion : forall tools, keeps R (create_completion tools).
Hypothesis R_tool : forall rag_system name args,
  keeps R (mbind (_execute_tool rag_system name args)
             (fun r => append_tool_call
                         {| tool := name; arguments := args; result := r |})).

Lemma keeps_execute_tool_calls (rag_system : bool) (calls : list ToolCall) :
  keeps R (execute_tool_calls rag_system calls).
Proof.
  induction calls as [|call calls IH]; cbn [execute_tool_calls]; [apply keeps_ret|].
  apply keeps_bind; [apply keeps_lift|]. intros function_args.
  apply (keeps_bind_pair _
           (fun r => append_tool_call
                       {| tool := function_name call; arguments := function_args;
                          result := r |})); [apply R_tool|].
  intros tool_result _.
  apply keeps_bind; [apply R_message|]. intros _.
  apply keeps_bind; [|intros _; exact IH].
  destruct (str_eqb (function_name call) (lit "search_documents"));
    [|apply keeps_ret].
  apply keeps_bind; [apply keeps_lift|]. intros query. apply R_source.
Qed.

Lemma keeps_structured_path (rag_system : bool) (message : ChatResponse) :
  keeps R (structured_path rag_system message).
Proof.
  unfold structured_path.
  apply keeps_bind; [apply R_message|]. intros _.
  apply keeps_bind; [apply keeps_execute_tool_calls|]. intros _.
  apply keeps_bind; [apply R_message|]. intros _.
  apply keeps_bind; [apply R_completion|]. intros final.
  apply keeps_ret.
Qed.

Lemma keeps_manual_tool_call (rag_system : bool) (original : str)
  (tool_data : value) : keeps R (manual_tool_call rag_system original tool_data).
Proof.
  unfold manual_tool_call.
  apply keeps_bind; [apply keeps_lift|]. intros function_args.
  apply (keeps_bind_pair _
           (fun r => append_tool_call
                       {| tool := lit "search_documents";
                          arguments := decode_string_arguments function_args;
                          result := r |})); [apply R_tool|].
  intros tool_result _.
  apply keeps_bind; [apply keeps_lift|]. intros query.
  apply keeps_bind; [apply R_source|]. intros _.
  apply keeps_bind; [apply R_message|]. intros _.
  apply keeps_bind; [apply R_message|]. intros _.
  apply keeps_bind; [apply R_completion|]. intros final.
  apply keeps_ret.
Qed.

Lemma keeps_fallback_path (rag_system : bool) (original : str) :
  keeps R (fallback_path rag_system original).
Proof.
  unfold fallback_path. apply keeps_try; [|intros _; apply keeps_ret].
  destruct (re_search_json (clean_content original)) as [json_str|];
    [|apply keeps_ret].
  apply keeps_try; [|intros _; apply keeps_ret].
  apply keeps_bind; [apply keeps_lift|]. intros tool_data.
  apply keeps_bind; [apply keeps_lift|]. intros [call|];
    [apply keeps_manual_tool_call|apply keeps_ret].
Qed.

Lemma keeps_answer_of (rag_system : bool) (message : ChatResponse) :
  keeps R (answer_of rag_system message).
Proof.
  unfold answer_of.
  destruct (negb (Rag.is_empty (response_tool_calls message)));
    [apply keeps_structured_path|].
  destruct (mentions_tool_call (response_content message));
    [apply keeps_fallback_path|apply keeps_ret].
Qed.

End Keeps.

Section Steps.
Context `{World}.

Lemma quiet_refl (s : state) : quiet s s.
Proof. split; [reflexivity|]. split; [exists []; now rewrite app_nil_r|lia]. Qed.

Lemma quiet_trans (s1 s2 s3 : state) : quiet s1 s2 -> quiet s2 s3 -> quiet s1 s3.
Proof.
  intros (Hm1 & [e1 He1] & Ht1) (Hm2 & [e2 He2] & Ht2).
  split; [congruence|]. split; [|lia].
  exists (e1 ++ e2). now rewrite He2, He1, app_assoc.
Qed.

Lemma quiet_unchanged (s s' : state) :
  memory s' = memory s -> events s' = events s -> (ticks s <= ticks s')%nat ->
  quiet s s'.
Proof.
  intros Hm He Ht. split; [exact Hm|]. split; [|exact Ht].
  exists []. now rewrite app_nil_r.
Qed.

Lemma recorded_refl (s : state) : recorded s s.
Proof. intros Hs. exact Hs. Qed.

Lemma recorded_trans (s1 s2 s3 : state) :
  recorded s1 s2 -> recorded s2 s3 -> recorded s1 s3.
Proof. unfold recorded. auto. Qed.

Lemma run_events_app (evs evs' : list event) :
  run_events (evs ++ evs') = run_events evs ++ run_events evs'.
Proof. apply omap_app. Qed.

Lemma run_events_evaluated (evaluated : list value) :
  run_events (map Evaluated evaluated) = [].
Proof. induction evaluated as [|v evaluated IH]; [reflexivity|exact IH]. Qed.

(** ** _execute_tool *)

Lemma evaluated_run (r : outcome str) (evaluated : list value) (s : state) :
  fold_right (fun v k => mbind (log (Evaluated v)) (fun _ => k)) (lift r)
    evaluated s
  = (with_events s (events s ++ map Evaluated evaluated), r).
Proof.
  revert s. induction evaluated as [|v evaluated IH]; intros s; cbn [fold_right map].
  - unfold lift. rewrite app_nil_r. now destruct s.
  - unfold mbind at 1, log at 1. rewrite IH.
    cbn [events with_events]. now rewrite <- app_assoc.
Qed.

(** [_execute_tool] reads the clock and evaluates expressions, then logs
    the run and returns its result; it raises, before any run is logged,
    only on arguments that are not a dict. *)
Lemma execute_tool_run (rag_system : bool) (name : str) (args : value)
  (s : state) :
  exists (n : nat) (evaluated : list value),
    (ticks s <= n)%nat /\
    ((exists r,
        _execute_tool rag_system name args s
        = ({| memory := memory s; ticks := n;
              events := events s ++ map Evaluated evaluated
                        ++ [ToolRun name args r];
              messages := messages s; sources := sources s;
              tool_calls_made := tool_calls_made s |}, Ok r)) \/
     ((forall items, args <> VDict items) /\
      exists e,
        _execute_tool rag_system name args s
        = ({| memory := memory s; ticks := n;
              events := events s ++ map Evaluated evaluated;
              messages := messages s; sources := sources s;
              tool_calls_made := tool_calls_made s |}, Raise e))).
Proof.
  assert (Hget : forall key default,
            (exists x, py_get args key default = Ok x) \/
            ((forall items, args <> VDict items) /\
             exists e, py_get args key default = Raise e)).
  { intros key dflt. destruct args; cbn;
      try (right; split; [discriminate|eexists; reflexivity]).
    left. eexists. reflexivity. }
  unfold _execute_tool.
  destruct (str_eqb name (lit "get_current_time")).
  { exists (S (ticks s)), []. split; [lia|]. left. eexists.
    unfold mbind, tick, ret, log. cbn. reflexivity. }
  destruct (str_eqb name (lit "calculate")).
  { destruct (Hget (lit "expression") (VStr [])) as [[x Hx]|(Hnot & e & He)].
    - destruct (AgentTools.calculate x) as [evaluated r] eqn:Hcalc.
      destruct (AgentTheory.calculate_returns x) as [result Hresult].
      rewrite Hcalc in Hresult. cbn [snd] in Hresult. subst r.
      exists (ticks s), evaluated. split; [lia|]. left. exists result.
      unfold mbind at 1 2. unfold lift at 1. rewrite Hx, Hcalc, evaluated_run.
      unfold mbind, log, ret. cbn. now rewrite <- app_assoc.
    - exists (ticks s), []. split; [lia|]. right. split; [exact Hnot|]. exists e.
      unfold mbind at 1 2. unfold lift at 1. rewrite He.
      cbn. rewrite app_nil_r. now destruct s. }
  destruct (str_eqb name (lit "search_documents")).
  { destruct rag_system; cbn [negb].
    - destruct (Hget (lit "query") (VStr [])) as [[x Hx]|(Hnot & e & He)].
      + destruct (AgentTheory.search_documents_ok x) as [r Hr].
        exists (ticks s), []. split; [lia|]. left. exists r.
        unfold mbind, lift, log, ret. rewrite Hx, Hr. cbn. reflexivity.
      + exists (ticks s), []. split; [lia|]. right. split; [exact Hnot|]. exists e.
        unfold mbind, lift. rewrite He. cbn. rewrite app_nil_r. now destruct s.
    - exists (ticks s), []. split; [lia|]. left. eexists.
      unfold mbind, ret, log. cbn. reflexivity. }
  exists (ticks s), []. split; [lia|]. left. eexists.
  unfold mbind, ret, log. cbn. reflexivity.
Qed.

Lemma quiet_execute_tool (rag_system : bool) (name : str) (args : value) :
  keeps quiet (_execute_tool rag_system name args).
Proof.
  intros s.
  destruct (execute_tool_run rag_system name args s)
    as (n & evaluated & Hn & [[r Hrun]|(_ & e & Hrun)]); rewrite Hrun;
    (split; [reflexivity|]); (split; [|exact Hn]); eexists; reflexivity.
Qed.

Lemma quiet_set_locals (msgs : list ChatMessage) (srcs : list str)
  (calls : list ToolCallRecord) : keeps quiet (set_locals msgs srcs calls).
Proof. intros s. now apply quiet_unchanged. Qed.

Lemma quiet_append_message (m : ChatMessage) : keeps quiet (append_message m).
Proof. intros s. now apply quiet_unchanged. Qed.

Lemma quiet_append_source (x : str) : keeps quiet (append_source x).
Proof. intros s. now apply quiet_unchanged. Qed.

Lemma quiet_append_tool_call (c : ToolCallRecord) :
  keeps quiet (append_tool_call c).
Proof. intros s. now apply quiet_unchanged. Qed.

Lemma quiet_create_completion (tools : bool) :
  keeps quiet (create_completion tools).
Proof.
  intros s. split; [reflexivity|]. split; [eexists; reflexivity|cbn; lia].
Qed.

Lemma quiet_answer_of (rag_system : bool) (message : ChatResponse) :
  keeps quiet (answer_of rag_system message).
Proof.
  apply (keeps_answer_of quiet quiet_refl quiet_trans quiet_append_message
           quiet_append_source quiet_create_completion).
  intros rs name args. apply (keeps_bind quiet quiet_trans).
  - apply quiet_execute_tool.
  - intros r. apply quiet_append_tool_call.
Qed.

Lemma recorded_unchanged (s s' : state) :
  run_events (events s') = run_events (events s) ->
  tool_calls_made s' = tool_calls_made s -> recorded s s'.
Proof. unfold recorded. congruence. Qed.

Lemma recorded_append_message (m : ChatMessage) : keeps recorded (append_message m).
Proof. intros s. now apply recorded_unchanged. Qed.

Lemma recorded_append_source (x : str) : keeps recorded (append_source x).
Proof. intros s. now apply recorded_unchanged. Qed.

Lemma recorded_create_completion (tools : bool) :
  keeps recorded (create_completion tools).
Proof.
  intros s. apply recorded_unchanged; [|reflexivity].
  unfold create_completion, mbind, get, log, lift. cbn.
  rewrite run_events_app. cbn. now rewrite app_nil_r.
Qed.

(** A tool run and its record go together. *)
Lemma recorded_tool (rag_system : bool) (name : str) (args : value) :
  keeps recorded
    (mbind (_execute_tool rag_system name args)
       (fun r => append_tool_call
                   {| tool := name; arguments := args; result := r |})).
Proof.
  intros s Hs. unfold mbind.
  destruct (execute_tool_run rag_system name args s)
    as (n & evaluated & _ & [[r Hrun]|(_ & e & Hrun)]); rewrite Hrun; cbn.
  - rewrite !run_events_app, run_events_evaluated, Hs. reflexivity.
  - rewrite run_events_app, run_events_evaluated, app_nil_r. exact Hs.
Qed.

Lemma recorded_answer_of (rag_system : bool) (message : ChatResponse) :
  keeps recorded (answer_of rag_system message).
Proof.
  exact (keeps_answer_of recorded recorded_refl recorded_trans
           recorded_append_message recorded_append_source
           recorded_create_completion recorded_tool rag_system message).
Qed.

(** ** process_query *)

Lemma finish_run (sid : str) (text : option str) (s : state) :
  finish sid text s
  = ({| memory := AgentMemory.add_message (memory s) sid (lit "assistant") text
                    (utcnow_isoformat (ticks s))
                    (Some (MetaAnswer (tool_calls_made s) (sources s)));
        ticks := S (S (ticks s)); events := events s; messages := messages s;
        sources := sources s; tool_calls_made := tool_calls_made s |},
     Ok {| answer := text; result_sources := sources s;
           result_tool_calls := tool_calls_made s; session_id := sid;
           result_timestamp := Some (utcnow_isoformat (S (ticks s)));
           error := None |}).
Proof. reflexivity. Qed.

Lemma on_error_run (sid : str) (e : exn) (s : state) :
  on_error sid e s
  = ({| memory := AgentMemory.add_message (memory s) sid (lit "assistant")
                    (Some (lit "Error processing query: " ++ exn_str e))
                    (utcnow_isoformat (ticks s)) (Some MetaError);
        ticks := S (ticks s); events := events s; messages := messages s;
        sources := sources s; tool_calls_made := tool_calls_made s |},
     Ok {| answer := Some (lit "Error processing query: " ++ exn_str e);
           result_sources := []; result_tool_calls := []; session_id := sid;
           result_timestamp := None; error := Some (exn_str e) |}).
Proof. reflexivity. Qed.

(** The [try] of [process_query] ends in [finish] or in [on_error], in a
    state [s1] reached from the state after the completion request by the
    steps of [answer_of]. *)
Lemma respond_run (R : state -> state -> Prop) (rag_system : bool) (sid : str)
  (use_tools : bool) (s : state) :
  (forall s, R s s) ->
  (forall message, keeps R (answer_of rag_system message)) ->
  exists s1,
    R (with_events s (events s ++ [Completion (messages s) use_tools])) s1 /\
    ((exists text, respond rag_system sid use_tools s = finish sid text s1) \/
     (exists e, respond rag_system sid use_tools s = on_error sid e s1)).
Proof.
  intros Hrefl Hanswer.
  set (s0 := with_events s (events s ++ [Completion (messages s) use_tools])).
  assert (Hcreate : create_completion use_tools s
                    = (s0, chat_completions_create (messages s) use_tools))
    by reflexivity.
  destruct (chat_completions_create (messages s) use_tools) as [message|e].
  - pose proof (Hanswer message s0) as Hkept.
    destruct (answer_of rag_system message s0) as [s1 [text|e]] eqn:Hrun;
      cbn [fst] in Hkept; exists s1; (split; [exact Hkept|]).
    + left. exists text. unfold respond, mtry, mbind.
      now rewrite Hcreate, Hrun, finish_run.
    + right. exists e. unfold respond, mtry, mbind.
      now rewrite Hcreate, Hrun.
  - exists s0. split; [apply Hrefl|]. right. exists e.
    unfold respond, mtry, mbind. now rewrite Hcreate.
Qed.

Lemma context_of_query (self : t) (query sid : str) :
  AgentMemory.get_context_messages
    (AgentMemory.add_message (agent_memory self) sid (lit "user") (Some query)
       (utcnow_isoformat (clock self)) None) sid 10
  = map plain (last_n 10 (default [] (agent_memory self !! sid)
                          ++ [user_message self query])).
Proof.
  unfold AgentMemory.get_context_messages, AgentMemory.get_history.
  rewrite AgentTheory.history_add_message.
  change (10 =? 0) with false. cbn iota.
  rewrite (AgentTheory.slice_from_last _ 10) by lia.
  f_equal. unfold last_n, user_message. f_equal. unfold len. lia.
Qed.

(** X16: [process_query] never raises: it returns a dict whose
    [session_id] is the session of the call. It first asks for a
    completion, and it adds exactly two messages at the end of the session,
    the user's query and then an assistant message whose content is the
    answer of the dict (with the error flag for an error dict, with the
    tool calls and sources of the dict otherwise). No other session
    changes. *)
Theorem process_query_memory (self : t) (query sid : str) (use_tools : bool) :
  exists self' evs res n,
    process_query self query sid use_tools
    = (self', Completion (first_request self query sid) use_tools :: evs, Ok res) /\
    session_id res = sid /\
    (clock self < n < clock self')%nat /\
    default [] (agent_memory self' !! sid)
    = default [] (agent_memory self !! sid)
      ++ [user_message self query;
          {| role := lit "assistant"; content := answer res;
             timestamp := utcnow_isoformat n; metadata := reply_metadata res |}] /\
    forall other,
      other <> sid -> agent_memory self' !! other = agent_memory self !! other.
Proof.
  unfold process_query. rewrite AgentTheory.process_query_body_start.
  destruct (respond_run quiet (rag_system self) sid use_tools
              (before_completion self query sid) quiet_refl
              (quiet_answer_of (rag_system self)))
    as (s1 & (Hmem & [evs Hevs] & Hticks) & [[text Hrun]|[e Hrun]]);
    rewrite Hrun; [rewrite finish_run|rewrite on_error_run];
    cbn [memory events ticks messages before_completion with_events app]
      in Hmem, Hevs, Hticks;
    cbn [memory events ticks]; rewrite Hevs, Hmem;
    eexists _, evs, _, (ticks s1);
    (split; [reflexivity|]); cbn [session_id answer clock agent_memory];
    (split; [reflexivity|]); (split; [lia|]); split.
  - rewrite !AgentTheory.history_add_message, <- app_assoc. reflexivity.
  - intros other Hother.
    rewrite !AgentTheory.lookup_add_message_other by congruence. reflexivity.
  - rewrite !AgentTheory.history_add_message, <- app_assoc. reflexivity.
  - intros other Hother.
    rewrite !AgentTheory.lookup_add_message_other by congruence. reflexivity.
Qed.

(** X17: the dict [process_query] returns has one of two shapes. An error
    dict carries the text of the exception under [error], the answer
    "Error processing query: " followed by that text, no timestamp, and
    empty [sources] and [tool_calls], whatever tools had run before the
    exception. A dict without [error] carries a timestamp. *)
Theorem process_query_result (self : t) (query sid : str) (use_tools : bool) :
  exists self' evs res,
    process_query self query sid use_tools = (self', evs, Ok res) /\
    match error res with
    | Some text =>
        answer res = Some (lit "Error processing query: " ++ text) /\
        result_sources res = [] /\ result_tool_calls res = [] /\
        result_timestamp res = None
    | None => exists stamp, result_timestamp res = Some stamp
    end.
Proof.
  unfold process_query. rewrite AgentTheory.process_query_body_start.
  destruct (respond_run quiet (rag_system self) sid use_tools
              (before_completion self query sid) quiet_refl
              (quiet_answer_of (rag_system self)))
    as (s1 & _ & [[text Hrun]|[e Hrun]]);
    rewrite Hrun; [rewrite finish_run|rewrite on_error_run];
    do 3 eexists; (split; [reflexivity|]); cbn [error].
  - eexists. reflexivity.
  - repeat split.
Qed.

(** X18: the request of the first completion. It opens with the system
    message, whose content is the system prompt, followed by the search
    hint exactly when [_should_use_rag] accepts the query; then come the
    role and content of the last ten messages of the session, the query
    being the last of them. *)
Theorem first_completion_request (self : t) (query sid : str) (use_tools : bool) :
  exists self' evs r context,
    process_query self query sid use_tools
    = (self',
       Completion
         (Plain (lit "system")
            (Some (system_prompt
                   ++ (if _should_use_rag query then search_hint else [])))
          :: context) use_tools :: evs, r) /\
    context = map plain (last_n 10 (default [] (agent_memory self !! sid)
                                    ++ [user_message self query])) /\
    (length context <= 10)%nat /\
    last context = Some (Plain (lit "user") (Some query)).
Proof.
  unfold process_query. rewrite AgentTheory.process_query_body_start.
  destruct (respond_run quiet (rag_system self) sid use_tools
              (before_completion self query sid) quiet_refl
              (quiet_answer_of (rag_system self)))
    as (s1 & (_ & [evs Hevs] & _) & Hrun).
  cbn [events messages before_completion with_events app] in Hevs.
  assert (Hcontext : first_request self query sid
            = Plain (lit "system")
                (Some (system_prompt
                       ++ (if _should_use_rag query then search_hint else [])))
              :: map plain (last_n 10 (default [] (agent_memory self !! sid)
                                       ++ [user_message self query]))).
  { unfold first_request. now rewrite context_of_query. }
  rewrite Hcontext in Hevs.
  exists {| agent_memory :=
              memory (fst (respond (rag_system self) sid use_tools
                             (before_completion self query sid)));
            rag_system := rag_system self;
            clock := ticks (fst (respond (rag_system self) sid use_tools
                                   (before_completion self query sid))) |},
         evs,
         (snd (respond (rag_system self) sid use_tools
                 (before_completion self query sid))),
         (map plain (last_n 10 (default [] (agent_memory self !! sid)
                                ++ [user_message self query]))).
  split; [|split; [reflexivity|split]].
  - destruct Hrun as [[text Hrun]|[e Hrun]]; rewrite Hrun;
      [rewrite finish_run|rewrite on_error_run]; cbn [fst snd events memory ticks];
      now rewrite Hevs.
  - rewrite length_map. unfold last_n. rewrite length_drop. lia.
  - unfold last_n. rewrite drop_app_le by (rewrite length_app; cbn [length]; lia).
    rewrite map_app. cbn [map]. now rewrite last_snoc.
Qed.

(** X19: when the first completion request fails, the query ends there. No
    tool runs and no second request is made; the dict carries the text of
    the exception, and the session gets the query and the error message. *)
Theorem first_completion_fails (self : t) (query sid : str) (use_tools : bool)
  (e : exn) :
  chat_completions_create (first_request self query sid) use_tools = Raise e ->
  exists self',
    process_query self query sid use_tools
    = (self', [Completion (first_request self query sid) use_tools],
       Ok {| answer := Some (lit "Error processing query: " ++ exn_str e);
             result_sources := []; result_tool_calls := []; session_id := sid;
             result_timestamp := None; error := Some (exn_str e) |}) /\
    map content (default [] (agent_memory self' !! sid))
    = map content (default [] (agent_memory self !! sid))
      ++ [Some query; Some (lit "Error processing query: " ++ exn_str e)].
Proof.
  intros Hfirst. unfold process_query.
  rewrite AgentTheory.process_query_body_start.
  assert (Hrun : respond (rag_system self) sid use_tools
                   (before_completion self query sid)
                 = on_error sid e
                     (with_events (before_completion self query sid)
                        [Completion (first_request self query sid) use_tools])).
  { unfold respond, mtry, mbind.
    change (create_completion use_tools (before_completion self query sid))
      with (with_events (before_completion self query sid)
              [Completion (first_request self query sid) use_tools],
            chat_completions_create (first_request self query sid) use_tools).
    now rewrite Hfirst. }
  rewrite Hrun, on_error_run. eexists. split; [reflexivity|].
  cbn [agent_memory memory with_events before_completion].
  rewrite !AgentTheory.history_add_message, !map_app, <- app_assoc. reflexivity.
Qed.

(** X20: the [tool_calls] of a dict without [error] are exactly the tool
    runs of the query: every tool that ran is reported, with the arguments
    it got and the result it gave, in the order of the runs, and nothing
    is reported that did not run. *)
Theorem tool_calls_are_runs (self : t) (query sid : str) (use_tools : bool) :
  exists self' evs res,
    process_query self query sid use_tools = (self', evs, Ok res) /\
    (error res = None -> result_tool_calls res = run_events evs).
Proof.
  unfold process_query. rewrite AgentTheory.process_query_body_start.
  destruct (respond_run recorded (rag_system self) sid use_tools
              (before_completion self query sid) recorded_refl
              (recorded_answer_of (rag_system self)))
    as (s1 & Hrec & [[text Hrun]|[e Hrun]]);
    rewrite Hrun; [rewrite finish_run|rewrite on_error_run];
    do 3 eexists; (split; [reflexivity|]); cbn [error result_tool_calls events].
  - intros _. symmetry. apply Hrec. reflexivity.
  - discriminate.
Qed.

(** X21: how [_execute_tool] dispatches. A name other than the three tools
    gives "Unknown tool: name" whatever the arguments; with a dict of
    arguments no tool raises, the run is logged last and the memory is
    untouched; [calculate] on arguments that are not a dict raises the
    [AttributeError] of the missing [get], before anything is logged; and
    without a retrieval system [search_documents] answers that the search
    is not available, without looking at its arguments. *)
Theorem execute_tool_dispatch (rag_system : bool) (name : str) (args : value)
  (s : state) :
  (name <> lit "get_current_time" -> name <> lit "calculate" ->
   name <> lit "search_documents" ->
   _execute_tool rag_system name args s
   = (with_events s
        (events s ++ [ToolRun name args (lit "Unknown tool: " ++ name)]),
      Ok (lit "Unknown tool: " ++ name))) /\
  (forall items,
     args = VDict items ->
     exists s' r,
       _execute_tool rag_system name args s = (s', Ok r) /\
       memory s' = memory s /\
       last (events s') = Some (ToolRun name args r)) /\
  ((forall items, args <> VDict items) ->
   _execute_tool rag_system (lit "calculate") args s
   = (s, Raise (AttributeError
                  (quoted (type_name args) ++ lit " object has no attribute 'get'")))) /\
  _execute_tool false (lit "search_documents") args s
  = (with_events s
       (events s
        ++ [ToolRun (lit "search_documents") args
              (lit "Document search is not available. RAG system not initialized.")]),
     Ok (lit "Document search is not available. RAG system not initialized.")).
Proof.
  split; [|split; [|split]].
  - intros Htime Hcalc Hsearch. unfold _execute_tool, str_eqb.
    rewrite !bool_decide_eq_false_2 by assumption. reflexivity.
  - intros items ->.
    destruct (execute_tool_run rag_system name (VDict items) s)
      as (n & evaluated & _ & [[r Hrun]|(Hnot & _)]);
      [|now destruct (Hnot items)].
    rewrite Hrun. do 2 eexists. split; [reflexivity|]. split; [reflexivity|].
    cbn [events]. now rewrite !app_assoc, last_snoc.
  - intros Hnot. unfold _execute_tool.
    replace (str_eqb (lit "calculate") (lit "get_current_time")) with false
      by (vm_compute; reflexivity).
    replace (str_eqb (lit "calculate") (lit "calculate")) with true
      by (vm_compute; reflexivity).
    destruct args; try (now destruct s); now destruct (Hnot items).
  - unfold _execute_tool.
    replace (str_eqb (lit "search_documents") (lit "get_current_time")) with false
      by (vm_compute; reflexivity).
    replace (str_eqb (lit "search_documents") (lit "calculate")) with false
      by (vm_compute; reflexivity).
    replace (str_eqb (lit "search_documents") (lit "search_documents")) with true
      by (vm_compute; reflexivity).
    reflexivity.
Qed.

(** ** Structured tool calls *)

Lemma completions_app (evs evs' : list event) :
  completions (evs ++ evs') = (completions evs + completions evs')%nat.
Proof. unfold completions. now rewrite List.filter_app, length_app. Qed.

Lemma completions_evaluated (evaluated : list value) :
  completions (map Evaluated evaluated) = 0%nat.
Proof. induction evaluated as [|v evaluated IH]; [reflexivity|exact IH]. Qed.

(** The loop over tool calls, as far as their arguments decode to a dict:
    each of those calls is run and recorded, in order, and the loop goes
    on with the calls that follow. *)
Lemma execute_tool_calls_dicts (rag_system : bool) (calls : list ToolCall)
  (dicts : list (list (str * value))) (later : list ToolCall) :
  Forall2 (fun call items =>
             json_loads (function_arguments call) = Ok (VDict items))
    calls dicts ->
  forall s,
    exists s' records evs,
      execute_tool_calls rag_system (calls ++ later) s
      = execute_tool_calls rag_system later s' /\
      tool_calls_made s' = tool_calls_made s ++ records /\
      map (fun c => (tool c, arguments c)) records
      = zip (map function_name calls) (map VDict dicts) /\
      events s' = events s ++ evs /\
      run_events evs = records /\
      completions evs = 0%nat.
Proof.
  induction 1 as [|call items calls dicts Hcall Hcalls IH]; intros s.
  - exists s, [], []. cbn. now rewrite !app_nil_r.
  - cbn [app execute_tool_calls].
    unfold mbind at 1. unfold lift at 1. rewrite Hcall.
    unfold mbind at 1.
    destruct (execute_tool_run rag_system (function_name call) (VDict items) s)
      as (n & evaluated & _ & [[r Hrun]|(Hnot & _)]);
      [|now destruct (Hnot items)].
    rewrite Hrun.
    set (record := {| tool := function_name call; arguments := VDict items;
                      result := r |}).
    set (s2 := {| memory := memory s; ticks := n;
                  events := events s ++ map Evaluated evaluated
                            ++ [ToolRun (function_name call) (VDict items) r];
                  messages := messages s ++ [ToolResult (call_id call) r];
                  sources :=
                    sources s
                    ++ (if str_eqb (function_name call) (lit "search_documents")
                        then [document_search
                                (default VNone
                                   (lookup_item items (lit "query")))]
                        else []);
                  tool_calls_made := tool_calls_made s ++ [record] |}).
    destruct (IH s2)
      as (s' & records & evs & Hrest & Hmade & Hnames & Hevs & Hruns & Hcount).
    exists s', (record :: records),
      ((map Evaluated evaluated
        ++ [ToolRun (function_name call) (VDict items) r]) ++ evs).
    split.
    { rewrite <- Hrest. unfold s2, record.
      unfold mbind, append_tool_call, append_message, append_source, get,
        set_locals, lift, ret.
      cbn [py_get].
      destruct (str_eqb (function_name call) (lit "search_documents")); cbn;
        rewrite ?app_nil_r; reflexivity. }
    split; [rewrite Hmade; cbn; now rewrite <- app_assoc|].
    split; [cbn; now rewrite Hnames|].
    split; [rewrite Hevs; cbn [events s2]; now rewrite !app_assoc|].
    split.
    { rewrite !run_events_app, run_events_evaluated, Hruns. reflexivity. }
    rewrite !completions_app, completions_evaluated, Hcount. reflexivity.
Qed.

(** X22: structured tool calls whose arguments all decode to a dict. Each
    call of the response is run once, in the order of the response, with
    its name and decoded arguments; then a second completion is requested,
    without tools, the request ending with the instruction to answer from
    the tool results. When that completion returns, its text is the answer
    and the calls are reported; when it raises, the error dict is returned
    and none of the calls is reported, although they ran. *)
Theorem structured_tool_calls (self : t) (query sid : str) (use_tools : bool)
  (message : ChatResponse) (dicts : list (list (str * value))) :
  chat_completions_create (first_request self query sid) use_tools = Ok message ->
  response_tool_calls message <> [] ->
  Forall2 (fun call items =>
             json_loads (function_arguments call) = Ok (VDict items))
    (response_tool_calls message) dicts ->
  exists self' evs res records request,
    process_query self query sid use_tools
    = (self',
       Completion (first_request self query sid) use_tools
       :: evs ++ [Completion request false],
       Ok res) /\
    last request = Some (Plain (lit "user") (Some tool_results_instruction)) /\
    map (fun c => (tool c, arguments c)) records
    = zip (map function_name (response_tool_calls message)) (map VDict dicts) /\
    run_events evs = records /\
    completions evs = 0%nat /\
    match chat_completions_create request false with
    | Ok final =>
        error res = None /\
        answer res = response_content final /\
        result_tool_calls res = records
    | Raise e =>
        error res = Some (exn_str e) /\
        result_tool_calls res = []
    end.
Proof.
  intros Hfirst Hcalls Hdicts.
  unfold process_query. rewrite AgentTheory.process_query_body_start.
  set (s0 := with_locals
               (with_events (before_completion self query sid)
                  [Completion (first_request self query sid) use_tools])
               (first_request self query sid
                ++ [AssistantCalls (response_content message)
                      (response_tool_calls message)]) [] []).
  destruct (execute_tool_calls_dicts (rag_system self) _ _ [] Hdicts s0)
    as (s' & records & evs & Hloop & Hmade & Hnames & Hevs & Hruns & Hcount).
  rewrite app_nil_r in Hloop. cbn [execute_tool_calls] in Hloop.
  set (request := messages s'
                  ++ [Plain (lit "user") (Some tool_results_instruction)]).
  set (s3 := with_events
               (with_locals s' request (sources s') (tool_calls_made s'))
               (events s' ++ [Completion request false])).
  assert (Hrun : respond (rag_system self) sid use_tools
                   (before_completion self query sid)
                 = match chat_completions_create request false with
                   | Ok final => finish sid (response_content final) s3
                   | Raise e => on_error sid e s3
                   end).
  { unfold respond, mtry. unfold mbind at 1.
    change (create_completion use_tools (before_completion self query sid))
      with (with_events (before_completion self query sid)
              [Completion (first_request self query sid) use_tools],
            chat_completions_create (first_request self query sid) use_tools).
    rewrite Hfirst. unfold mbind at 1. unfold answer_of.
    apply RagTheory.is_empty_false in Hcalls. rewrite Hcalls. cbn [negb].
    unfold structured_path. unfold mbind at 1.
    change (append_message
              (AssistantCalls (response_content message)
                 (response_tool_calls message))
              (with_events (before_completion self query sid)
                 [Completion (first_request self query sid) use_tools]))
      with (s0, @Ok unit tt).
    unfold mbind at 1. rewrite Hloop. unfold ret at 1.
    unfold append_message. run. fold request. fold s3.
    destruct (chat_completions_create request false); reflexivity. }
  rewrite Hrun.
  cbn [tool_calls_made s0 with_locals app] in Hmade.
  cbn [events s0 with_locals with_events app] in Hevs.
  assert (Hlast : last request
                  = Some (Plain (lit "user") (Some tool_results_instruction)))
    by (unfold request; apply last_snoc).
  destruct (chat_completions_create request false) as [final|e] eqn:Hchat;
    [rewrite finish_run|rewrite on_error_run];
    eexists _, evs, _, records, request;
    cbn [events memory ticks s3 with_events with_locals error answer
         result_tool_calls tool_calls_made];
    rewrite Hevs, Hchat; cbn [app]; repeat split; try assumption.
Qed.

(** X23: a structured tool call whose arguments are not valid JSON ends
    the query with the error dict that carries the text of the decoding
    error. The calls before it in the response, their arguments being
    dicts, have run, in order, but the dict reports no tool call; the
    malformed call and the calls after it are not run, and no second
    completion is requested. *)
Theorem tool_call_arguments_malformed (self : t) (query sid : str)
  (use_tools : bool) (message : ChatResponse) (before : list ToolCall)
  (dicts : list (list (str * value))) (call : ToolCall)
  (later : list ToolCall) (e : exn) :
  chat_completions_create (first_request self query sid) use_tools = Ok message ->
  response_tool_calls message = before ++ call :: later ->
  Forall2 (fun call items =>
             json_loads (function_arguments call) = Ok (VDict items))
    before dicts ->
  json_loads (function_arguments call) = Raise e ->
  exists self' evs,
    process_query self query sid use_tools
    = (self', Completion (first_request self query sid) use_tools :: evs,
       Ok {| answer := Some (lit "Error processing query: " ++ exn_str e);
             result_sources := []; result_tool_calls := []; session_id := sid;
             result_timestamp := None; error := Some (exn_str e) |}) /\
    map (fun c => (tool c, arguments c)) (run_events evs)
    = zip (map function_name before) (map VDict dicts) /\
    completions evs = 0%nat.
Proof.
  intros Hfirst Hcalls Hdicts Hloads.
  unfold process_query. rewrite AgentTheory.process_query_body_start.
  set (s0 := with_locals
               (with_events (before_completion self query sid)
                  [Completion (first_request self query sid) use_tools])
               (first_request self query sid
                ++ [AssistantCalls (response_content message)
                      (before ++ call :: later)]) [] []).
  destruct (execute_tool_calls_dicts (rag_system self) _ _ (call :: later)
              Hdicts s0)
    as (s' & records & evs & Hloop & _ & Hnames & Hevs & Hruns & Hcount).
  assert (Hbad : execute_tool_calls (rag_system self) (call :: later) s'
                 = (s', Raise e)).
  { cbn [execute_tool_calls]. unfold mbind at 1. unfold lift at 1.
    now rewrite Hloads. }
  rewrite Hbad in Hloop.
  assert (Hrun : respond (rag_system self) sid use_tools
                   (before_completion self query sid)
                 = on_error sid e s').
  { unfold respond, mtry. unfold mbind at 1.
    change (create_completion use_tools (before_completion self query sid))
      with (with_events (before_completion self query sid)
              [Completion (first_request self query sid) use_tools],
            chat_completions_create (first_request self query sid) use_tools).
    rewrite Hfirst. unfold mbind at 1. unfold answer_of. rewrite Hcalls.
    assert (Hsome : Rag.is_empty (before ++ call :: later) = false)
      by (now destruct before).
    rewrite Hsome. cbn [negb]. unfold structured_path. rewrite Hcalls.
    unfold mbind at 1.
    change (append_message
              (AssistantCalls (response_content message)
                 (before ++ call :: later))
              (with_events (before_completion self query sid)
                 [Completion (first_request self query sid) use_tools]))
      with (s0, @Ok unit tt).
    unfold mbind at 1. rewrite Hloop. reflexivity. }
  rewrite Hrun, on_error_run.
  cbn [events s0 with_locals with_events app] in Hevs.
  eexists _, evs. cbn [events]. rewrite Hevs.
  split; [reflexivity|]. split; [now rewrite Hruns|exact Hcount].
Qed.

End Steps.

(** ** In the sample worlds *)

(** X13 on the session of three messages: the limit -1 drops the first. *)
Lemma get_history_negative_limit_witness :
  Sample.contents
    (AgentMemory.get_history Sample.two_sessions (lit "s") (Some (-1)))
  = [Some (lit "two"); Some (lit "three")].
Proof.
  rewrite (get_history_negative_limit Sample.two_sessions (lit "s") (-1));
    [|lia].
  vm_compute. reflexivity.
Defined.

(** X19 with an endpoint that cannot be reached. *)
Lemma first_completion_fails_witness :
  exists self',
    @process_query offline Sample.agent (lit "hello") (lit "s") true
    = (self',
       [Completion (@first_request offline Sample.agent (lit "hello") (lit "s"))
          true],
       Ok {| answer := Some (lit "Error processing query: Connection error.");
             result_sources := []; result_tool_calls := [];
             session_id := lit "s"; result_timestamp := None;
             error := Some (lit "Connection error.") |}).
Proof.
  destruct (@first_completion_fails offline Sample.agent (lit "hello") (lit "s")
              true (OtherError (lit "Connection error.")) eq_refl)
    as (self' & Hrun & _).
  exists self'. exact Hrun.
Defined.

(** X22 with an endpoint that asks for the time, with the arguments "{}". *)
Lemma structured_tool_calls_witness :
  exists self' evs res,
    @process_query (calling (lit "{}") (lit "It is noon.")) Sample.agent
      (lit "what time is it") (lit "s") true = (self', evs, Ok res) /\
    answer res = Some (lit "It is noon.") /\
    map (fun c => (tool c, arguments c)) (result_tool_calls res)
    = [(lit "get_current_time", VDict [])].
Proof.
  destruct (@structured_tool_calls (calling (lit "{}") (lit "It is noon."))
              Sample.agent (lit "what time is it") (lit "s") true
              {| response_content := None;
                 response_tool_calls :=
                   [{| call_id := lit "call_1";
                       function_name := lit "get_current_time";
                       function_arguments := lit "{}" |}] |}
              [[]] eq_refl)
    as (self' & evs & res & records & request & Hrun & _ & Hcalls & _ & _ & Hend).
  - discriminate.
  - repeat constructor.
  - eexists self', _, res. split; [exact Hrun|].
    change (@chat_completions_create (calling (lit "{}") (lit "It is noon."))
              request false)
      with (@Ok ChatResponse
              {| response_content := Some (lit "It is noon.");
                 response_tool_calls := [] |}) in Hend.
    destruct Hend as (_ & Hanswer & Hreported).
    split; [exact Hanswer|]. rewrite Hreported. exact Hcalls.
Defined.

(** X23 with an endpoint that asks for the time and then for a
    calculation whose arguments are cut short. *)
Lemma tool_call_arguments_malformed_witness :
  exists self' evs res,
    @process_query (calling_twice (lit "{") (lit "It is noon.")) Sample.agent
      (lit "what time is it") (lit "s") true
    = (self',
       Completion
         (@first_request (calling_twice (lit "{") (lit "It is noon."))
            Sample.agent (lit "what time is it") (lit "s")) true :: evs,
       Ok res) /\
    map (fun c => (tool c, arguments c)) (run_events evs)
    = [(lit "get_current_time", VDict [])] /\
    result_tool_calls res = [] /\ error res <> None.
Proof.
  destruct (@json_loads (calling_twice (lit "{") (lit "It is noon.")) (lit "{"))
    as [v|e] eqn:Hloads; [discriminate Hloads|].
  destruct (@tool_call_arguments_malformed
              (calling_twice (lit "{") (lit "It is noon.")) Sample.agent
              (lit "what time is it") (lit "s") true
              {| response_content := None;
                 response_tool_calls :=
                   [{| call_id := lit "call_1";
                       function_name := lit "get_current_time";
                       function_arguments := lit "{}" |};
                    {| call_id := lit "call_2";
                       function_name := lit "calculate";
                       function_arguments := lit "{" |}] |}
              [{| call_id := lit "call_1";
                  function_name := lit "get_current_time";
                  function_arguments := lit "{}" |}]
              [[]]
              {| call_id := lit "call_2";
                 function_name := lit "calculate";
                 function_arguments := lit "{" |} [] e eq_refl eq_refl)
    as (self' & evs & Hrun & Hran & _).
  - repeat constructor.
  - exact Hloads.
  - exists self', evs. eexists. split; [exact Hrun|].
    split; [exact Hran|]. split; [reflexivity|discriminate].
Defined.

End AgentFacts.

(* ===================================================================== *)
(** * Further facts: app/main.py *)
(* ===================================================================== *)

Module MainFacts.
Import Py Stated Notions AgentNotions.

Section Endpoints.
Context `{RW : Rag.World} `{AW : Agent.World} `{MW : @Main.World RW}.
Import Main.

Lemma ingest_failed_status {A} (r : raised) (status_code : Z) (detail : str) :
  @ingest_failed RW MW A r = HTTPException status_code detail ->
  status_code = 400 \/ status_code = 500.
Proof.
  destruct r as [code text|[]]; cbn; intros [= <- _]; auto.
Qed.

(** X24: [POST /ingest] answers 400 or 500 when it fails, never 503: the
    503 raised for a missing system is caught by the handler's own
    [except Exception] and comes out as a 500. A body is returned only
    after an ingestion that succeeded and an index that was saved; it
    counts the paths of the request, and the system is then initialized.
    When the ingestion succeeds and saving fails, the response is an error
    and the system keeps what was ingested. *)
Theorem ingest_endpoint (fuel : nat) (app app' : globals)
  (document_paths : list str) (calls : list Rag.embed_input)
  (resp : response IngestResponse) :
  ingest_documents fuel app document_paths = Some (app', calls, resp) ->
  (forall status_code detail,
     resp = HTTPException status_code detail ->
     status_code = 400 \/ status_code = 500) /\
  (rag_system app = None ->
   app' = app /\ calls = [] /\
   resp = HTTPException 500
            (lit "An error occurred during ingestion: "
             ++ http_exception_str 503 (lit "RAG system not initialized"))) /\
  (forall body,
     resp = Returned body ->
     exists rag',
       rag_system app' = Some rag' /\
       Rag.RAGSystem.is_initialized rag' = true /\
       save_index rag' = Ok tt /\
       status body = lit "success" /\
       total_documents body = len document_paths) /\
  (forall rag rag' result e,
     rag_system app = Some rag ->
     Rag.RAGSystem.ingest_documents fuel rag document_paths
     = Some (rag', (calls, Ok result)) ->
     save_index rag' = Raise e ->
     rag_system app' = Some rag' /\
     Rag.RAGSystem.is_initialized rag' = true /\
     exists status_code detail, resp = HTTPException status_code detail).
Proof.
  unfold ingest_documents. intros Hrun.
  destruct (rag_system app) as [rag|] eqn:Hrag.
  - destruct (Rag.RAGSystem.ingest_documents fuel rag document_paths)
      as [[rag' [calls' r]]|] eqn:Hingest; [|discriminate].
    injection Hrun as <- <- <-.
    split; [|split; [discriminate|split]].
    + intros status_code detail.
      destruct r as [result|e];
        [|exact (ingest_failed_status (A := IngestResponse) (Python e) _ _)].
      destruct (save_index rag') as [[]|e]; [discriminate|].
      exact (ingest_failed_status (A := IngestResponse) (Python e) _ _).
    + intros body Hbody. exists rag'. cbn [rag_system].
      destruct r as [result|e];
        [|destruct e; discriminate Hbody].
      destruct (RagTheory.ingest_documents_ok _ _ _ _ _ _ Hingest)
        as (all_documents & _ & _ & Hresult & Hinit).
      destruct (save_index rag') as [[]|e] eqn:Hsave;
        [|destruct e; discriminate Hbody].
      injection Hbody as <-. cbn [status total_documents].
      split; [reflexivity|]. split; [exact Hinit|]. split; [reflexivity|].
      split; [reflexivity|]. now rewrite Hresult.
    + intros rag0 rag0' result e [= <-] Hingest' Hsave.
      rewrite Hingest in Hingest'. injection Hingest' as <- ->.
      cbn [rag_system]. split; [reflexivity|].
      split; [now destruct (RagTheory.ingest_documents_ok _ _ _ _ _ _ Hingest)
                as (? & _ & _ & _ & Hinit)|].
      rewrite Hsave. destruct e; do 2 eexists; reflexivity.
  - injection Hrun as <- <- <-.
    split; [intros status_code detail [= <- _]; now right|].
    split; [repeat split|]. split; [discriminate|discriminate].
Qed.

(** X25: [POST /ask] answers 503 only when there is no agent, and 500
    otherwise when it fails: for an error dict, with its error text as
    the detail, and for a dict that does not make a [QueryResponse]. With
    an agent every call, failed or not, leaves the query and one
    assistant message at the end of the session; a returned body carries
    the content of that message as its answer, and the session of the
    request. *)
Theorem ask_endpoint (app : globals) (query sid : str) (use_tools : bool) :
  exists app' evs resp,
    ask_question app query sid use_tools = (app', evs, resp) /\
    match ai_agent app with
    | None =>
        app' = app /\ evs = [] /\
        resp = HTTPException 503 (lit "AI Agent not initialized")
    | Some agent =>
        exists agent' reply,
          ai_agent app' = Some agent' /\
          rag_system app' = rag_system app /\
          default [] (Agent.AIAgent.agent_memory agent' !! sid)
          = default [] (Agent.AIAgent.agent_memory agent !! sid)
            ++ [user_message agent query; reply] /\
          Agent.role reply = lit "assistant" /\
          match resp with
          | Returned body =>
              Agent.content reply = Some (answer body) /\ session_id body = sid
          | HTTPException status_code detail =>
              status_code = 500 /\
              (Agent.metadata reply = Agent.MetaError ->
               Agent.content reply
               = Some (lit "Error processing query: " ++ detail))
          end
    end.
Proof.
  unfold ask_question. destruct (ai_agent app) as [agent|] eqn:Hagent;
    [|do 3 eexists; split; [reflexivity|repeat split]].
  unfold Agent.AIAgent.process_query.
  rewrite AgentTheory.process_query_body_start.
  destruct (AgentFacts.respond_run quiet (Agent.AIAgent.rag_system agent) sid
              use_tools (before_completion agent query sid)
              AgentFacts.quiet_refl
              (AgentFacts.quiet_answer_of (Agent.AIAgent.rag_system agent)))
    as (s1 & (Hmem & _ & _) & [[text Hrun]|[e Hrun]]);
    rewrite Hrun;
    [rewrite AgentFacts.finish_run|rewrite AgentFacts.on_error_run];
    cbn [Agent.AIAgent.memory before_completion Agent.AIAgent.with_events] in Hmem;
    do 3 eexists; (split; [reflexivity|]);
    cbn [Agent.AIAgent.memory Agent.AIAgent.error];
    eexists _, _; cbn [ai_agent rag_system Agent.AIAgent.agent_memory];
    (split; [reflexivity|]); (split; [reflexivity|]); rewrite Hmem;
    cbn [Agent.AIAgent.agent_memory].
  - split; [rewrite !AgentTheory.history_add_message, <- app_assoc;
            reflexivity|].
    split; [reflexivity|]. unfold query_response.
    cbn [Agent.AIAgent.answer Agent.AIAgent.result_timestamp Agent.content
         Agent.metadata].
    destruct text as [text|]; cbn; [now split|]. split; [reflexivity|discriminate].
  - split; [rewrite !AgentTheory.history_add_message, <- app_assoc;
            reflexivity|].
    split; [reflexivity|]. cbn. split; reflexivity.
Qed.

Lemma store_search_length (store : Rag.FAISSVectorStore.t)
  (query_embedding : Rag.Vector) (top_k : Z)
  (found : list Rag.FAISSVectorStore.SearchResult) :
  Rag.FAISSVectorStore.search store query_embedding top_k = Ok found ->
  len found <= Z.max 0 top_k.
Proof.
  unfold Rag.FAISSVectorStore.search, Rag.IndexFlatL2.search.
  destruct (Rag.IndexFlatL2.ntotal (Rag.FAISSVectorStore.index store) =? 0);
    [intros [= <-]; unfold len; cbn; lia|].
  destruct (negb _); [discriminate|].
  set (k := Z.min top_k _).
  destruct (Z.leb_spec k 0) as [|Hk]; [discriminate|]. cbn [bind].
  pose proof (RagTheory.len_nonneg
                (Rag.IndexFlatL2.xb (Rag.FAISSVectorStore.index store))) as Hn.
  replace (Z.to_nat (k - Rag.IndexFlatL2.ntotal (Rag.FAISSVectorStore.index store)))
    with 0%nat by (unfold k, Rag.IndexFlatL2.ntotal in *; lia).
  cbn [replicate]. rewrite app_nil_r.
  rewrite RagTheory.collect_results_spec
    by (apply Forall_take; now apply RagTheory.ranked_from_positions).
  intros [= <-]. cbn [app].
  pose proof (RagTheory.omap_result_length (Rag.FAISSVectorStore.documents store)
                (take (Z.to_nat k)
                   (Rag.IndexFlatL2.ranked_from 0 query_embedding
                      (Rag.IndexFlatL2.xb (Rag.FAISSVectorStore.index store)))))
    as Hlen.
  rewrite length_take in Hlen. unfold len, k in *. lia.
Qed.

(** X26: [GET /search] answers 503 without a system and 400 "No
    documents have been ingested yet" for a system that is not
    initialized, in both cases without an embedding request. Otherwise it
    sends one embedding request, for the query, and either fails with 500
    or returns the results of the search with their number, which is at
    most [top_k] (at most the configured [top_k_results] for
    [top_k = 0]). *)
Theorem search_endpoint (app : globals) (text : str) (top_k : Z) :
  match rag_system app with
  | None =>
      search_documents app text top_k
      = ([], HTTPException 503 (lit "RAG system not initialized"))
  | Some rag =>
      if Rag.RAGSystem.is_initialized rag then
        fst (search_documents app text top_k) = [Rag.InputText text] /\
        match snd (search_documents app text top_k) with
        | Returned body =>
            query body = text /\
            snd (Rag.RAGSystem.search rag text (Some top_k)) = Ok (results body) /\
            results_count body = len (results body) /\
            results_count body
            <= Z.max 0 (if top_k =? 0 then Rag.top_k_results Rag.settings
                        else top_k)
        | HTTPException status_code detail =>
            status_code = 500 /\
            exists e,
              snd (Rag.RAGSystem.search rag text (Some top_k)) = Raise e /\
              detail = exn_str e
        end
      else
        search_documents app text top_k
        = ([], HTTPException 400 (lit "No documents have been ingested yet"))
  end.
Proof.
  unfold search_documents. destruct (rag_system app) as [rag|]; [|reflexivity].
  destruct (Rag.RAGSystem.is_initialized rag) eqn:Hinit; [|reflexivity].
  cbn [negb]. unfold Rag.RAGSystem.search at 1 2. rewrite Hinit. cbn [negb].
  unfold Rag.RAGSystem.search. rewrite Hinit. cbn [negb].
  unfold Rag.EmbeddingGenerator.generate_embedding. cbn [fst snd].
  split; [reflexivity|].
  destruct (try_except _ _) as [query_embedding|e]; cbn [bind].
  - destruct (Rag.FAISSVectorStore.search (Rag.RAGSystem.vector_store rag)
                query_embedding (Rag.int_or (Some top_k)
                                   (Rag.top_k_results Rag.settings)))
      as [found|e] eqn:Hfound; cbn.
    + repeat split. now apply store_search_length in Hfound.
    + split; [reflexivity|]. now exists e.
  - cbn. split; [reflexivity|]. now exists e.
Qed.

(** X27: the two session endpoints. Without an agent both answer 500,
    not 503, the detail being the text of the 503 they raised. With an
    agent the history endpoint returns the messages with their count, at
    most [limit] of them for a positive [limit]; the delete endpoint
    reports success whether or not the session existed, after which the
    history of that session is empty for every limit and the histories of
    the other sessions are as before. *)
Theorem session_endpoints (app : globals) (sid : str) (limit : Z) :
  match ai_agent app with
  | None =>
      get_session_history app sid limit
      = HTTPException 500
          (http_exception_str 503 (lit "AI Agent not initialized")) /\
      clear_session app sid
      = (app, HTTPException 500
                (http_exception_str 503 (lit "AI Agent not initialized")))
  | Some agent =>
      exists body app',
        get_session_history app sid limit = Returned body /\
        history_session_id body = sid /\
        message_count body = len (messages body) /\
        (0 < limit -> message_count body <= limit) /\
        clear_session app sid
        = (app', Returned (lit "Session " ++ sid ++ lit " cleared")) /\
        rag_system app' = rag_system app /\
        (forall limit',
           get_session_history app' sid limit'
           = Returned {| history_session_id := sid; message_count := 0;
                         messages := [] |}) /\
        (forall other limit',
           other <> sid ->
           get_session_history app' other limit'
           = get_session_history app other limit')
  end.
Proof.
  unfold get_session_history, clear_session.
  destruct (ai_agent app) as [agent|] eqn:Hagent; [|split; reflexivity].
  do 2 eexists. split; [reflexivity|]. cbn [history_session_id message_count messages
                                            ai_agent rag_system
                                            Agent.AIAgent.agent_memory].
  split; [reflexivity|]. split; [reflexivity|]. split.
  { intros Hlimit. unfold Agent.AgentMemory.get_history.
    destruct (Z.eqb_spec limit 0) as [|_]; [lia|].
    rewrite AgentTheory.slice_from_last by exact Hlimit.
    unfold last_n, len. rewrite length_drop. lia. }
  split; [reflexivity|]. split; [reflexivity|]. split.
  - intros limit'. cbn [ai_agent Agent.AIAgent.agent_memory].
    unfold Agent.AgentMemory.get_history.
    rewrite AgentTheory.lookup_clear_session. cbn [default].
    destruct (limit' =? 0); [reflexivity|].
    now rewrite AgentTheory.slice_from_nil.
  - intros other limit' Hother.
    cbn [ai_agent Agent.AIAgent.agent_memory].
    unfold Agent.AgentMemory.get_history.
    rewrite AgentTheory.lookup_clear_session_other by congruence. reflexivity.
Qed.

End Endpoints.

(** X24 in the sample world: a fresh system and a path that cannot be
    read. *)
Lemma ingest_endpoint_witness :
  @Main.ingest_documents Sample.world Main.sample_world 5
    {| Main.rag_system := Some Rag.RAGSystem.init; Main.ai_agent := None |}
    [lit "missing.txt"]
  = Some ({| Main.rag_system := Some Rag.RAGSystem.init; Main.ai_agent := None |},
          [],
          Main.HTTPException 400 (lit "No documents were successfully processed"))
  /\ (400 = 400 \/ 400 = 500).
Proof.
  assert (Hrun :
    @Main.ingest_documents Sample.world Main.sample_world 5
      {| Main.rag_system := Some Rag.RAGSystem.init; Main.ai_agent := None |}
      [lit "missing.txt"]
    = Some ({| Main.rag_system := Some Rag.RAGSystem.init;
               Main.ai_agent := None |},
            [],
            Main.HTTPException 400
              (lit "No documents were successfully processed")))
    by (vm_compute; reflexivity).
  split; [exact Hrun|].
  destruct (@ingest_endpoint Sample.world Main.sample_world 5 _ _ _ _ _ Hrun)
    as (Hstatus & _).
  exact (Hstatus 400 _ eq_refl).
Defined.

End MainFacts.

(* ===================================================================== *)
(** * Further facts: construction and startup *)
(* ===================================================================== *)

Module StartupFacts.
Import Py Startup.

Lemma truthy_or (x y : option str) :
  truthy x = true -> str_or x y = x.
Proof. unfold str_or. now intros ->. Qed.

Lemma truthy_or_true (x y : option str) :
  truthy y = true -> truthy (str_or x y) = true.
Proof. unfold str_or. intros Hy. now destruct (truthy x) eqn:Hx. Qed.

(** X29: the provider the two constructors choose. Whenever [AIAgent]
    can be constructed, so can [EmbeddingGenerator]: the embedding
    settings fall back on the chat settings. Azure is chosen whenever its
    key and endpoint are both set, whether or not there is an OpenAI key;
    an embedding key and endpoint of their own take precedence over the
    chat ones; an empty string counts as not set; and with neither
    provider configured each constructor raises its [ValueError]. *)
Theorem clients_configured (settings : Credentials) :
  (forall chat, ai_agent_init settings = Ok chat ->
     exists embedder, embedding_generator_init settings = Ok embedder) /\
  (truthy (azure_openai_api_key settings) = true ->
   truthy (azure_openai_endpoint settings) = true ->
   ai_agent_init settings
   = Ok (AzureOpenAI (default [] (azure_openai_api_key settings))
           (azure_openai_api_version settings)
           (default [] (azure_openai_endpoint settings)),
         azure_openai_deployment_name settings)) /\
  (truthy (azure_openai_embedding_api_key settings) = true ->
   truthy (azure_openai_embedding_endpoint settings) = true ->
   embedding_generator_init settings
   = Ok (AzureOpenAI (default [] (azure_openai_embedding_api_key settings))
           (azure_openai_api_version settings)
           (default [] (azure_openai_embedding_endpoint settings)),
         azure_openai_embedding_deployment settings)) /\
  (truthy (openai_api_key settings) = false ->
   truthy (azure_openai_api_key settings)
   && truthy (azure_openai_endpoint settings) = false ->
   ai_agent_init settings
   = Raise (ValueError (lit "No OpenAI API key configured"))) /\
  (forall e, embedding_generator_init settings = Raise e ->
     e = ValueError (lit "No OpenAI API key configured for embeddings") /\
     ai_agent_init settings
     = Raise (ValueError (lit "No OpenAI API key configured"))).
Proof.
  split; [|split; [|split; [|split]]].
  - intros chat. unfold ai_agent_init, embedding_generator_init.
    destruct (truthy (azure_openai_api_key settings)) eqn:Hkey;
      destruct (truthy (azure_openai_endpoint settings)) eqn:Hend; cbn [andb].
    + intros _. rewrite !truthy_or_true by assumption. cbn [andb].
      eexists. reflexivity.
    + destruct (truthy (openai_api_key settings)); [|discriminate].
      intros _. destruct (_ && _); eexists; reflexivity.
    + destruct (truthy (openai_api_key settings)); [|discriminate].
      intros _. destruct (_ && _); eexists; reflexivity.
    + destruct (truthy (openai_api_key settings)); [|discriminate].
      intros _. destruct (_ && _); eexists; reflexivity.
  - intros Hkey Hend. unfold ai_agent_init. now rewrite Hkey, Hend.
  - intros Hkey Hend. unfold embedding_generator_init.
    rewrite !truthy_or by assumption. now rewrite Hkey, Hend.
  - intros Hopen Hazure. unfold ai_agent_init. now rewrite Hazure, Hopen.
  - intros e. unfold ai_agent_init, embedding_generator_init.
    destruct (truthy (str_or (azure_openai_embedding_api_key settings)
                        (azure_openai_api_key settings))
              && truthy (str_or (azure_openai_embedding_endpoint settings)
                           (azure_openai_endpoint settings))) eqn:Hazure;
      [discriminate|].
    destruct (truthy (openai_api_key settings)); [discriminate|].
    intros [= <-]. split; [reflexivity|].
    destruct (truthy (azure_openai_api_key settings)) eqn:Hkey;
      destruct (truthy (azure_openai_endpoint settings)) eqn:Hend;
      cbn [andb]; try reflexivity.
    rewrite !truthy_or_true in Hazure by assumption. discriminate Hazure.
Qed.

Section Startup.
Context `{RW : Rag.World} `{MW : @Main.World RW}.

(** X30: the globals after a startup. When [lifespan] reaches its
    [yield] both globals are set and the agent has no session. The system
    is initialized exactly when [load_index] found and read a saved
    index; when there was none the store is empty, [GET /health] reports
    [rag_initialized] false and [GET /search] answers 400 until an
    ingestion succeeds. A startup without a chat provider fails with the
    [ValueError] of [AIAgent], also when the embeddings are configured. *)
Theorem startup (settings : Credentials) :
  (forall app,
     lifespan settings = Ok app ->
     exists rag agent,
       Main.rag_system app = Some rag /\
       Main.ai_agent app = Some agent /\
       Agent.AIAgent.agent_memory agent = Agent.AgentMemory.init /\
       (Main.rag_initialized app = true <->
        snd (Rag.RAGSystem.load_index Rag.RAGSystem.init (lit "data/embeddings"))
        = Ok true) /\
       (Main.rag_initialized app = false ->
        rag = Rag.RAGSystem.init /\
        forall text top_k,
          Main.search_documents app text top_k
          = ([], Main.HTTPException 400
                   (lit "No documents have been ingested yet")))) /\
  (forall e, lifespan settings = Raise e ->
     (exists msg, e = ValueError msg) \/
     snd (Rag.RAGSystem.load_index Rag.RAGSystem.init (lit "data/embeddings"))
     = Raise e) /\
  (ai_agent_init settings = Raise (ValueError (lit "No OpenAI API key configured")) ->
   exists e, lifespan settings = Raise e).
Proof.
  unfold lifespan. split; [|split].
  - intros app.
    destruct (embedding_generator_init settings) as [embedder|e]; cbn [bind];
      [|discriminate].
    destruct (Rag.RAGSystem.load_index Rag.RAGSystem.init (lit "data/embeddings"))
      as [rag loaded] eqn:Hload.
    destruct loaded as [flag|e]; cbn [bind]; [|discriminate].
    destruct (ai_agent_init settings) as [chat|e]; cbn [bind]; [|discriminate].
    intros [= <-]. do 2 eexists. split; [reflexivity|]. split; [reflexivity|].
    split; [reflexivity|]. cbn [snd Main.rag_initialized Main.rag_system].
    assert (Hflag : Rag.RAGSystem.is_initialized rag = flag).
    { unfold Rag.RAGSystem.load_index in Hload.
      destruct (Rag.FAISSVectorStore.load _ _ _) as [store' [[|]|e]];
        inversion Hload; reflexivity. }
    split.
    + rewrite Hflag. split; [now intros ->|now intros [= ->]].
    + intros Hnot. split.
      * clear Hflag.
        unfold Rag.RAGSystem.load_index, Rag.FAISSVectorStore.load in Hload.
        destruct (Rag.path_exists _ && Rag.path_exists _).
        -- destruct (Rag.read_index _) as [[dim vectors]|e];
             [|cbv beta iota zeta in Hload; discriminate Hload].
           destruct (Rag.read_documents _); cbv beta iota zeta in Hload;
             [|discriminate Hload].
           injection Hload as <- _.
           cbn [Rag.RAGSystem.is_initialized] in Hnot. discriminate Hnot.
        -- cbv beta iota zeta in Hload. injection Hload as <- _. reflexivity.
      * intros text top_k. unfold Main.search_documents.
        cbn [Main.rag_system]. now rewrite Hnot.
  - intros e.
    destruct (embedding_generator_init settings) as [embedder|e'] eqn:Hembed;
      cbn [bind].
    + destruct (Rag.RAGSystem.load_index Rag.RAGSystem.init
                  (lit "data/embeddings")) as [rag [flag|e']]; cbn [bind snd].
      * destruct (ai_agent_init settings) as [chat|e'] eqn:Hchat; cbn [bind];
          [discriminate|].
        intros [= <-]. left. unfold ai_agent_init in Hchat.
        destruct (_ && _); [discriminate|].
        destruct (truthy _); [discriminate|].
        injection Hchat as <-. eexists. reflexivity.
      * intros [= <-]. now right.
    + intros [= <-]. left. unfold embedding_generator_init in Hembed.
      destruct (_ && _); [discriminate|].
      destruct (truthy (openai_api_key settings)); [discriminate|].
      injection Hembed as <-. eexists. reflexivity.
  - intros Hchat.
    destruct (embedding_generator_init settings) as [embedder|e]; cbn [bind];
      [|now exists e].
    destruct (Rag.RAGSystem.load_index Rag.RAGSystem.init (lit "data/embeddings"))
      as [rag [flag|e]]; cbn [bind]; [|now exists e].
    rewrite Hchat. cbn [bind]. eexists. reflexivity.
Qed.

End Startup.

(** X30 in the sample world, with an OpenAI key only: no saved index is
    found. *)
Lemma startup_witness :
  exists app,
    @lifespan Sample.world openai_only = Ok app /\
    Main.rag_initialized app = false /\
    Main.rag_system app = Some Rag.RAGSystem.init.
Proof.
  destruct (@lifespan Sample.world openai_only) as [app|e] eqn:Hrun;
    [|vm_compute in Hrun; discriminate Hrun].
  destruct (@startup Sample.world openai_only) as (Hstarted & _).
  destruct (Hstarted app Hrun) as (rag & agent & Hrag & _ & _ & _ & Hfresh).
  assert (Hnot : Main.rag_initialized app = false)
    by (vm_compute in Hrun; injection Hrun as <-; reflexivity).
  exists app. split; [reflexivity|]. split; [exact Hnot|].
  rewrite Hrag. now destruct (Hfresh Hnot) as [-> _].
Defined.

End StartupFacts.
